(** * Transport-parameter codec of quic-go (internal/handshake/transport_parameters.go)

    A shallow embedding of the decoder ([Unmarshal]), the encoder ([Marshal]),
    the session-ticket subset codec and the 0-RTT compatibility check, with
    the properties the design document states about them.

    Conventions of the embedding:
    - a [uint64] is a [Z] in [0, 2^64); conversions to it are written out
      ([to_uint64]); a [time.Duration] is a signed 64-bit [Z] counting
      nanoseconds, and its multiplication wraps ([wrap_int64]);
    - [int] has 64 bits (the supported platforms of the repository);
    - a [bytes.Reader] is the list of the bytes that are still unread; a
      [bytes.Buffer] is the list of the bytes written so far;
    - a function that returns a Go [error] returns a [result]; a pointer
      receiver that is updated in place is passed in and returned;
    - a Go panic is [None] of an [option];
    - the three draws of [math/rand] in [Marshal] are arguments. *)

From Stdlib Require Import ZArith List Lia Bool Permutation Sorted.
From Stdlib Require Import Init.Byte Strings.Byte.
Import ListNotations.
Open Scope Z_scope.

(** ** Bytes, readers and fixed-width integers *)

Definition Reader := list byte.
Definition Buffer := list byte.

Definition byte_val (b : byte) : Z := Z.of_N (Byte.to_N b).

(** Conversion to [uint8]: the low eight bits. *)
Definition uint8 (z : Z) : byte :=
  match Byte.of_N (Z.to_N (z mod 256)) with
  | Some b => b
  | None => x00
  end.

Definition to_uint64 (z : Z) : Z := z mod 2 ^ 64.

(** Two's complement wrap-around of a signed 64-bit result. *)
Definition wrap_int64 (z : Z) : Z := (z + 2 ^ 63) mod 2 ^ 64 - 2 ^ 63.

Definition len (r : list byte) : Z := Z.of_nat (length r).

Definition Millisecond : Z := 1000000.

(** [time.Duration(val) * time.Millisecond] for a [uint64] [val]. *)
Definition duration_of_ms (val : Z) : Z := wrap_int64 (wrap_int64 val * Millisecond).

(** ** Errors *)

Inductive error : Type :=
| EOF
| ErrUnexpectedEOF
| ErrRemainingLength (remaining paramLen : Z)
| ErrClientSentPreferredAddress
| ErrWrongLengthDisableActiveMigration (paramLen : Z)
| ErrClientSentStatelessResetToken
| ErrWrongLengthStatelessResetToken (paramLen : Z)
| ErrClientSentOriginalConnectionID
| ErrDuplicate (paramID : Z)
| ErrPreferredAddressLength (expectedLen bytesRead : Z)
| ErrReadingParameter (paramID : Z) (e : error)
| ErrInconsistentLength (paramID : Z)
| ErrMaxPacketSize (val : Z)
| ErrAckDelayExponent (val : Z)
| ErrMaxAckDelay (maxAckDelay : Z)
| ErrBug (paramID : Z)
| ErrUnknownVersion (version : Z)
| TransportParameterError (e : error).

Inductive result (A : Type) : Type :=
| Ok (a : A)
| Err (e : error).
Arguments Ok {A} a.
Arguments Err {A} e.

Definition bind {A B : Type} (m : result A) (k : A -> result B) : result B :=
  match m with
  | Ok a => k a
  | Err e => Err e
  end.

Notation "' pat <- m ;; k" := (bind m (fun x => let pat := x in k))
  (at level 61, pat pattern, m at next level, right associativity).

Definition obind {A B : Type} (m : option A) (k : A -> option B) : option B :=
  match m with
  | Some a => k a
  | None => None
  end.

Notation "x <~ m ;; k" := (obind m (fun x => k))
  (at level 61, m at next level, right associativity).

(** [bytes.Reader.ReadByte]. *)
Definition ReadByte (r : Reader) : result (byte * Reader) :=
  match r with
  | [] => Err EOF
  | b :: r' => Ok (b, r')
  end.

(** [io.ReadFull] into a buffer of [n] bytes: [EOF] when nothing could be
    read, [ErrUnexpectedEOF] when fewer than [n] bytes were there. *)
Definition ReadFull (r : Reader) (n : nat) : result (list byte * Reader) :=
  if (n =? 0)%nat then Ok ([], r)
  else if (length r =? 0)%nat then Err EOF
  else if (length r <? n)%nat then Err ErrUnexpectedEOF
  else Ok (firstn n r, skipn n r).

(** ** Variable-length integers (package utils) *)

Definition maxVarInt1 : Z := 63.
Definition maxVarInt2 : Z := 16383.
Definition maxVarInt4 : Z := 1073741823.
Definition maxVarInt8 : Z := 4611686018427387903.

(** Modelled from the spec: [utils.ReadVarInt], the decoder of the
    variable-length integer primitive, which is not part of the sources.
    Section 2 of the design describes it as the 1/2/4/8-byte prefix-length
    scheme of the protocol: the two high bits of the first byte give the
    length, the remaining bits are the value in network byte order; running
    out of input is the reader's [EOF]. *)
Definition ReadVarInt (r : Reader) : result (Z * Reader) :=
  '(firstByte, r) <- ReadByte r ;;
  let l := Z.shiftl 1 (Z.shiftr (Z.land (byte_val firstByte) 192) 6) in
  let b1 := Z.land (byte_val firstByte) (255 - 192) in
  if l =? 1 then Ok (b1, r) else
  '(b2, r) <- ReadByte r ;;
  if l =? 2 then Ok (byte_val b2 + Z.shiftl b1 8, r) else
  '(b3, r) <- ReadByte r ;;
  '(b4, r) <- ReadByte r ;;
  if l =? 4 then
    Ok (byte_val b4 + Z.shiftl (byte_val b3) 8 + Z.shiftl (byte_val b2) 16
        + Z.shiftl b1 24, r)
  else
  '(b5, r) <- ReadByte r ;;
  '(b6, r) <- ReadByte r ;;
  '(b7, r) <- ReadByte r ;;
  '(b8, r) <- ReadByte r ;;
  Ok (byte_val b8 + Z.shiftl (byte_val b7) 8 + Z.shiftl (byte_val b6) 16
      + Z.shiftl (byte_val b5) 24 + Z.shiftl (byte_val b4) 32
      + Z.shiftl (byte_val b3) 40 + Z.shiftl (byte_val b2) 48
      + Z.shiftl b1 56, r).

(** Modelled from the spec: the bytes [utils.WriteVarInt] appends for [i]
    (not part of the sources): the shortest of the four forms that holds
    [i]; the primitive is bounds-checked, a value above 62 bits has no
    encoding (the Go function panics). *)
Definition encodeVarInt (i : Z) : option (list byte) :=
  if i <=? maxVarInt1 then Some [uint8 i]
  else if i <=? maxVarInt2 then
    Some [uint8 (Z.lor (Z.shiftr i 8) 64); uint8 i]
  else if i <=? maxVarInt4 then
    Some [uint8 (Z.lor (Z.shiftr i 24) 128); uint8 (Z.shiftr i 16);
          uint8 (Z.shiftr i 8); uint8 i]
  else if i <=? maxVarInt8 then
    Some [uint8 (Z.lor (Z.shiftr i 56) 192); uint8 (Z.shiftr i 48);
          uint8 (Z.shiftr i 40); uint8 (Z.shiftr i 32);
          uint8 (Z.shiftr i 24); uint8 (Z.shiftr i 16);
          uint8 (Z.shiftr i 8); uint8 i]
  else None.

(** [utils.WriteVarInt(b, i)]. *)
Definition WriteVarInt (b : Buffer) (i : Z) : option Buffer :=
  e <~ encodeVarInt i ;; Some (b ++ e).

(** Modelled from the spec: [utils.VarIntLen] (not part of the sources), the
    number of bytes of the encoding of [i]; it panics above 62 bits. *)
Definition VarIntLen (i : Z) : option Z :=
  if i <=? maxVarInt1 then Some 1
  else if i <=? maxVarInt2 then Some 2
  else if i <=? maxVarInt4 then Some 4
  else if i <=? maxVarInt8 then Some 8
  else None.

(** Modelled from the spec: [utils.BigEndian.ReadUint16] and [WriteUint16]
    (not part of the sources): two bytes, network byte order. *)
Definition ReadUint16 (r : Reader) : result (Z * Reader) :=
  '(b2, r) <- ReadByte r ;;
  '(b1, r) <- ReadByte r ;;
  Ok (byte_val b1 + Z.shiftl (byte_val b2) 8, r).

Definition WriteUint16 (b : Buffer) (i : Z) : Buffer :=
  b ++ [uint8 (Z.shiftr i 8); uint8 i].

(** Modelled from the spec: [utils.MaxDuration] (not part of the sources),
    the larger of two durations. *)
Definition MaxDuration (a b : Z) : Z := if a >? b then a else b.

(** ** Package protocol *)

Inductive Perspective : Type := PerspectiveServer | PerspectiveClient.

Definition Perspective_eqb (a b : Perspective) : bool :=
  match a, b with
  | PerspectiveServer, PerspectiveServer => true
  | PerspectiveClient, PerspectiveClient => true
  | _, _ => false
  end.

(** A connection ID is a byte slice; [nil] and the empty slice are both []. *)
Definition ConnectionID := list byte.

(** Modelled from the spec: [protocol.ReadConnectionID] (not part of the
    sources), "a connection-identifier parser that reads N raw bytes into an
    opaque identifier type"; a short read is reported as [EOF]. *)
Definition ReadConnectionID (r : Reader) (n : Z) : result (ConnectionID * Reader) :=
  if n =? 0 then Ok ([], r)
  else match ReadFull r (Z.to_nat n) with
       | Ok x => Ok x
       | Err ErrUnexpectedEOF => Err EOF
       | Err e => Err e
       end.

(** The constants of package protocol and [utils.InfDuration]: their
    declarations are not part of the sources, so the codec is stated over any
    choice of them. *)
Class Constants : Type := {
  DefaultAckDelayExponent : Z;
  MaxAckDelayExponent : Z;
  DefaultMaxAckDelay : Z;
  MaxMaxAckDelay : Z;
  MinRemoteIdleTimeout : Z;
  MaxReceivePacketSize : Z;
  MaxByteCount : Z;
  InfDuration : Z
}.

(** The values these constants have upstream. *)
Definition upstream : Constants := {|
  DefaultAckDelayExponent := 3;
  MaxAckDelayExponent := 20;
  DefaultMaxAckDelay := 25 * Millisecond;
  MaxMaxAckDelay := (2 ^ 14 - 1) * Millisecond;
  MinRemoteIdleTimeout := 5 * 1000 * Millisecond;
  MaxReceivePacketSize := 1452;
  MaxByteCount := 2 ^ 62 - 1;
  InfDuration := 2 ^ 63 - 1
|}.

(** ** The data model *)

Definition transportParameterMarshalingVersion : Z := 1.

Definition originalConnectionIDParameterID : Z := 0.
Definition maxIdleTimeoutParameterID : Z := 1.
Definition statelessResetTokenParameterID : Z := 2.
Definition maxPacketSizeParameterID : Z := 3.
Definition initialMaxDataParameterID : Z := 4.
Definition initialMaxStreamDataBidiLocalParameterID : Z := 5.
Definition initialMaxStreamDataBidiRemoteParameterID : Z := 6.
Definition initialMaxStreamDataUniParameterID : Z := 7.
Definition initialMaxStreamsBidiParameterID : Z := 8.
Definition initialMaxStreamsUniParameterID : Z := 9.
Definition ackDelayExponentParameterID : Z := 10.
Definition maxAckDelayParameterID : Z := 11.
Definition disableActiveMigrationParameterID : Z := 12.
Definition preferredAddressParameterID : Z := 13.
Definition activeConnectionIDLimitParameterID : Z := 14.

Record PreferredAddress : Type := {
  IPv4 : list byte;
  IPv4Port : Z;
  IPv6 : list byte;
  IPv6Port : Z;
  ConnectionID_ : ConnectionID;
  StatelessResetToken_ : list byte
}.

Record TransportParameters : Type := {
  InitialMaxStreamDataBidiLocal : Z;
  InitialMaxStreamDataBidiRemote : Z;
  InitialMaxStreamDataUni : Z;
  InitialMaxData : Z;
  MaxAckDelay : Z;
  AckDelayExponent : Z;
  DisableActiveMigration : bool;
  MaxPacketSize : Z;
  MaxUniStreamNum : Z;
  MaxBidiStreamNum : Z;
  MaxIdleTimeout : Z;
  PreferredAddress_ : option PreferredAddress;
  StatelessResetToken : option (list byte);
  OriginalConnectionID : ConnectionID;
  ActiveConnectionIDLimit : Z
}.

(** The zero value [TransportParameters{}]. *)
Definition zeroTransportParameters : TransportParameters := {|
  InitialMaxStreamDataBidiLocal := 0;
  InitialMaxStreamDataBidiRemote := 0;
  InitialMaxStreamDataUni := 0;
  InitialMaxData := 0;
  MaxAckDelay := 0;
  AckDelayExponent := 0;
  DisableActiveMigration := false;
  MaxPacketSize := 0;
  MaxUniStreamNum := 0;
  MaxBidiStreamNum := 0;
  MaxIdleTimeout := 0;
  PreferredAddress_ := None;
  StatelessResetToken := None;
  OriginalConnectionID := [];
  ActiveConnectionIDLimit := 0
|}.

(** Field updates of the receiver. *)
Definition set_InitialMaxStreamDataBidiLocal (v : Z) (p : TransportParameters) :=
  {| InitialMaxStreamDataBidiLocal := v;
     InitialMaxStreamDataBidiRemote := InitialMaxStreamDataBidiRemote p;
     InitialMaxStreamDataUni := InitialMaxStreamDataUni p;
     InitialMaxData := InitialMaxData p;
     MaxAckDelay := MaxAckDelay p;
     AckDelayExponent := AckDelayExponent p;
     DisableActiveMigration := DisableActiveMigration p;
     MaxPacketSize := MaxPacketSize p;
     MaxUniStreamNum := MaxUniStreamNum p;
     MaxBidiStreamNum := MaxBidiStreamNum p;
     MaxIdleTimeout := MaxIdleTimeout p;
     PreferredAddress_ := PreferredAddress_ p;
     StatelessResetToken := StatelessResetToken p;
     OriginalConnectionID := OriginalConnectionID p;
     ActiveConnectionIDLimit := ActiveConnectionIDLimit p |}.

Definition set_InitialMaxStreamDataBidiRemote (v : Z) (p : TransportParameters) :=
  {| InitialMaxStreamDataBidiLocal := InitialMaxStreamDataBidiLocal p;
     InitialMaxStreamDataBidiRemote := v;
     InitialMaxStreamDataUni := InitialMaxStreamDataUni p;
     InitialMaxData := InitialMaxData p;
     MaxAckDelay := MaxAckDelay p;
     AckDelayExponent := AckDelayExponent p;
     DisableActiveMigration := DisableActiveMigration p;
     MaxPacketSize := MaxPacketSize p;
     MaxUniStreamNum := MaxUniStreamNum p;
     MaxBidiStreamNum := MaxBidiStreamNum p;
     MaxIdleTimeout := MaxIdleTimeout p;
     PreferredAddress_ := PreferredAddress_ p;
     StatelessResetToken := StatelessResetToken p;
     OriginalConnectionID := OriginalConnectionID p;
     ActiveConnectionIDLimit := ActiveConnectionIDLimit p |}.

Definition set_InitialMaxStreamDataUni (v : Z) (p : TransportParameters) :=
  {| InitialMaxStreamDataBidiLocal := InitialMaxStreamDataBidiLocal p;
     InitialMaxStreamDataBidiRemote := InitialMaxStreamDataBidiRemote p;
     InitialMaxStreamDataUni := v;
     InitialMaxData := InitialMaxData p;
     MaxAckDelay := MaxAckDelay p;
     AckDelayExponent := AckDelayExponent p;
     DisableActiveMigration := DisableActiveMigration p;
     MaxPacketSize := MaxPacketSize p;
     MaxUniStreamNum := MaxUniStreamNum p;
     MaxBidiStreamNum := MaxBidiStreamNum p;
     MaxIdleTimeout := MaxIdleTimeout p;
     PreferredAddress_ := PreferredAddress_ p;
     StatelessResetToken := StatelessResetToken p;
     OriginalConnectionID := OriginalConnectionID p;
     ActiveConnectionIDLimit := ActiveConnectionIDLimit p |}.

Definition set_InitialMaxData (v : Z) (p : TransportParameters) :=
  {| InitialMaxStreamDataBidiLocal := InitialMaxStreamDataBidiLocal p;
     InitialMaxStreamDataBidiRemote := InitialMaxStreamDataBidiRemote p;
     InitialMaxStreamDataUni := InitialMaxStreamDataUni p;
     InitialMaxData := v;
     MaxAckDelay := MaxAckDelay p;
     AckDelayExponent := AckDelayExponent p;
     DisableActiveMigration := DisableActiveMigration p;
     MaxPacketSize := MaxPacketSize p;
     MaxUniStreamNum := MaxUniStreamNum p;
     MaxBidiStreamNum := MaxBidiStreamNum p;
     MaxIdleTimeout := MaxIdleTimeout p;
     PreferredAddress_ := PreferredAddress_ p;
     StatelessResetToken := StatelessResetToken p;
     OriginalConnectionID := OriginalConnectionID p;
     ActiveConnectionIDLimit := ActiveConnectionIDLimit p |}.

Definition set_MaxAckDelay (v : Z) (p : TransportParameters) :=
  {| InitialMaxStreamDataBidiLocal := InitialMaxStreamDataBidiLocal p;
     InitialMaxStreamDataBidiRemote := InitialMaxStreamDataBidiRemote p;
     InitialMaxStreamDataUni := InitialMaxStreamDataUni p;
     InitialMaxData := InitialMaxData p;
     MaxAckDelay := v;
     AckDelayExponent := AckDelayExponent p;
     DisableActiveMigration := DisableActiveMigration p;
     MaxPacketSize := MaxPacketSize p;
     MaxUniStreamNum := MaxUniStreamNum p;
     MaxBidiStreamNum := MaxBidiStreamNum p;
     MaxIdleTimeout := MaxIdleTimeout p;
     PreferredAddress_ := PreferredAddress_ p;
     StatelessResetToken := StatelessResetToken p;
     OriginalConnectionID := OriginalConnectionID p;
     ActiveConnectionIDLimit := ActiveConnectionIDLimit p |}.

Definition set_AckDelayExponent (v : Z) (p : TransportParameters) :=
  {| InitialMaxStreamDataBidiLocal := InitialMaxStreamDataBidiLocal p;
     InitialMaxStreamDataBidiRemote := InitialMaxStreamDataBidiRemote p;
     InitialMaxStreamDataUni := InitialMaxStreamDataUni p;
     InitialMaxData := InitialMaxData p;
     MaxAckDelay := MaxAckDelay p;
     AckDelayExponent := v;
     DisableActiveMigration := DisableActiveMigration p;
     MaxPacketSize := MaxPacketSize p;
     MaxUniStreamNum := MaxUniStreamNum p;
     MaxBidiStreamNum := MaxBidiStreamNum p;
     MaxIdleTimeout := MaxIdleTimeout p;
     PreferredAddress_ := PreferredAddress_ p;
     StatelessResetToken := StatelessResetToken p;
     OriginalConnectionID := OriginalConnectionID p;
     ActiveConnectionIDLimit := ActiveConnectionIDLimit p |}.

Definition set_DisableActiveMigration (v : bool) (p : TransportParameters) :=
  {| InitialMaxStreamDataBidiLocal := InitialMaxStreamDataBidiLocal p;
     InitialMaxStreamDataBidiRemote := InitialMaxStreamDataBidiRemote p;
     InitialMaxStreamDataUni := InitialMaxStreamDataUni p;
     InitialMaxData := InitialMaxData p;
     MaxAckDelay := MaxAckDelay p;
     AckDelayExponent := AckDelayExponent p;
     DisableActiveMigration := v;
     MaxPacketSize := MaxPacketSize p;
     MaxUniStreamNum := MaxUniStreamNum p;
     MaxBidiStreamNum := MaxBidiStreamNum p;
     MaxIdleTimeout := MaxIdleTimeout p;
     PreferredAddress_ := PreferredAddress_ p;
     StatelessResetToken := StatelessResetToken p;
     OriginalConnectionID := OriginalConnectionID p;
     ActiveConnectionIDLimit := ActiveConnectionIDLimit p |}.

Definition set_MaxPacketSize (v : Z) (p : TransportParameters) :=
  {| InitialMaxStreamDataBidiLocal := InitialMaxStreamDataBidiLocal p;
     InitialMaxStreamDataBidiRemote := InitialMaxStreamDataBidiRemote p;
     InitialMaxStreamDataUni := InitialMaxStreamDataUni p;
     InitialMaxData := InitialMaxData p;
     MaxAckDelay := MaxAckDelay p;
     AckDelayExponent := AckDelayExponent p;
     DisableActiveMigration := DisableActiveMigration p;
     MaxPacketSize := v;
     MaxUniStreamNum := MaxUniStreamNum p;
     MaxBidiStreamNum := MaxBidiStreamNum p;
     MaxIdleTimeout := MaxIdleTimeout p;
     PreferredAddress_ := PreferredAddress_ p;
     StatelessResetToken := StatelessResetToken p;
     OriginalConnectionID := OriginalConnectionID p;
     ActiveConnectionIDLimit := ActiveConnectionIDLimit p |}.

Definition set_MaxUniStreamNum (v : Z) (p : TransportParameters) :=
  {| InitialMaxStreamDataBidiLocal := InitialMaxStreamDataBidiLocal p;
     InitialMaxStreamDataBidiRemote := InitialMaxStreamDataBidiRemote p;
     InitialMaxStreamDataUni := InitialMaxStreamDataUni p;
     InitialMaxData := InitialMaxData p;
     MaxAckDelay := MaxAckDelay p;
     AckDelayExponent := AckDelayExponent p;
     DisableActiveMigration := DisableActiveMigration p;
     MaxPacketSize := MaxPacketSize p;
     MaxUniStreamNum := v;
     MaxBidiStreamNum := MaxBidiStreamNum p;
     MaxIdleTimeout := MaxIdleTimeout p;
     PreferredAddress_ := PreferredAddress_ p;
     StatelessResetToken := StatelessResetToken p;
     OriginalConnectionID := OriginalConnectionID p;
     ActiveConnectionIDLimit := ActiveConnectionIDLimit p |}.

Definition set_MaxBidiStreamNum (v : Z) (p : TransportParameters) :=
  {| InitialMaxStreamDataBidiLocal := InitialMaxStreamDataBidiLocal p;
     InitialMaxStreamDataBidiRemote := InitialMaxStreamDataBidiRemote p;
     InitialMaxStreamDataUni := InitialMaxStreamDataUni p;
     InitialMaxData := InitialMaxData p;
     MaxAckDelay := MaxAckDelay p;
     AckDelayExponent := AckDelayExponent p;
     DisableActiveMigration := DisableActiveMigration p;
     MaxPacketSize := MaxPacketSize p;
     MaxUniStreamNum := MaxUniStreamNum p;
     MaxBidiStreamNum := v;
     MaxIdleTimeout := MaxIdleTimeout p;
     PreferredAddress_ := PreferredAddress_ p;
     StatelessResetToken := StatelessResetToken p;
     OriginalConnectionID := OriginalConnectionID p;
     ActiveConnectionIDLimit := ActiveConnectionIDLimit p |}.

Definition set_MaxIdleTimeout (v : Z) (p : TransportParameters) :=
  {| InitialMaxStreamDataBidiLocal := InitialMaxStreamDataBidiLocal p;
     InitialMaxStreamDataBidiRemote := InitialMaxStreamDataBidiRemote p;
     InitialMaxStreamDataUni := InitialMaxStreamDataUni p;
     InitialMaxData := InitialMaxData p;
     MaxAckDelay := MaxAckDelay p;
     AckDelayExponent := AckDelayExponent p;
     DisableActiveMigration := DisableActiveMigration p;
     MaxPacketSize := MaxPacketSize p;
     MaxUniStreamNum := MaxUniStreamNum p;
     MaxBidiStreamNum := MaxBidiStreamNum p;
     MaxIdleTimeout := v;
     PreferredAddress_ := PreferredAddress_ p;
     StatelessResetToken := StatelessResetToken p;
     OriginalConnectionID := OriginalConnectionID p;
     ActiveConnectionIDLimit := ActiveConnectionIDLimit p |}.

Definition set_PreferredAddress (v : option PreferredAddress) (p : TransportParameters) :=
  {| InitialMaxStreamDataBidiLocal := InitialMaxStreamDataBidiLocal p;
     InitialMaxStreamDataBidiRemote := InitialMaxStreamDataBidiRemote p;
     InitialMaxStreamDataUni := InitialMaxStreamDataUni p;
     InitialMaxData := InitialMaxData p;
     MaxAckDelay := MaxAckDelay p;
     AckDelayExponent := AckDelayExponent p;
     DisableActiveMigration := DisableActiveMigration p;
     MaxPacketSize := MaxPacketSize p;
     MaxUniStreamNum := MaxUniStreamNum p;
     MaxBidiStreamNum := MaxBidiStreamNum p;
     MaxIdleTimeout := MaxIdleTimeout p;
     PreferredAddress_ := v;
     StatelessResetToken := StatelessResetToken p;
     OriginalConnectionID := OriginalConnectionID p;
     ActiveConnectionIDLimit := ActiveConnectionIDLimit p |}.

Definition set_StatelessResetToken (v : option (list byte)) (p : TransportParameters) :=
  {| InitialMaxStreamDataBidiLocal := InitialMaxStreamDataBidiLocal p;
     InitialMaxStreamDataBidiRemote := InitialMaxStreamDataBidiRemote p;
     InitialMaxStreamDataUni := InitialMaxStreamDataUni p;
     InitialMaxData := InitialMaxData p;
     MaxAckDelay := MaxAckDelay p;
     AckDelayExponent := AckDelayExponent p;
     DisableActiveMigration := DisableActiveMigration p;
     MaxPacketSize := MaxPacketSize p;
     MaxUniStreamNum := MaxUniStreamNum p;
     MaxBidiStreamNum := MaxBidiStreamNum p;
     MaxIdleTimeout := MaxIdleTimeout p;
     PreferredAddress_ := PreferredAddress_ p;
     StatelessResetToken := v;
     OriginalConnectionID := OriginalConnectionID p;
     ActiveConnectionIDLimit := ActiveConnectionIDLimit p |}.

Definition set_OriginalConnectionID (v : ConnectionID) (p : TransportParameters) :=
  {| InitialMaxStreamDataBidiLocal := InitialMaxStreamDataBidiLocal p;
     InitialMaxStreamDataBidiRemote := InitialMaxStreamDataBidiRemote p;
     InitialMaxStreamDataUni := InitialMaxStreamDataUni p;
     InitialMaxData := InitialMaxData p;
     MaxAckDelay := MaxAckDelay p;
     AckDelayExponent := AckDelayExponent p;
     DisableActiveMigration := DisableActiveMigration p;
     MaxPacketSize := MaxPacketSize p;
     MaxUniStreamNum := MaxUniStreamNum p;
     MaxBidiStreamNum := MaxBidiStreamNum p;
     MaxIdleTimeout := MaxIdleTimeout p;
     PreferredAddress_ := PreferredAddress_ p;
     StatelessResetToken := StatelessResetToken p;
     OriginalConnectionID := v;
     ActiveConnectionIDLimit := ActiveConnectionIDLimit p |}.

Definition set_ActiveConnectionIDLimit (v : Z) (p : TransportParameters) :=
  {| InitialMaxStreamDataBidiLocal := InitialMaxStreamDataBidiLocal p;
     InitialMaxStreamDataBidiRemote := InitialMaxStreamDataBidiRemote p;
     InitialMaxStreamDataUni := InitialMaxStreamDataUni p;
     InitialMaxData := InitialMaxData p;
     MaxAckDelay := MaxAckDelay p;
     AckDelayExponent := AckDelayExponent p;
     DisableActiveMigration := DisableActiveMigration p;
     MaxPacketSize := MaxPacketSize p;
     MaxUniStreamNum := MaxUniStreamNum p;
     MaxBidiStreamNum := MaxBidiStreamNum p;
     MaxIdleTimeout := MaxIdleTimeout p;
     PreferredAddress_ := PreferredAddress_ p;
     StatelessResetToken := StatelessResetToken p;
     OriginalConnectionID := OriginalConnectionID p;
     ActiveConnectionIDLimit := v |}.

(** ** The decoder *)

(** [bytes.Reader.Read] into a buffer of [n] bytes: what is there is copied,
    the rest of the buffer keeps its zero bytes. *)
Definition Read (r : Reader) (n : nat) : list byte * Reader :=
  (firstn n r ++ repeat x00 (n - length (firstn n r)), skipn n r).

(** [bytes.Reader.Seek(n, io.SeekCurrent)]. *)
Definition Seek (r : Reader) (n : Z) : Reader := skipn (Z.to_nat n) r.

(** [sort.Slice(parameterIDs, less)] with [less] the order of the
    identifiers: the sorted slice is determined by the identifiers alone. *)
Fixpoint insertID (x : Z) (l : list Z) : list Z :=
  match l with
  | [] => [x]
  | y :: l' => if x <=? y then x :: y :: l' else y :: insertID x l'
  end.

Fixpoint sortIDs (l : list Z) : list Z :=
  match l with
  | [] => []
  | x :: l' => insertID x (sortIDs l')
  end.

(** The loop over the sorted identifiers at the end of [unmarshal]: the first
    identifier that equals its successor. *)
Fixpoint firstRepeated (l : list Z) : option Z :=
  match l with
  | x :: (y :: _) as l' => if x =? y then Some x else firstRepeated l'
  | _ => None
  end.

(** The local variables of [unmarshal] together with its receiver. *)
Record walk_state : Type := {
  receiver : TransportParameters;
  parameterIDs : list Z;
  readAckDelayExponent : bool;
  readMaxAckDelay : bool
}.

Definition with_receiver (p : TransportParameters) (st : walk_state) : walk_state :=
  {| receiver := p;
     parameterIDs := parameterIDs st;
     readAckDelayExponent := readAckDelayExponent st;
     readMaxAckDelay := readMaxAckDelay st |}.

Definition initial_state (p : TransportParameters) : walk_state :=
  {| receiver := p;
     parameterIDs := [];
     readAckDelayExponent := false;
     readMaxAckDelay := false |}.

(** The identifiers of the third arm of the switch of [unmarshal]. *)
Definition plainNumericParameterIDs : list Z :=
  [ initialMaxStreamDataBidiLocalParameterID;
    initialMaxStreamDataBidiRemoteParameterID;
    initialMaxStreamDataUniParameterID;
    initialMaxDataParameterID;
    initialMaxStreamsBidiParameterID;
    initialMaxStreamsUniParameterID;
    maxIdleTimeoutParameterID;
    maxPacketSizeParameterID;
    activeConnectionIDLimitParameterID ].

Definition mem (x : Z) (l : list Z) : bool := existsb (Z.eqb x) l.

(** The fields of [TransportParameters], each with the parameter that
    carries it on the wire. *)
Inductive field : Type :=
| fInitialMaxStreamDataBidiLocal
| fInitialMaxStreamDataBidiRemote
| fInitialMaxStreamDataUni
| fInitialMaxData
| fMaxAckDelay
| fAckDelayExponent
| fDisableActiveMigration
| fMaxPacketSize
| fMaxUniStreamNum
| fMaxBidiStreamNum
| fMaxIdleTimeout
| fPreferredAddress
| fStatelessResetToken
| fOriginalConnectionID
| fActiveConnectionIDLimit.

Definition field_paramID (f : field) : Z :=
  match f with
  | fInitialMaxStreamDataBidiLocal => initialMaxStreamDataBidiLocalParameterID
  | fInitialMaxStreamDataBidiRemote => initialMaxStreamDataBidiRemoteParameterID
  | fInitialMaxStreamDataUni => initialMaxStreamDataUniParameterID
  | fInitialMaxData => initialMaxDataParameterID
  | fMaxAckDelay => maxAckDelayParameterID
  | fAckDelayExponent => ackDelayExponentParameterID
  | fDisableActiveMigration => disableActiveMigrationParameterID
  | fMaxPacketSize => maxPacketSizeParameterID
  | fMaxUniStreamNum => initialMaxStreamsUniParameterID
  | fMaxBidiStreamNum => initialMaxStreamsBidiParameterID
  | fMaxIdleTimeout => maxIdleTimeoutParameterID
  | fPreferredAddress => preferredAddressParameterID
  | fStatelessResetToken => statelessResetTokenParameterID
  | fOriginalConnectionID => originalConnectionIDParameterID
  | fActiveConnectionIDLimit => activeConnectionIDLimitParameterID
  end.

(** [same_field f p q]: the values [p] and [q] agree on field [f]. *)
Definition same_field (f : field) (p q : TransportParameters) : Prop :=
  match f with
  | fInitialMaxStreamDataBidiLocal =>
      InitialMaxStreamDataBidiLocal p = InitialMaxStreamDataBidiLocal q
  | fInitialMaxStreamDataBidiRemote =>
      InitialMaxStreamDataBidiRemote p = InitialMaxStreamDataBidiRemote q
  | fInitialMaxStreamDataUni =>
      InitialMaxStreamDataUni p = InitialMaxStreamDataUni q
  | fInitialMaxData => InitialMaxData p = InitialMaxData q
  | fMaxAckDelay => MaxAckDelay p = MaxAckDelay q
  | fAckDelayExponent => AckDelayExponent p = AckDelayExponent q
  | fDisableActiveMigration => DisableActiveMigration p = DisableActiveMigration q
  | fMaxPacketSize => MaxPacketSize p = MaxPacketSize q
  | fMaxUniStreamNum => MaxUniStreamNum p = MaxUniStreamNum q
  | fMaxBidiStreamNum => MaxBidiStreamNum p = MaxBidiStreamNum q
  | fMaxIdleTimeout => MaxIdleTimeout p = MaxIdleTimeout q
  | fPreferredAddress => PreferredAddress_ p = PreferredAddress_ q
  | fStatelessResetToken => StatelessResetToken p = StatelessResetToken q
  | fOriginalConnectionID => OriginalConnectionID p = OriginalConnectionID q
  | fActiveConnectionIDLimit => ActiveConnectionIDLimit p = ActiveConnectionIDLimit q
  end.

Section Codec.

Context {proto : Constants}.

Definition readPreferredAddress (p : TransportParameters) (r : Reader)
    (expectedLen : Z) : result (TransportParameters * Reader) :=
  let remainingLen := len r in
  '(ipv4, r) <- ReadFull r 4 ;;
  '(port4, r) <- ReadUint16 r ;;
  '(ipv6, r) <- ReadFull r 16 ;;
  '(port6, r) <- ReadUint16 r ;;
  '(connIDLen, r) <- ReadByte r ;;
  '(connID, r) <- ReadConnectionID r (byte_val connIDLen) ;;
  '(token, r) <- ReadFull r 16 ;;
  let pa := {| IPv4 := ipv4; IPv4Port := port4; IPv6 := ipv6; IPv6Port := port6;
               ConnectionID_ := connID; StatelessResetToken_ := token |} in
  let bytesRead := remainingLen - len r in
  if negb (bytesRead =? expectedLen)
  then Err (ErrPreferredAddressLength expectedLen bytesRead)
  else Ok (set_PreferredAddress (Some pa) p, r).

(** The [switch paramID] statement of [readNumericTransportParameter], with
    the value already read. *)
Definition readNumeric_switch (p : TransportParameters) (paramID : Z) (val : Z)
    : result TransportParameters :=
  if paramID =? initialMaxStreamDataBidiLocalParameterID then
    Ok (set_InitialMaxStreamDataBidiLocal val p)
  else if paramID =? initialMaxStreamDataBidiRemoteParameterID then
    Ok (set_InitialMaxStreamDataBidiRemote val p)
  else if paramID =? initialMaxStreamDataUniParameterID then
    Ok (set_InitialMaxStreamDataUni val p)
  else if paramID =? initialMaxDataParameterID then
    Ok (set_InitialMaxData val p)
  else if paramID =? initialMaxStreamsBidiParameterID then
    Ok (set_MaxBidiStreamNum (wrap_int64 val) p)
  else if paramID =? initialMaxStreamsUniParameterID then
    Ok (set_MaxUniStreamNum (wrap_int64 val) p)
  else if paramID =? maxIdleTimeoutParameterID then
    Ok (set_MaxIdleTimeout
          (MaxDuration MinRemoteIdleTimeout (duration_of_ms val)) p)
  else if paramID =? maxPacketSizeParameterID then
    if val <? 1200 then Err (ErrMaxPacketSize val)
    else Ok (set_MaxPacketSize val p)
  else if paramID =? ackDelayExponentParameterID then
    if val >? MaxAckDelayExponent then Err (ErrAckDelayExponent val)
    else Ok (set_AckDelayExponent (byte_val (uint8 val)) p)
  else if paramID =? maxAckDelayParameterID then
    let maxAckDelay := duration_of_ms val in
    if maxAckDelay >=? MaxMaxAckDelay then Err (ErrMaxAckDelay maxAckDelay)
    else
      let maxAckDelay := if maxAckDelay <? 0 then InfDuration else maxAckDelay in
      Ok (set_MaxAckDelay maxAckDelay p)
  else if paramID =? activeConnectionIDLimitParameterID then
    Ok (set_ActiveConnectionIDLimit val p)
  else Err (ErrBug paramID).

Definition readNumericTransportParameter (p : TransportParameters) (r : Reader)
    (paramID : Z) (expectedLen : Z) : result (TransportParameters * Reader) :=
  let remainingLen := len r in
  match ReadVarInt r with
  | Err e => Err (ErrReadingParameter paramID e)
  | Ok (val, r) =>
    if negb (remainingLen - len r =? expectedLen)
    then Err (ErrInconsistentLength paramID)
    else
      match readNumeric_switch p paramID val with
      | Err e => Err e
      | Ok p => Ok (p, r)
      end
  end.

(** The [switch paramID] statement in the loop of [unmarshal], with the
    identifier and the declared length already read. *)
Definition unmarshal_switch (sentBy : Perspective) (st : walk_state)
    (paramID paramLen : Z) (r : Reader) : result (walk_state * Reader) :=
  if paramID =? ackDelayExponentParameterID then
    let st := {| receiver := receiver st;
                 parameterIDs := parameterIDs st;
                 readAckDelayExponent := true;
                 readMaxAckDelay := readMaxAckDelay st |} in
    '(p, r) <- readNumericTransportParameter (receiver st) r paramID paramLen ;;
    Ok (with_receiver p st, r)
  else if paramID =? maxAckDelayParameterID then
    let st := {| receiver := receiver st;
                 parameterIDs := parameterIDs st;
                 readAckDelayExponent := readAckDelayExponent st;
                 readMaxAckDelay := true |} in
    '(p, r) <- readNumericTransportParameter (receiver st) r paramID paramLen ;;
    Ok (with_receiver p st, r)
  else if mem paramID plainNumericParameterIDs then
    '(p, r) <- readNumericTransportParameter (receiver st) r paramID paramLen ;;
    Ok (with_receiver p st, r)
  else
    if len r <? paramLen then Err (ErrRemainingLength (len r) paramLen)
    else if paramID =? preferredAddressParameterID then
      if Perspective_eqb sentBy PerspectiveClient
      then Err ErrClientSentPreferredAddress
      else
        '(p, r) <- readPreferredAddress (receiver st) r paramLen ;;
        Ok (with_receiver p st, r)
    else if paramID =? disableActiveMigrationParameterID then
      if negb (paramLen =? 0)
      then Err (ErrWrongLengthDisableActiveMigration paramLen)
      else Ok (with_receiver (set_DisableActiveMigration true (receiver st)) st, r)
    else if paramID =? statelessResetTokenParameterID then
      if Perspective_eqb sentBy PerspectiveClient
      then Err ErrClientSentStatelessResetToken
      else if negb (paramLen =? 16)
      then Err (ErrWrongLengthStatelessResetToken paramLen)
      else
        let '(token, r) := Read r 16 in
        Ok (with_receiver (set_StatelessResetToken (Some token) (receiver st)) st, r)
    else if paramID =? originalConnectionIDParameterID then
      if Perspective_eqb sentBy PerspectiveClient
      then Err ErrClientSentOriginalConnectionID
      else
        let '(connID, r) :=
          match ReadConnectionID r paramLen with
          | Ok x => x
          | Err _ => ([], [])
          end in
        Ok (with_receiver (set_OriginalConnectionID connID (receiver st)) st, r)
    else Ok (st, Seek r paramLen).

(** One iteration of the loop of [unmarshal]. The receiver is only assigned
    at the end of an iteration, so an iteration that fails leaves it as it
    was when the iteration started. *)
Definition unmarshal_record (sentBy : Perspective) (st : walk_state) (r : Reader)
    : result (walk_state * Reader) :=
  '(paramID, r) <- ReadVarInt r ;;
  '(paramLen, r) <- ReadVarInt r ;;
  let st := {| receiver := receiver st;
               parameterIDs := parameterIDs st ++ [paramID];
               readAckDelayExponent := readAckDelayExponent st;
               readMaxAckDelay := readMaxAckDelay st |} in
  unmarshal_switch sentBy st paramID paramLen r.

(** The outcome of the loop of [unmarshal]: it ran to the end of the input,
    or an iteration returned an error. [WalkFuel] is an artefact of the
    recursion on [fuel] and is never the outcome of [unmarshal]. *)
Inductive walk_result : Type :=
| WalkDone (st : walk_state)
| WalkErr (st : walk_state) (e : error)
| WalkFuel.

(** [for r.Len() > 0 { ... }]. *)
Fixpoint unmarshal_loop (fuel : nat) (sentBy : Perspective) (st : walk_state)
    (r : Reader) : walk_result :=
  match r with
  | [] => WalkDone st
  | _ :: _ =>
    match fuel with
    | O => WalkFuel
    | S fuel' =>
      match unmarshal_record sentBy st r with
      | Err e => WalkErr st e
      | Ok (st', r') => unmarshal_loop fuel' sentBy st' r'
      end
    end
  end.

(** What [unmarshal] does after the loop. *)
Definition unmarshal_finish (st : walk_state) : TransportParameters * option error :=
  let p := receiver st in
  let p := if negb (readAckDelayExponent st)
           then set_AckDelayExponent DefaultAckDelayExponent p else p in
  let p := if negb (readMaxAckDelay st)
           then set_MaxAckDelay DefaultMaxAckDelay p else p in
  let p := if MaxPacketSize p =? 0 then set_MaxPacketSize MaxByteCount p else p in
  match firstRepeated (sortIDs (parameterIDs st)) with
  | Some id => (p, Some (ErrDuplicate id))
  | None => (p, None)
  end.

(** [unmarshal]: the receiver after the call and the error returned. Every
    iteration reads at least one byte, so [length data] iterations are
    enough; the result is [None] only if they were not (they always are,
    see [unmarshal_total]). *)
Definition unmarshal (p : TransportParameters) (data : list byte)
    (sentBy : Perspective) : option (TransportParameters * option error) :=
  match unmarshal_loop (length data) sentBy (initial_state p) data with
  | WalkDone st => Some (unmarshal_finish st)
  | WalkErr st e => Some (receiver st, Some e)
  | WalkFuel => None
  end.

(** [Unmarshal]: an error becomes a [qerr.TransportParameterError]. *)
Definition Unmarshal (p : TransportParameters) (data : list byte)
    (sentBy : Perspective) : option (TransportParameters * option error) :=
  match unmarshal p data sentBy with
  | Some (p', Some err) => Some (p', Some (TransportParameterError err))
  | Some (p', None) => Some (p', None)
  | None => None
  end.

(** ** The encoder *)

Definition marshalVarintParam (b : Buffer) (id : Z) (val : Z) : option Buffer :=
  b <~ WriteVarInt b (to_uint64 id) ;;
  l <~ VarIntLen val ;;
  b <~ WriteVarInt b (to_uint64 l) ;;
  WriteVarInt b val.

(** [Marshal]. The draws of the random generator are arguments: [grease] is
    [rand.Intn(100)] and [randomData] the [rand.Intn(16)] bytes that
    [rand.Read] fills in. *)
Definition Marshal (p : TransportParameters) (grease : Z) (randomData : list byte)
    : option (list byte) :=
  let b : Buffer := [] in
  b <~ WriteVarInt b (to_uint64 (27 + 31 * grease)) ;;
  let length_ := len randomData in
  b <~ WriteVarInt b (to_uint64 length_) ;;
  let b := b ++ randomData in
  b <~ marshalVarintParam b initialMaxStreamDataBidiLocalParameterID
         (to_uint64 (InitialMaxStreamDataBidiLocal p)) ;;
  b <~ marshalVarintParam b initialMaxStreamDataBidiRemoteParameterID
         (to_uint64 (InitialMaxStreamDataBidiRemote p)) ;;
  b <~ marshalVarintParam b initialMaxStreamDataUniParameterID
         (to_uint64 (InitialMaxStreamDataUni p)) ;;
  b <~ marshalVarintParam b initialMaxDataParameterID
         (to_uint64 (InitialMaxData p)) ;;
  b <~ marshalVarintParam b initialMaxStreamsBidiParameterID
         (to_uint64 (MaxBidiStreamNum p)) ;;
  b <~ marshalVarintParam b initialMaxStreamsUniParameterID
         (to_uint64 (MaxUniStreamNum p)) ;;
  b <~ marshalVarintParam b maxIdleTimeoutParameterID
         (to_uint64 (Z.quot (MaxIdleTimeout p) Millisecond)) ;;
  b <~ marshalVarintParam b maxPacketSizeParameterID
         (to_uint64 MaxReceivePacketSize) ;;
  b <~ (if negb (MaxAckDelay p =? DefaultMaxAckDelay)
        then marshalVarintParam b maxAckDelayParameterID
               (to_uint64 (Z.quot (MaxAckDelay p) Millisecond))
        else Some b) ;;
  b <~ (if negb (AckDelayExponent p =? DefaultAckDelayExponent)
        then marshalVarintParam b ackDelayExponentParameterID
               (to_uint64 (AckDelayExponent p))
        else Some b) ;;
  b <~ (if DisableActiveMigration p
        then b <~ WriteVarInt b (to_uint64 disableActiveMigrationParameterID) ;;
             WriteVarInt b 0
        else Some b) ;;
  b <~ match StatelessResetToken p with
       | Some token =>
         b <~ WriteVarInt b (to_uint64 statelessResetTokenParameterID) ;;
         b <~ WriteVarInt b 16 ;;
         Some (b ++ token)
       | None => Some b
       end ;;
  b <~ match PreferredAddress_ p with
       | Some pa =>
         b <~ WriteVarInt b (to_uint64 preferredAddressParameterID) ;;
         b <~ WriteVarInt b
                (to_uint64 (4 + 2 + 16 + 2 + 1
                            + to_uint64 (len (ConnectionID_ pa)) + 16)) ;;
         let ipv4 := IPv4 pa in
         if len ipv4 <? 4 then None
         else
           let b := b ++ skipn (length ipv4 - 4) ipv4 in
           let b := WriteUint16 b (IPv4Port pa) in
           let b := b ++ IPv6 pa in
           let b := WriteUint16 b (IPv6Port pa) in
           let b := b ++ [uint8 (len (ConnectionID_ pa))] in
           let b := b ++ ConnectionID_ pa in
           Some (b ++ StatelessResetToken_ pa)
       | None => Some b
       end ;;
  b <~ (if len (OriginalConnectionID p) >? 0
        then b <~ WriteVarInt b (to_uint64 originalConnectionIDParameterID) ;;
             b <~ WriteVarInt b (to_uint64 (len (OriginalConnectionID p))) ;;
             Some (b ++ OriginalConnectionID p)
        else Some b) ;;
  b <~ marshalVarintParam b activeConnectionIDLimitParameterID
         (ActiveConnectionIDLimit p) ;;
  Some b.

(** ** The session-ticket subset codec *)

Definition MarshalForSessionTicket (p : TransportParameters) (b : Buffer)
    : option Buffer :=
  b <~ WriteVarInt b transportParameterMarshalingVersion ;;
  b <~ marshalVarintParam b initialMaxStreamDataBidiLocalParameterID
         (to_uint64 (InitialMaxStreamDataBidiLocal p)) ;;
  b <~ marshalVarintParam b initialMaxStreamDataBidiRemoteParameterID
         (to_uint64 (InitialMaxStreamDataBidiRemote p)) ;;
  b <~ marshalVarintParam b initialMaxStreamDataUniParameterID
         (to_uint64 (InitialMaxStreamDataUni p)) ;;
  b <~ marshalVarintParam b initialMaxDataParameterID
         (to_uint64 (InitialMaxData p)) ;;
  b <~ marshalVarintParam b initialMaxStreamsBidiParameterID
         (to_uint64 (MaxBidiStreamNum p)) ;;
  b <~ marshalVarintParam b initialMaxStreamsUniParameterID
         (to_uint64 (MaxUniStreamNum p)) ;;
  marshalVarintParam b activeConnectionIDLimitParameterID
    (ActiveConnectionIDLimit p).

Definition UnmarshalFromSessionTicket (p : TransportParameters) (data : list byte)
    : option (TransportParameters * option error) :=
  match ReadVarInt data with
  | Err err => Some (p, Some err)
  | Ok (version, r) =>
    if negb (version =? transportParameterMarshalingVersion)
    then Some (p, Some (ErrUnknownVersion version))
    else Unmarshal p r PerspectiveServer
  end.

(** ** The 0-RTT compatibility check *)

Definition ValidFor0RTT (p tp : TransportParameters) : bool :=
  (InitialMaxStreamDataBidiLocal p =? InitialMaxStreamDataBidiLocal tp) &&
  (InitialMaxStreamDataBidiRemote p =? InitialMaxStreamDataBidiRemote tp) &&
  (InitialMaxStreamDataUni p =? InitialMaxStreamDataUni tp) &&
  (InitialMaxData p =? InitialMaxData tp) &&
  (MaxBidiStreamNum p =? MaxBidiStreamNum tp) &&
  (MaxUniStreamNum p =? MaxUniStreamNum tp).

End Codec.

(** ** The record grammar of the wire format

    Section 6 of the design: a buffer is a sequence of records
    [identifier:varint, length:varint, payload:length bytes], until it is
    exhausted. [records data] is that sequence, [None] when the buffer is
    not such a sequence. It does not look into the payloads. *)
Fixpoint records_fuel (fuel : nat) (data : list byte) : option (list (Z * list byte)) :=
  match data with
  | [] => Some []
  | _ :: _ =>
    match fuel with
    | O => None
    | S fuel' =>
      match ReadVarInt data with
      | Err _ => None
      | Ok (id, r) =>
        match ReadVarInt r with
        | Err _ => None
        | Ok (l, r) =>
          if len r <? l then None
          else
            match records_fuel fuel' (skipn (Z.to_nat l) r) with
            | Some recs => Some ((id, firstn (Z.to_nat l) r) :: recs)
            | None => None
            end
        end
      end
    end
  end.

Definition records (data : list byte) : option (list (Z * list byte)) :=
  records_fuel (length data) data.


(** ** Vocabulary of the properties *)

(** The identifiers that only a server may send. *)
Definition serverOnlyParameterIDs : list Z :=
  [ preferredAddressParameterID;
    statelessResetTokenParameterID;
    originalConnectionIDParameterID ].

(** The three errors of the sender-role checks of [unmarshal]. *)
Definition role_violation (e : error) : bool :=
  match e with
  | ErrClientSentPreferredAddress
  | ErrClientSentStatelessResetToken
  | ErrClientSentOriginalConnectionID => true
  | _ => false
  end.

(** The error, if any, with which an iteration of the loop of [unmarshal]
    stops: a record that is truncated, of the wrong length, out of range or
    not allowed for the sender. *)
Definition record_error {proto : Constants} (sentBy : Perspective)
    (p : TransportParameters) (data : list byte) : option error :=
  match unmarshal_loop (length data) sentBy (initial_state p) data with
  | WalkErr _ e => Some e
  | _ => None
  end.


(** The identifiers of the numeric parameters. *)
Definition numericParameterIDs : list Z :=
  ackDelayExponentParameterID :: maxAckDelayParameterID :: plainNumericParameterIDs.

(** The values that have a variable-length encoding. *)
Definition varint_range (v : Z) : Prop := 0 <= v <= maxVarInt8.

(** The fields that [MarshalForSessionTicket] writes can be written. *)
Definition ticket_fields_encodable (p : TransportParameters) : Prop :=
  varint_range (InitialMaxStreamDataBidiLocal p) /\
  varint_range (InitialMaxStreamDataBidiRemote p) /\
  varint_range (InitialMaxStreamDataUni p) /\
  varint_range (InitialMaxData p) /\
  varint_range (MaxBidiStreamNum p) /\
  varint_range (MaxUniStreamNum p) /\
  varint_range (ActiveConnectionIDLimit p).

(** A duration cut to whole milliseconds: what is left of it when [Marshal]
    has written [d / time.Millisecond] and the decoder has multiplied that
    by [time.Millisecond] again. *)
Definition truncate_ms (d : Z) : Z := Z.quot d Millisecond * Millisecond.

(** A preferred address as the wire format can carry it: a four-byte and a
    sixteen-byte address, ports of sixteen bits, a connection ID whose
    length fits its length byte, and the sixteen bytes of the token array. *)
Definition PreferredAddress_wf (pa : PreferredAddress) : Prop :=
  len (IPv4 pa) = 4 /\ 0 <= IPv4Port pa < 2 ^ 16 /\
  len (IPv6 pa) = 16 /\ 0 <= IPv6Port pa < 2 ^ 16 /\
  len (ConnectionID_ pa) < 256 /\ len (StatelessResetToken_ pa) = 16.

(** A preferred address that [Marshal] can write: an IPv4 address of at
    least four bytes (the last four are written), a sixteen-byte IPv6
    address, ports of sixteen bits, a connection ID whose length fits its
    length byte, and the sixteen bytes of the token array. *)
Definition PreferredAddress_encodable (pa : PreferredAddress) : Prop :=
  4 <= len (IPv4 pa) /\ 0 <= IPv4Port pa < 2 ^ 16 /\
  len (IPv6 pa) = 16 /\ 0 <= IPv6Port pa < 2 ^ 16 /\
  len (ConnectionID_ pa) < 256 /\ len (StatelessResetToken_ pa) = 16.

(** The preferred address as [Marshal] writes it: of the IPv4 address only
    the last four bytes, [ipv4[len(ipv4)-4:]]. *)
Definition lastFourBytes (pa : PreferredAddress) : PreferredAddress :=
  {| IPv4 := skipn (length (IPv4 pa) - 4) (IPv4 pa);
     IPv4Port := IPv4Port pa;
     IPv6 := IPv6 pa;
     IPv6Port := IPv6Port pa;
     ConnectionID_ := ConnectionID_ pa;
     StatelessResetToken_ := StatelessResetToken_ pa |}.

(** The parameter sets of the data model, which [Marshal] encodes into a
    sequence of records that the decoder accepts: the seven integers have a
    variable-length encoding, the two durations are not negative, the max
    ack delay and the ack delay exponent are the defaults or within their
    bounds, and the optional values have the sizes of their types. Nothing
    is asked of [MaxPacketSize], which [Marshal] does not read; the idle
    timeout may be below the local minimum, and the durations need not be
    whole milliseconds. *)
Definition valid {proto : Constants} (p : TransportParameters) : Prop :=
  varint_range (InitialMaxStreamDataBidiLocal p) /\
  varint_range (InitialMaxStreamDataBidiRemote p) /\
  varint_range (InitialMaxStreamDataUni p) /\
  varint_range (InitialMaxData p) /\
  varint_range (MaxBidiStreamNum p) /\
  varint_range (MaxUniStreamNum p) /\
  varint_range (ActiveConnectionIDLimit p) /\
  0 <= MaxIdleTimeout p < 2 ^ 63 /\
  (0 <= MaxAckDelay p < 2 ^ 63 /\
   (MaxAckDelay p = DefaultMaxAckDelay \/ MaxAckDelay p < MaxMaxAckDelay)) /\
  (0 <= AckDelayExponent p < 256 /\
   (AckDelayExponent p = DefaultAckDelayExponent \/
    AckDelayExponent p <= MaxAckDelayExponent)) /\
  (forall token, StatelessResetToken p = Some token -> len token = 16) /\
  (forall pa, PreferredAddress_ p = Some pa -> PreferredAddress_encodable pa) /\
  len (OriginalConnectionID p) <= maxVarInt8.

(** No field that only a server may send is set. *)
Definition no_server_only_field (p : TransportParameters) : Prop :=
  StatelessResetToken p = None /\ PreferredAddress_ p = None /\
  OriginalConnectionID p = [].

(** The draws of the random generator in [Marshal]. *)
Definition grease_draw (grease : Z) (randomData : list byte) : Prop :=
  0 <= grease < 100 /\ 0 <= len randomData < 16.

(** The bytes of an integer and of a numeric record, for the values that
    have an encoding ([] for the others, which [WriteVarInt] refuses). *)
Definition varintBytes (i : Z) : list byte :=
  match encodeVarInt i with
  | Some e => e
  | None => []
  end.

Definition numericRecordBytes (id val : Z) : list byte :=
  match marshalVarintParam [] id val with
  | Some rec => rec
  | None => []
  end.

(** The payload of a preferred_address record as [Marshal] writes it. *)
Definition preferredAddressBytes (pa : PreferredAddress) : list byte :=
  IPv4 pa ++ [uint8 (Z.shiftr (IPv4Port pa) 8); uint8 (IPv4Port pa)] ++
  IPv6 pa ++ [uint8 (Z.shiftr (IPv6Port pa) 8); uint8 (IPv6Port pa)] ++
  [uint8 (len (ConnectionID_ pa))] ++ ConnectionID_ pa ++ StatelessResetToken_ pa.

(** A record that is well formed for its parameter, as the wire format has
    the records that a server may send: the payload of a numeric parameter
    is one variable-length integer, within the bounds of the parameter; a
    disable_active_migration record is empty; a stateless_reset_token is
    sixteen bytes long; the payload of a preferred_address is the encoding
    of an address; an original_connection_id and a record with an unknown
    identifier hold any bytes. The decoder is not part of this definition. *)
Definition record_wf {proto : Constants} (rec : Z * list byte) : Prop :=
  let '(id, payload) := rec in
  if mem id numericParameterIDs then
    exists val,
      ReadVarInt payload = Ok (val, []) /\
      (id = maxPacketSizeParameterID -> 1200 <= val) /\
      (id = ackDelayExponentParameterID -> val <= MaxAckDelayExponent) /\
      (id = maxAckDelayParameterID -> duration_of_ms val < MaxMaxAckDelay)
  else if id =? disableActiveMigrationParameterID then payload = []
  else if id =? statelessResetTokenParameterID then len payload = 16
  else if id =? preferredAddressParameterID then
    exists pa, PreferredAddress_wf pa /\ payload = preferredAddressBytes pa
  else True.

(** A well-formed sequence of records: every record is well formed for its
    parameter and no identifier occurs twice. *)
Definition well_formed {proto : Constants} (recs : list (Z * list byte)) : Prop :=
  NoDup (map fst recs) /\ Forall record_wf recs.

(** The records of [Marshal] in the order it writes them: what [Marshal]
    returns for a valid parameter set ([Marshal_marshalled]). *)
Definition marshalled {proto : Constants} (p : TransportParameters) (grease : Z)
    (randomData : list byte) : list byte :=
  (varintBytes (27 + 31 * grease) ++ varintBytes (len randomData) ++ randomData) ++
  numericRecordBytes initialMaxStreamDataBidiLocalParameterID
    (InitialMaxStreamDataBidiLocal p) ++
  numericRecordBytes initialMaxStreamDataBidiRemoteParameterID
    (InitialMaxStreamDataBidiRemote p) ++
  numericRecordBytes initialMaxStreamDataUniParameterID (InitialMaxStreamDataUni p) ++
  numericRecordBytes initialMaxDataParameterID (InitialMaxData p) ++
  numericRecordBytes initialMaxStreamsBidiParameterID (MaxBidiStreamNum p) ++
  numericRecordBytes initialMaxStreamsUniParameterID (MaxUniStreamNum p) ++
  numericRecordBytes maxIdleTimeoutParameterID
    (Z.quot (MaxIdleTimeout p) Millisecond) ++
  numericRecordBytes maxPacketSizeParameterID MaxReceivePacketSize ++
  (if negb (MaxAckDelay p =? DefaultMaxAckDelay)
   then numericRecordBytes maxAckDelayParameterID (Z.quot (MaxAckDelay p) Millisecond)
   else []) ++
  (if negb (AckDelayExponent p =? DefaultAckDelayExponent)
   then numericRecordBytes ackDelayExponentParameterID (AckDelayExponent p)
   else []) ++
  (if DisableActiveMigration p
   then varintBytes disableActiveMigrationParameterID ++ varintBytes 0
   else []) ++
  match StatelessResetToken p with
  | Some token =>
      varintBytes statelessResetTokenParameterID ++ varintBytes 16 ++ token
  | None => []
  end ++
  match PreferredAddress_ p with
  | Some pa =>
      varintBytes preferredAddressParameterID ++
      varintBytes (len (preferredAddressBytes (lastFourBytes pa))) ++
      preferredAddressBytes (lastFourBytes pa)
  | None => []
  end ++
  (if len (OriginalConnectionID p) >? 0
   then varintBytes originalConnectionIDParameterID ++
        varintBytes (len (OriginalConnectionID p)) ++ OriginalConnectionID p
   else []) ++
  numericRecordBytes activeConnectionIDLimitParameterID (ActiveConnectionIDLimit p) ++
  [].

(** The state [st] with the identifiers [ids] recorded before its own. *)
Definition after_ids (ids : list Z) (st : walk_state) : walk_state :=
  {| receiver := receiver st;
     parameterIDs := ids ++ parameterIDs st;
     readAckDelayExponent := readAckDelayExponent st;
     readMaxAckDelay := readMaxAckDelay st |}.

(** The bytes of a record: its identifier, the length of its payload, and
    the payload. *)
Definition recordBytes (rec : Z * list byte) : list byte :=
  varintBytes (fst rec) ++ varintBytes (len (snd rec)) ++ snd rec.

(** ** Concrete inputs *)

(** A parameter set of a server, with the constants of upstream. *)
Definition example_parameters : TransportParameters := {|
  InitialMaxStreamDataBidiLocal := 524288;
  InitialMaxStreamDataBidiRemote := 524288;
  InitialMaxStreamDataUni := 524288;
  InitialMaxData := 786432;
  MaxAckDelay := 26 * Millisecond;
  AckDelayExponent := 3;
  DisableActiveMigration := true;
  MaxPacketSize := 1200;
  MaxUniStreamNum := 100;
  MaxBidiStreamNum := 100;
  MaxIdleTimeout := 30 * 1000 * Millisecond;
  PreferredAddress_ :=
    Some {| IPv4 := [x7f; x00; x00; x01];
            IPv4Port := 4433;
            IPv6 := repeat x00 15 ++ [x01];
            IPv6Port := 4434;
            ConnectionID_ := [xde; xad; xbe; xef];
            StatelessResetToken_ := repeat x10 16 |};
  StatelessResetToken := Some (repeat x2a 16);
  OriginalConnectionID := [xca; xfe];
  ActiveConnectionIDLimit := 4
|}.

(** An initial_max_data record with the value 7, followed by the identifier
    of a record and nothing else. *)
Definition truncated_buffer : list byte := [x04; x01; x07; x03].

(** Two max_packet_size records, both with the value 1199. *)
Definition small_packet_size_twice : list byte :=
  [x03; x02; x44; xaf; x03; x02; x44; xaf].

(** Two initial_max_data records, with the values 7 and 8. *)
Definition initial_max_data_twice : list byte :=
  [x04; x01; x07; x04; x01; x08].

(** A stateless_reset_token record and an initial_max_data record. *)
Definition token_buffer : list byte :=
  [x02; x10] ++ repeat x2a 16 ++ [x04; x01; x07].

(** The three records that only a server may send, a stateless_reset_token,
    a preferred_address (127.0.0.1:4433, [::1]:4434, a connection ID of four
    bytes) and an original_connection_id, and an initial_max_data record. *)
Definition server_parameters_buffer : list byte :=
  [x02; x10] ++ repeat x2a 16 ++
  [x0d; x2d] ++
    ([x7f; x00; x00; x01; x11; x51] ++ repeat x00 15 ++ [x01; x11; x52] ++
     [x04; xde; xad; xbe; xef] ++ repeat x10 16) ++
  [x00; x02; xca; xfe] ++
  [x04; x01; x07].

(** A parameter set with an idle timeout of one second, which is below the
    local minimum of upstream, no maximum packet size, and a preferred
    address whose IPv4 address has the sixteen-byte form. *)
Definition short_idle_parameters : TransportParameters := {|
  InitialMaxStreamDataBidiLocal := 524288;
  InitialMaxStreamDataBidiRemote := 524288;
  InitialMaxStreamDataUni := 524288;
  InitialMaxData := 786432;
  MaxAckDelay := 25 * Millisecond;
  AckDelayExponent := 3;
  DisableActiveMigration := false;
  MaxPacketSize := 0;
  MaxUniStreamNum := 100;
  MaxBidiStreamNum := 100;
  MaxIdleTimeout := 1000 * Millisecond;
  PreferredAddress_ :=
    Some {| IPv4 := repeat x00 10 ++ [xff; xff; x7f; x00; x00; x01];
            IPv4Port := 4433;
            IPv6 := repeat x00 15 ++ [x01];
            IPv6Port := 4434;
            ConnectionID_ := [xde; xad; xbe; xef];
            StatelessResetToken_ := repeat x10 16 |};
  StatelessResetToken := None;
  OriginalConnectionID := [];
  ActiveConnectionIDLimit := 4
|}.


Definition long_max_ack_delay_record : list byte :=
  [x0b; x08; xc0; x00; x08; x63; x7b; xd0; x5a; xf7].

(** * Properties *)

(** ** Bytes *)

Lemma byte_val_range (b : byte) : 0 <= byte_val b < 256.
Proof.
  unfold byte_val. pose proof (Byte.to_N_bounded b). lia.
Qed.

Lemma byte_val_uint8 (z : Z) : byte_val (uint8 z) = z mod 256.
Proof.
  unfold byte_val, uint8.
  assert (Hr : 0 <= z mod 256 < 256) by (apply Z.mod_pos_bound; lia).
  destruct (Byte.of_N (Z.to_N (z mod 256))) as [b|] eqn:E.
  - apply Byte.to_of_N in E. rewrite E. lia.
  - apply Byte.of_N_None_iff in E. lia.
Qed.

Lemma uint8_byte_val (b : byte) : uint8 (byte_val b) = b.
Proof.
  unfold uint8, byte_val. pose proof (Byte.to_N_bounded b).
  rewrite Z.mod_small by lia. rewrite N2Z.id, Byte.of_to_N. reflexivity.
Qed.

Lemma byte_val_small (z : Z) : 0 <= z < 256 -> byte_val (uint8 z) = z.
Proof. intros. rewrite byte_val_uint8. apply Z.mod_small. assumption. Qed.

Lemma prefix_bits (b : byte) :
  Z.shiftr (Z.land (byte_val b) 192) 6 = byte_val b / 64.
Proof. destruct b; reflexivity. Qed.

Lemma value_bits (b : byte) :
  Z.land (byte_val b) (255 - 192) = byte_val b mod 64.
Proof. destruct b; reflexivity. Qed.

Lemma lor_prefix (x k : Z) :
  0 <= x < 64 -> 0 <= k < 4 -> Z.lor x (64 * k) = x + 64 * k.
Proof.
  intros Hx Hk.
  rewrite <- (byte_val_small x) by lia.
  assert (Hb : byte_val (uint8 x) < 64) by (rewrite byte_val_small; lia).
  revert Hb. generalize (uint8 x) as b. intros b Hb.
  assert (Hk' : k = 0 \/ k = 1 \/ k = 2 \/ k = 3) by lia.
  destruct Hk' as [-> | [-> | [-> | ->]]];
    destruct b; vm_compute in Hb; try discriminate Hb; reflexivity.
Qed.

(** ** Variable-length integers *)

Lemma shiftr_byte (i n : Z) :
  0 <= n -> byte_val (uint8 (Z.shiftr i n)) = (i / 2 ^ n) mod 256.
Proof. intros. rewrite byte_val_uint8, Z.shiftr_div_pow2 by lia. reflexivity. Qed.

Lemma first_byte (i n k : Z) :
  0 <= n -> 0 <= i < 64 * 2 ^ n -> 0 <= k < 4 ->
  byte_val (uint8 (Z.lor (Z.shiftr i n) (64 * k))) = i / 2 ^ n + 64 * k.
Proof.
  intros Hn Hi Hk.
  assert (0 <= i / 2 ^ n < 64).
  { split. apply Z.div_pos; lia. apply Z.div_lt_upper_bound; lia. }
  rewrite Z.shiftr_div_pow2 by lia.
  rewrite lor_prefix by lia. apply byte_val_small. lia.
Qed.

Lemma Some_inj {A : Type} (x y : A) : Some x = Some y -> x = y.
Proof. intros H. injection H. trivial. Qed.

Ltac pow2 :=
  change (2 ^ 8) with 256 in *;
  change (2 ^ 16) with 65536 in *;
  change (2 ^ 24) with 16777216 in *;
  change (2 ^ 32) with 4294967296 in *;
  change (2 ^ 40) with 1099511627776 in *;
  change (2 ^ 48) with 281474976710656 in *;
  change (2 ^ 56) with 72057594037927936 in *;
  change (2 ^ 0) with 1 in *.

Ltac ev_len :=
  repeat match goal with
  | |- context [Z.shiftl 1 ?k =? ?n] =>
      let b := eval vm_compute in (Z.shiftl 1 k =? n) in
      change (Z.shiftl 1 k =? n) with b
  end; cbv iota.

Lemma ReadVarInt_encodeVarInt (i : Z) (e rest : list byte) :
  0 <= i -> encodeVarInt i = Some e -> ReadVarInt (e ++ rest) = Ok (i, rest).
Proof.
  intros Hi. unfold encodeVarInt, maxVarInt1, maxVarInt2, maxVarInt4, maxVarInt8.
  destruct (Z.leb_spec i 63) as [E1|E1]; [|destruct (Z.leb_spec i 16383) as [E2|E2];
    [|destruct (Z.leb_spec i 1073741823) as [E4|E4];
      [|destruct (Z.leb_spec i 4611686018427387903) as [E8|E8]]]];
    intros H; [apply Some_inj in H; subst e ..|discriminate H];
    unfold ReadVarInt; cbn [app ReadByte bind];
    rewrite prefix_bits, value_bits.
  - rewrite byte_val_small by lia.
    replace (i / 64) with 0 by (symmetry; apply Z.div_small; lia).
    cbn. rewrite Z.mod_small by lia. reflexivity.
  - pose proof (first_byte i 8 1) as F. change (64 * 1) with 64 in F.
    rewrite !F by lia. clear F. pow2.
    replace ((i / 256 + 64) / 64) with 1 by (Z.div_mod_to_equations; lia).
    ev_len.
    rewrite byte_val_uint8, Z.shiftl_mul_pow2 by lia.
    f_equal; f_equal; pow2; Z.div_mod_to_equations; lia.
  - pose proof (first_byte i 24 2) as F. change (64 * 2) with 128 in F.
    rewrite !F by lia. clear F. pow2.
    replace ((i / 16777216 + 128) / 64) with 2 by (Z.div_mod_to_equations; lia).
    ev_len.
    rewrite !shiftr_byte, byte_val_uint8, !Z.shiftl_mul_pow2 by lia.
    f_equal; f_equal; pow2; Z.div_mod_to_equations; lia.
  - pose proof (first_byte i 56 3) as F. change (64 * 3) with 192 in F.
    rewrite !F by lia. clear F. pow2.
    replace ((i / 72057594037927936 + 192) / 64) with 3 by (Z.div_mod_to_equations; lia).
    ev_len.
    rewrite !shiftr_byte, byte_val_uint8, !Z.shiftl_mul_pow2 by lia.
    f_equal; f_equal; pow2; Z.div_mod_to_equations; lia.
Qed.

Lemma encodeVarInt_VarIntLen (i : Z) (e : list byte) :
  encodeVarInt i = Some e -> VarIntLen i = Some (len e).
Proof.
  unfold encodeVarInt, VarIntLen.
  destruct (i <=? maxVarInt1); [|destruct (i <=? maxVarInt2);
    [|destruct (i <=? maxVarInt4); [|destruct (i <=? maxVarInt8)]]];
    intros H; [apply Some_inj in H; subst e; reflexivity ..|discriminate H].
Qed.

Lemma encodeVarInt_defined (i : Z) :
  i <= maxVarInt8 -> exists e, encodeVarInt i = Some e.
Proof.
  intros Hi. unfold encodeVarInt.
  destruct (i <=? maxVarInt1); [eauto|].
  destruct (i <=? maxVarInt2); [eauto|].
  destruct (i <=? maxVarInt4); [eauto|].
  destruct (Z.leb_spec i maxVarInt8); [eauto|lia].
Qed.

Lemma encodeVarInt_len (i : Z) (e : list byte) :
  encodeVarInt i = Some e -> 1 <= len e <= 8.
Proof.
  intros H. apply encodeVarInt_VarIntLen in H. unfold VarIntLen in H.
  destruct (i <=? maxVarInt1); [|destruct (i <=? maxVarInt2);
    [|destruct (i <=? maxVarInt4); [|destruct (i <=? maxVarInt8)]]];
    try discriminate H; apply Some_inj in H; lia.
Qed.

Lemma Ok_inj {A : Type} (x y : A) : Ok x = Ok y -> x = y.
Proof. intros H. injection H. trivial. Qed.

Lemma pair_inj {A B : Type} (a c : A) (b d : B) : (a, b) = (c, d) -> a = c /\ b = d.
Proof. intros H. injection H. auto. Qed.

Ltac ok_inj H :=
  apply Ok_inj in H; apply pair_inj in H;
  let H1 := fresh "Hfst" in let H2 := fresh "Hsnd" in
  destruct H as [H1 H2].

(** [ReadVarInt] reads between one and eight bytes from the front of the
    reader, returns a value of at most 62 bits, and does not look at what
    follows the bytes it reads. *)
Lemma ReadVarInt_prefix (r r' : Reader) (v : Z) :
  ReadVarInt r = Ok (v, r') ->
  exists pre, r = pre ++ r' /\ 1 <= len pre <= 8 /\ 0 <= v <= maxVarInt8 /\
              forall x, ReadVarInt (pre ++ x) = Ok (v, x).
Proof.
  unfold ReadVarInt. destruct r as [|b r1]; cbn [ReadByte bind]; [discriminate|].
  rewrite prefix_bits, value_bits.
  pose proof (byte_val_range b) as Hb.
  assert (Hm : 0 <= byte_val b mod 64 < 64) by (apply Z.mod_pos_bound; lia).
  assert (Hk : byte_val b / 64 = 0 \/ byte_val b / 64 = 1 \/
               byte_val b / 64 = 2 \/ byte_val b / 64 = 3)
    by (Z.div_mod_to_equations; lia).
  unfold maxVarInt8.
  destruct Hk as [Hk | [Hk | [Hk | Hk]]]; rewrite Hk; ev_len.
  - intros H. ok_inj H. subst. exists [b]. cbn [app ReadByte bind].
    rewrite prefix_bits, value_bits, Hk. ev_len.
    repeat split; try reflexivity; cbn; lia.
  - destruct r1 as [|b2 r2]; cbn [ReadByte bind]; [discriminate|].
    intros H. ok_inj H. subst. exists [b; b2]. cbn [app ReadByte bind].
    rewrite prefix_bits, value_bits, Hk. ev_len.
    pose proof (byte_val_range b2).
    rewrite Z.shiftl_mul_pow2 by lia. pow2.
    repeat split; try reflexivity; cbn; lia.
  - destruct r1 as [|b2 [|b3 [|b4 r4]]]; cbn [ReadByte bind]; try discriminate.
    intros H. ok_inj H. subst. exists [b; b2; b3; b4]. cbn [app ReadByte bind].
    rewrite prefix_bits, value_bits, Hk. ev_len.
    pose proof (byte_val_range b2). pose proof (byte_val_range b3).
    pose proof (byte_val_range b4).
    rewrite !Z.shiftl_mul_pow2 by lia. pow2.
    repeat split; try reflexivity; cbn; lia.
  - destruct r1 as [|b2 [|b3 [|b4 [|b5 [|b6 [|b7 [|b8 r8]]]]]]];
      cbn [ReadByte bind]; try discriminate.
    intros H. ok_inj H. subst. exists [b; b2; b3; b4; b5; b6; b7; b8].
    cbn [app ReadByte bind].
    rewrite prefix_bits, value_bits, Hk. ev_len.
    pose proof (byte_val_range b2). pose proof (byte_val_range b3).
    pose proof (byte_val_range b4). pose proof (byte_val_range b5).
    pose proof (byte_val_range b6). pose proof (byte_val_range b7).
    pose proof (byte_val_range b8).
    rewrite !Z.shiftl_mul_pow2 by lia. pow2.
    repeat split; try reflexivity; cbn; lia.
Qed.

Lemma ReadVarInt_suffix (r r' : Reader) (v : Z) :
  ReadVarInt r = Ok (v, r') ->
  exists pre, r = pre ++ r' /\ 1 <= len pre <= 8 /\ 0 <= v <= maxVarInt8.
Proof.
  intros H. apply ReadVarInt_prefix in H. destruct H as (pre & A & B & C & _).
  exists pre. auto.
Qed.

(** A payload that was read as one integer, up to its last byte, is the
    encoding of that integer. *)
Lemma ReadVarInt_exact (payload rest : list byte) (v : Z) :
  ReadVarInt (payload ++ rest) = Ok (v, rest) -> ReadVarInt payload = Ok (v, []).
Proof.
  intros H. apply ReadVarInt_prefix in H. destruct H as (pre & A & _ & _ & B).
  apply app_inv_tail in A. subst pre. specialize (B []).
  rewrite app_nil_r in B. exact B.
Qed.

Lemma ReadVarInt_app (payload rest : list byte) (v : Z) :
  ReadVarInt payload = Ok (v, []) -> ReadVarInt (payload ++ rest) = Ok (v, rest).
Proof.
  intros H. apply ReadVarInt_prefix in H. destruct H as (pre & A & _ & _ & B).
  rewrite app_nil_r in A. subst pre. apply B.
Qed.

Ltac unfold_ids :=
  unfold numericParameterIDs, plainNumericParameterIDs, serverOnlyParameterIDs,
    originalConnectionIDParameterID, maxIdleTimeoutParameterID,
    statelessResetTokenParameterID, maxPacketSizeParameterID,
    initialMaxDataParameterID, initialMaxStreamDataBidiLocalParameterID,
    initialMaxStreamDataBidiRemoteParameterID, initialMaxStreamDataUniParameterID,
    initialMaxStreamsBidiParameterID, initialMaxStreamsUniParameterID,
    ackDelayExponentParameterID, maxAckDelayParameterID,
    disableActiveMigrationParameterID, preferredAddressParameterID,
    activeConnectionIDLimitParameterID in *.

(** ** Reading from the front of a reader *)

Lemma len_app (a b : list byte) : len (a ++ b) = len a + len b.
Proof. unfold len. rewrite length_app. lia. Qed.

Lemma len_nonneg (a : list byte) : 0 <= len a.
Proof. unfold len. lia. Qed.

Lemma skipn_prefix (pre r' : list byte) (l : Z) :
  len pre = l -> skipn (Z.to_nat l) (pre ++ r') = r'.
Proof.
  unfold len. intros <-. rewrite Nat2Z.id.
  rewrite skipn_app, skipn_all, Nat.sub_diag. reflexivity.
Qed.

Lemma firstn_prefix (pre r' : list byte) (l : Z) :
  len pre = l -> firstn (Z.to_nat l) (pre ++ r') = pre.
Proof.
  unfold len. intros <-. rewrite Nat2Z.id.
  rewrite firstn_app, firstn_all, Nat.sub_diag. cbn. apply app_nil_r.
Qed.

Lemma ReadByte_suffix (r r' : Reader) (b : byte) :
  ReadByte r = Ok (b, r') -> r = [b] ++ r'.
Proof. destruct r; cbn; intros H; [discriminate|]. ok_inj H. subst. reflexivity. Qed.

Lemma ReadFull_suffix (r r' : Reader) (n : nat) (v : list byte) :
  ReadFull r n = Ok (v, r') -> r = v ++ r' /\ length v = n.
Proof.
  unfold ReadFull. destruct (Nat.eqb_spec n 0).
  - intros Hok. ok_inj Hok. subst. auto.
  - destruct (Nat.eqb_spec (length r) 0); [discriminate|].
    destruct (Nat.ltb_spec (length r) n); [discriminate|].
    intros Hok. ok_inj Hok. subst. split.
    + symmetry. apply firstn_skipn.
    + apply firstn_length_le. assumption.
Qed.

Lemma ReadFull_app (pre rest : list byte) :
  ReadFull (pre ++ rest) (length pre) = Ok (pre, rest).
Proof.
  unfold ReadFull. destruct (Nat.eqb_spec (length pre) 0) as [E|E].
  - destruct pre; [reflexivity|discriminate].
  - rewrite length_app.
    destruct (Nat.eqb_spec (length pre + length rest) 0); [lia|].
    destruct (Nat.ltb_spec (length pre + length rest) (length pre)); [lia|].
    rewrite firstn_app, firstn_all, Nat.sub_diag, skipn_app, skipn_all, Nat.sub_diag.
    cbn. rewrite app_nil_r. reflexivity.
Qed.

Lemma ReadUint16_suffix (r r' : Reader) (v : Z) :
  ReadUint16 r = Ok (v, r') -> exists pre, r = pre ++ r' /\ len pre = 2.
Proof.
  unfold ReadUint16. destruct r as [|b2 [|b1 r2]]; cbn; try discriminate.
  intros Hok. ok_inj Hok. subst. exists [b2; b1]. auto.
Qed.

Lemma ReadConnectionID_suffix (r r' : Reader) (n : Z) (c : ConnectionID) :
  0 <= n -> ReadConnectionID r n = Ok (c, r') -> r = c ++ r' /\ len c = n.
Proof.
  intros Hn. unfold ReadConnectionID. destruct (Z.eqb_spec n 0).
  - intros Hok. ok_inj Hok. subst. auto.
  - destruct (ReadFull r (Z.to_nat n)) as [[v r1]|e] eqn:E.
    + intros Hok. ok_inj Hok. subst. apply ReadFull_suffix in E.
      unfold len. destruct E as [-> ->]. split; [reflexivity|lia].
    + destruct e; discriminate.
Qed.

Lemma ReadConnectionID_app (c rest : list byte) :
  ReadConnectionID (c ++ rest) (len c) = Ok (c, rest).
Proof.
  unfold ReadConnectionID, len. destruct (Z.eqb_spec (Z.of_nat (length c)) 0).
  - destruct c; [reflexivity|discriminate].
  - rewrite Nat2Z.id, ReadFull_app. reflexivity.
Qed.

(** ** What one record does *)

Section Decoder.

Context {proto : Constants}.

Lemma readNumeric_switch_frame p paramID val p' :
  readNumeric_switch p paramID val = Ok p' ->
  forall f, field_paramID f <> paramID -> same_field f p' p.
Proof.
  unfold readNumeric_switch. intros H.
  repeat match type of H with
  | (if ?c =? ?d then _ else _) = _ => destruct (Z.eqb_spec c d)
  | (if ?c then _ else _) = _ => destruct c
  end; try discriminate H; apply Ok_inj in H; subst p';
    intros f Hf; destruct f; try reflexivity; exfalso; apply Hf; subst paramID; reflexivity.
Qed.

Lemma readNumericTransportParameter_spec p r paramID expectedLen p' r' :
  readNumericTransportParameter p r paramID expectedLen = Ok (p', r') ->
  exists val pre,
    r = pre ++ r' /\ len pre = expectedLen /\ 1 <= expectedLen /\
    ReadVarInt pre = Ok (val, []) /\ 0 <= val <= maxVarInt8 /\
    readNumeric_switch p paramID val = Ok p'.
Proof.
  unfold readNumericTransportParameter.
  destruct (ReadVarInt r) as [[val r1]|e] eqn:E; [|discriminate].
  destruct (Z.eqb_spec (len r - len r1) expectedLen) as [El|El];
    cbn [negb]; [|discriminate].
  destruct (ReadVarInt_suffix _ _ _ E) as (pre & Hr & Hl & Hv).
  assert (Hpre : len pre = expectedLen) by (subst r; rewrite len_app in El; lia).
  destruct (readNumeric_switch p paramID val) as [p1|e] eqn:Es; [|discriminate].
  intros H. ok_inj H. subst p1 r1. exists val, pre.
  repeat split; try assumption; try lia.
  subst r. eapply ReadVarInt_exact. exact E.
Qed.

(** A numeric record whose payload is one integer is decoded by the switch
    on that integer. *)
Lemma readNumericTransportParameter_payload p payload rest paramID val :
  ReadVarInt payload = Ok (val, []) ->
  readNumericTransportParameter p (payload ++ rest) paramID (len payload) =
    match readNumeric_switch p paramID val with
    | Err e => Err e
    | Ok p' => Ok (p', rest)
    end.
Proof.
  intros H. unfold readNumericTransportParameter.
  rewrite (ReadVarInt_app _ rest _ H), len_app.
  replace (len payload + len rest - len rest =? len payload) with true
    by (symmetry; apply Z.eqb_eq; lia).
  reflexivity.
Qed.

Lemma readPreferredAddress_spec p r expectedLen p' r' :
  readPreferredAddress p r expectedLen = Ok (p', r') ->
  exists pre pa,
    r = pre ++ r' /\ len pre = expectedLen /\
    p' = set_PreferredAddress (Some pa) p.
Proof.
  unfold readPreferredAddress.
  destruct (ReadFull r 4) as [[ipv4 r1]|e] eqn:E1; cbn [bind]; [|discriminate].
  destruct (ReadUint16 r1) as [[port4 r2]|e] eqn:E2; cbn [bind]; [|discriminate].
  destruct (ReadFull r2 16) as [[ipv6 r3]|e] eqn:E3; cbn [bind]; [|discriminate].
  destruct (ReadUint16 r3) as [[port6 r4]|e] eqn:E4; cbn [bind]; [|discriminate].
  destruct (ReadByte r4) as [[connIDLen r5]|e] eqn:E5; cbn [bind]; [|discriminate].
  destruct (ReadConnectionID r5 (byte_val connIDLen)) as [[connID r6]|e] eqn:E6;
    cbn [bind]; [|discriminate].
  destruct (ReadFull r6 16) as [[token r7]|e] eqn:E7; cbn [bind]; [|discriminate].
  destruct (Z.eqb_spec (len r - len r7) expectedLen) as [El|El];
    cbn [negb]; [|discriminate].
  intros Hok. ok_inj Hok. subst r7 p'.
  apply ReadFull_suffix in E1, E3, E7.
  apply ReadUint16_suffix in E2, E4. apply ReadByte_suffix in E5.
  apply ReadConnectionID_suffix in E6; [|apply byte_val_range].
  destruct E1 as [E1 _], E3 as [E3 _], E7 as [E7 _], E6 as [E6 _].
  destruct E2 as (pre2 & E2 & _), E4 as (pre4 & E4 & _).
  exists (ipv4 ++ pre2 ++ ipv6 ++ pre4 ++ [connIDLen] ++ connID ++ token).
  eexists. split; [|split; [|reflexivity]].
  - subst. rewrite <- !app_assoc. reflexivity.
  - subst r r1 r2 r3 r4 r5 r6. rewrite !len_app in *. lia.
Qed.

Lemma ReadConnectionID_enough (r : Reader) (n : Z) :
  0 <= n <= len r ->
  ReadConnectionID r n = Ok (firstn (Z.to_nat n) r, skipn (Z.to_nat n) r).
Proof.
  intros Hn.
  assert (E : len (firstn (Z.to_nat n) r) = n)
    by (unfold len in *; rewrite firstn_length_le; lia).
  pose proof (ReadConnectionID_app (firstn (Z.to_nat n) r) (skipn (Z.to_nat n) r)) as H.
  rewrite firstn_skipn, E in H. exact H.
Qed.

Lemma unmarshal_switch_spec sentBy st paramID paramLen r st' r' :
  0 <= paramLen ->
  unmarshal_switch sentBy st paramID paramLen r = Ok (st', r') ->
  paramLen <= len r /\ r' = skipn (Z.to_nat paramLen) r /\
  parameterIDs st' = parameterIDs st /\
  readAckDelayExponent st' =
    (readAckDelayExponent st || (paramID =? ackDelayExponentParameterID)) /\
  readMaxAckDelay st' =
    (readMaxAckDelay st || (paramID =? maxAckDelayParameterID)) /\
  forall f, field_paramID f <> paramID ->
            same_field f (receiver st') (receiver st).
Proof.
  intros Hl. unfold unmarshal_switch.
  assert (Hnum : forall st0 : walk_state,
    receiver st0 = receiver st -> parameterIDs st0 = parameterIDs st ->
    readAckDelayExponent st0 =
      (readAckDelayExponent st || (paramID =? ackDelayExponentParameterID)) ->
    readMaxAckDelay st0 =
      (readMaxAckDelay st || (paramID =? maxAckDelayParameterID)) ->
    ('(p, r0) <- readNumericTransportParameter (receiver st0) r paramID paramLen ;;
     Ok (with_receiver p st0, r0)) = Ok (st', r') ->
    paramLen <= len r /\ r' = skipn (Z.to_nat paramLen) r /\
    parameterIDs st' = parameterIDs st /\
    readAckDelayExponent st' =
      (readAckDelayExponent st || (paramID =? ackDelayExponentParameterID)) /\
    readMaxAckDelay st' =
      (readMaxAckDelay st || (paramID =? maxAckDelayParameterID)) /\
    forall f, field_paramID f <> paramID ->
              same_field f (receiver st') (receiver st)).
  { intros st0 H0 H1 H2 H3.
    destruct (readNumericTransportParameter (receiver st0) r paramID paramLen)
      as [[p1 r1]|e] eqn:E; cbn [bind]; [|discriminate].
    intros Hok. ok_inj Hok. subst st' r1.
    apply readNumericTransportParameter_spec in E.
    destruct E as (val & pre & Hr & Hpre & _ & _ & _ & Hsw).
    pose proof (readNumeric_switch_frame _ _ _ _ Hsw) as Hframe.
    subst r. rewrite len_app, skipn_prefix by assumption.
    pose proof (len_nonneg r'). cbn.
    repeat split; try assumption; try lia.
    rewrite <- H0. assumption. }
  destruct (Z.eqb_spec paramID ackDelayExponentParameterID) as [E10|E10].
  { apply Hnum; cbn; rewrite ?orb_true_r, ?orb_false_r; try reflexivity.
    subst paramID. cbn. rewrite orb_false_r. reflexivity. }
  destruct (Z.eqb_spec paramID maxAckDelayParameterID) as [E11|E11].
  { apply Hnum; cbn; rewrite ?orb_true_r, ?orb_false_r; reflexivity. }
  destruct (mem paramID plainNumericParameterIDs).
  { apply Hnum; cbn; rewrite ?orb_false_r; reflexivity. }
  clear Hnum.
  destruct (Z.ltb_spec (len r) paramLen) as [Hlt|Hge]; [discriminate|].
  rewrite !orb_false_r.
  destruct (Z.eqb_spec paramID preferredAddressParameterID) as [E13|E13].
  { destruct (Perspective_eqb sentBy PerspectiveClient); [discriminate|].
    destruct (readPreferredAddress (receiver st) r paramLen) as [[p1 r1]|e] eqn:E;
      cbn [bind]; [|discriminate].
    intros Hok. ok_inj Hok. subst st' r1.
    apply readPreferredAddress_spec in E. destruct E as (pre & pa & Hr & Hpre & ->).
    subst r. rewrite skipn_prefix by assumption. cbn.
    repeat split; try assumption.
    intros f Hf; destruct f; try reflexivity; exfalso; apply Hf; subst paramID; reflexivity. }
  destruct (Z.eqb_spec paramID disableActiveMigrationParameterID) as [E12|E12].
  { destruct (Z.eqb_spec paramLen 0) as [E0|E0]; cbn [negb]; [|discriminate].
    intros Hok. ok_inj Hok. subst st' r' paramLen. cbn.
    repeat split; try assumption.
    intros f Hf; destruct f; try reflexivity; exfalso; apply Hf; subst paramID; reflexivity. }
  destruct (Z.eqb_spec paramID statelessResetTokenParameterID) as [E2|E2].
  { destruct (Perspective_eqb sentBy PerspectiveClient); [discriminate|].
    destruct (Z.eqb_spec paramLen 16) as [E0|E0]; cbn [negb]; [|discriminate].
    unfold Read. intros Hok. ok_inj Hok. subst st' r' paramLen. cbn.
    repeat split; try assumption.
    intros f Hf; destruct f; try reflexivity; exfalso; apply Hf; subst paramID; reflexivity. }
  destruct (Z.eqb_spec paramID originalConnectionIDParameterID) as [E0|E0].
  { destruct (Perspective_eqb sentBy PerspectiveClient); [discriminate|].
    rewrite ReadConnectionID_enough by lia.
    intros Hok. ok_inj Hok. subst st' r'. cbn.
    repeat split; try assumption.
    intros f Hf; destruct f; try reflexivity; exfalso; apply Hf; subst paramID; reflexivity. }
  intros Hok. ok_inj Hok. subst st' r'. unfold Seek.
  repeat split; try assumption. intros f _. destruct f; reflexivity.
Qed.

Lemma unmarshal_record_spec sentBy st r st' r' :
  unmarshal_record sentBy st r = Ok (st', r') ->
  exists paramID paramLen r1 r2,
    ReadVarInt r = Ok (paramID, r1) /\ ReadVarInt r1 = Ok (paramLen, r2) /\
    paramLen <= len r2 /\ r' = skipn (Z.to_nat paramLen) r2 /\
    parameterIDs st' = parameterIDs st ++ [paramID] /\
    readAckDelayExponent st' =
      (readAckDelayExponent st || (paramID =? ackDelayExponentParameterID)) /\
    readMaxAckDelay st' =
      (readMaxAckDelay st || (paramID =? maxAckDelayParameterID)) /\
    forall f, field_paramID f <> paramID ->
              same_field f (receiver st') (receiver st).
Proof.
  unfold unmarshal_record.
  destruct (ReadVarInt r) as [[paramID r1]|e] eqn:E1; cbn [bind]; [|discriminate].
  destruct (ReadVarInt r1) as [[paramLen r2]|e] eqn:E2; cbn [bind]; [|discriminate].
  intros Hok. exists paramID, paramLen, r1, r2.
  destruct (ReadVarInt_suffix _ _ _ E2) as (_ & _ & _ & Hl).
  apply unmarshal_switch_spec in Hok; [|lia].
  cbn [receiver parameterIDs readAckDelayExponent readMaxAckDelay] in Hok.
  destruct Hok as (A & B & C & D & E & F).
  repeat split; try assumption; reflexivity.
Qed.

(** Every iteration of the loop reads at least the identifier and the
    length of a record. *)
Lemma unmarshal_record_shrinks sentBy st r st' r' :
  unmarshal_record sentBy st r = Ok (st', r') -> (length r' < length r)%nat.
Proof.
  intros H. apply unmarshal_record_spec in H.
  destruct H as (paramID & paramLen & r1 & r2 & E1 & E2 & _ & -> & _).
  apply ReadVarInt_suffix in E1, E2.
  destruct E1 as (pre1 & -> & H1 & _), E2 as (pre2 & -> & H2 & _).
  rewrite !length_app, length_skipn. unfold len in *. lia.
Qed.

(** ** The loop *)

Lemma same_field_refl f p : same_field f p p.
Proof. destruct f; reflexivity. Qed.

Lemma same_field_trans f p q r :
  same_field f p q -> same_field f q r -> same_field f p r.
Proof. destruct f; cbn; congruence. Qed.

Lemma unmarshal_loop_fuel sentBy fuel1 : forall fuel2 st r,
  (length r <= fuel1)%nat -> (length r <= fuel2)%nat ->
  unmarshal_loop fuel1 sentBy st r = unmarshal_loop fuel2 sentBy st r.
Proof.
  induction fuel1 as [|fuel1 IH]; intros fuel2 st r H1 H2.
  - destruct r; [|cbn in H1; lia]. destruct fuel2; reflexivity.
  - destruct r as [|b r]; [destruct fuel2; reflexivity|].
    destruct fuel2 as [|fuel2]; [cbn in H2; lia|].
    cbn [unmarshal_loop].
    destruct (unmarshal_record sentBy st (b :: r)) as [[st' r']|e] eqn:E;
      [|reflexivity].
    apply unmarshal_record_shrinks in E. cbn in *. apply IH; lia.
Qed.

Lemma unmarshal_loop_terminates sentBy fuel : forall st r,
  (length r <= fuel)%nat -> unmarshal_loop fuel sentBy st r <> WalkFuel.
Proof.
  induction fuel as [|fuel IH]; intros st r H.
  - destruct r; [discriminate|cbn in H; lia].
  - destruct r as [|b r]; [discriminate|]. cbn [unmarshal_loop].
    destruct (unmarshal_record sentBy st (b :: r)) as [[st' r']|e] eqn:E;
      [|discriminate].
    apply unmarshal_record_shrinks in E. cbn in *. apply IH; lia.
Qed.

(** The loop, one iteration at a time. *)
Lemma unmarshal_loop_step sentBy st r st' r' fuel :
  (length r <= fuel)%nat ->
  unmarshal_record sentBy st r = Ok (st', r') ->
  unmarshal_loop fuel sentBy st r = unmarshal_loop (length r') sentBy st' r'.
Proof.
  intros Hf E. pose proof (unmarshal_record_shrinks _ _ _ _ _ E) as Hs.
  destruct r as [|b r]; [cbn in Hs; lia|].
  destruct fuel as [|fuel]; [cbn in Hf; lia|].
  cbn [unmarshal_loop]. rewrite E. cbn in *. apply unmarshal_loop_fuel; lia.
Qed.

Lemma unmarshal_loop_fail sentBy st r e fuel :
  (length r <= fuel)%nat ->
  unmarshal_record sentBy st r = Err e -> r <> [] ->
  unmarshal_loop fuel sentBy st r = WalkErr st e.
Proof.
  intros Hf E Hr. destruct r as [|b r]; [congruence|].
  destruct fuel as [|fuel]; [cbn in Hf; lia|].
  cbn [unmarshal_loop]. rewrite E. reflexivity.
Qed.

(** When the loop runs to the end, the input was a sequence of records, the
    loop has recorded their identifiers in order, and it has left alone the
    fields of the parameters that do not occur. *)
Lemma unmarshal_loop_done sentBy fuel : forall st r st',
  unmarshal_loop fuel sentBy st r = WalkDone st' ->
  exists recs,
    records_fuel fuel r = Some recs /\
    parameterIDs st' = parameterIDs st ++ map fst recs /\
    readAckDelayExponent st' =
      (readAckDelayExponent st || mem ackDelayExponentParameterID (map fst recs)) /\
    readMaxAckDelay st' =
      (readMaxAckDelay st || mem maxAckDelayParameterID (map fst recs)) /\
    forall f, ~ In (field_paramID f) (map fst recs) ->
              same_field f (receiver st') (receiver st).
Proof.
  induction fuel as [|fuel IH]; intros st r st' H.
  - destruct r; [|discriminate]. apply (f_equal (fun x => match x with WalkDone s => s | _ => st end)) in H.
    subst st'. exists []. cbn. rewrite app_nil_r, !orb_false_r.
    repeat split. intros. apply same_field_refl.
  - destruct r as [|b r].
    + apply (f_equal (fun x => match x with WalkDone s => s | _ => st end)) in H.
      subst st'. exists []. cbn. rewrite app_nil_r, !orb_false_r.
      repeat split. intros. apply same_field_refl.
    + cbn [unmarshal_loop] in H.
      destruct (unmarshal_record sentBy st (b :: r)) as [[st1 r1]|e] eqn:E;
        [|discriminate].
      apply IH in H. destruct H as (recs & Hrec & Hids & Hade & Hmad & Hframe).
      apply unmarshal_record_spec in E.
      destruct E as (paramID & paramLen & ra & rb & E1 & E2 & Hlen & -> & Hids1 & Hade1 & Hmad1 & Hframe1).
      exists ((paramID, firstn (Z.to_nat paramLen) rb) :: recs).
      cbn [records_fuel]. rewrite E1, E2.
      destruct (Z.ltb_spec (len rb) paramLen); [lia|]. rewrite Hrec.
      cbn [map fst mem existsb].
      rewrite Hids, Hids1, Hade, Hade1, Hmad, Hmad1, <- app_assoc.
      split; [reflexivity|]. split; [reflexivity|].
      split; [rewrite <- orb_assoc, (Z.eqb_sym paramID); reflexivity|].
      split; [rewrite <- orb_assoc, (Z.eqb_sym paramID); reflexivity|].
      intros f Hf. eapply same_field_trans.
      * apply Hframe. intros Hin. apply Hf. right. assumption.
      * apply Hframe1. intros Heq. apply Hf. left. symmetry. assumption.
Qed.


(** [unmarshal] always returns. *)
Lemma unmarshal_total p data sentBy :
  exists p' err, unmarshal p data sentBy = Some (p', err).
Proof.
  unfold unmarshal.
  pose proof (unmarshal_loop_terminates sentBy (length data) (initial_state p) data
                (Nat.le_refl _)) as H.
  destruct (unmarshal_loop (length data) sentBy (initial_state p) data).
  - destruct (unmarshal_finish st) as [p' err]. eauto.
  - eauto.
  - congruence.
Qed.

Lemma Unmarshal_total p data sentBy :
  exists p' err, Unmarshal p data sentBy = Some (p', err).
Proof.
  unfold Unmarshal. destruct (unmarshal_total p data sentBy) as (p' & err & ->).
  destruct err; eauto.
Qed.

(** ** The check for repeated identifiers *)

Lemma insertID_perm x l : Permutation (insertID x l) (x :: l).
Proof.
  induction l as [|y l IH]; cbn; [reflexivity|].
  destruct (x <=? y); [reflexivity|].
  rewrite IH. apply perm_swap.
Qed.

Lemma sortIDs_perm l : Permutation (sortIDs l) l.
Proof.
  induction l as [|x l IH]; cbn; [reflexivity|].
  rewrite insertID_perm, IH. reflexivity.
Qed.

Lemma insertID_sorted x l :
  StronglySorted Z.le l -> StronglySorted Z.le (insertID x l).
Proof.
  induction 1 as [|y l Hs IH Hy]; cbn.
  - constructor; constructor.
  - destruct (Z.leb_spec x y).
    + constructor; [constructor; assumption|].
      constructor; [assumption|].
      eapply Forall_impl; [|exact Hy]. intros; lia.
    + constructor; [assumption|].
      eapply Permutation_Forall; [symmetry; apply insertID_perm|].
      constructor; [lia|assumption].
Qed.

Lemma sortIDs_sorted l : StronglySorted Z.le (sortIDs l).
Proof.
  induction l; cbn; [constructor|]. apply insertID_sorted. assumption.
Qed.

Lemma firstRepeated_None_sorted l :
  StronglySorted Z.le l -> firstRepeated l = None -> NoDup l.
Proof.
  induction 1 as [|x l Hs IH Hx]; [constructor|].
  destruct l as [|y l]; [intros; constructor; [intros []|constructor]|].
  cbn [firstRepeated]. destruct (Z.eqb_spec x y) as [|Hne]; [discriminate|].
  intros H. constructor; [|apply IH; assumption].
  inversion Hx as [|? ? Hxy Hxl]; subst. inversion Hs as [|? ? _ Hyl]; subst.
  intros [Heq|Hin]; [congruence|].
  rewrite Forall_forall in Hyl. apply Hyl in Hin. lia.
Qed.

Lemma firstRepeated_Some l x :
  firstRepeated l = Some x -> (2 <= count_occ Z.eq_dec l x)%nat.
Proof.
  induction l as [|a l IH]; [discriminate|].
  destruct l as [|b l]; [discriminate|].
  cbn [firstRepeated]. destruct (Z.eqb_spec a b) as [->|Hne].
  - intros H. apply Some_inj in H. subst x.
    rewrite !count_occ_cons_eq by reflexivity. lia.
  - intros H. apply IH in H.
    change (count_occ Z.eq_dec (a :: b :: l) x)
      with (if Z.eq_dec a x then S (count_occ Z.eq_dec (b :: l) x)
            else count_occ Z.eq_dec (b :: l) x).
    destruct (Z.eq_dec a x); lia.
Qed.

Lemma NoDup_firstRepeated l : NoDup l -> firstRepeated l = None.
Proof.
  induction 1 as [|x l Hx Hl IH]; [reflexivity|].
  destruct l as [|y l]; [reflexivity|].
  cbn [firstRepeated]. destruct (Z.eqb_spec x y) as [->|]; [|exact IH].
  exfalso. apply Hx. left. reflexivity.
Qed.

(** The check finds a repeated identifier exactly when there is one. *)
Lemma firstRepeated_sortIDs_None ids :
  firstRepeated (sortIDs ids) = None <-> NoDup ids.
Proof.
  split.
  - intros H. eapply Permutation_NoDup; [apply sortIDs_perm|].
    apply firstRepeated_None_sorted; [apply sortIDs_sorted|assumption].
  - intros H. apply NoDup_firstRepeated.
    eapply Permutation_NoDup; [symmetry; apply sortIDs_perm|assumption].
Qed.

Lemma firstRepeated_sortIDs_Some ids x :
  firstRepeated (sortIDs ids) = Some x -> (2 <= count_occ Z.eq_dec ids x)%nat.
Proof.
  intros H. apply firstRepeated_Some in H.
  pose proof (proj1 (Permutation_count_occ Z.eq_dec _ _) (sortIDs_perm ids) x) as E.
  rewrite <- E. exact H.
Qed.

(** ** The decoder as a whole *)

Lemma Unmarshal_ok p data sentBy p' :
  Unmarshal p data sentBy = Some (p', None) <->
  unmarshal p data sentBy = Some (p', None).
Proof.
  unfold Unmarshal. destruct (unmarshal p data sentBy) as [[q [e|]]|]; split;
    intros H; try discriminate H; exact H.
Qed.

Lemma Unmarshal_err p data sentBy p' e :
  Unmarshal p data sentBy = Some (p', Some e) <->
  exists e', e = TransportParameterError e' /\
             unmarshal p data sentBy = Some (p', Some e').
Proof.
  unfold Unmarshal. destruct (unmarshal p data sentBy) as [[q [e0|]]|]; split.
  - intros H. apply Some_inj in H. apply pair_inj in H. destruct H as [-> H].
    apply Some_inj in H. subst e. eauto.
  - intros (e' & -> & H). apply Some_inj in H. apply pair_inj in H.
    destruct H as [-> H]. apply Some_inj in H. subst. reflexivity.
  - discriminate.
  - intros (e' & _ & H). discriminate H.
  - discriminate.
  - intros (e' & _ & H). discriminate H.
Qed.

(** What a successful call has done. *)
Lemma unmarshal_success p data sentBy p' :
  unmarshal p data sentBy = Some (p', None) ->
  exists st recs,
    unmarshal_loop (length data) sentBy (initial_state p) data = WalkDone st /\
    records data = Some recs /\
    parameterIDs st = map fst recs /\
    NoDup (map fst recs) /\
    p' = fst (unmarshal_finish st) /\
    readAckDelayExponent st = mem ackDelayExponentParameterID (map fst recs) /\
    readMaxAckDelay st = mem maxAckDelayParameterID (map fst recs) /\
    forall f, ~ In (field_paramID f) (map fst recs) ->
              same_field f (receiver st) p.
Proof.
  unfold unmarshal.
  destruct (unmarshal_loop (length data) sentBy (initial_state p) data)
    as [st|st e|] eqn:E; [|discriminate|discriminate].
  intros H. apply Some_inj in H.
  destruct (unmarshal_loop_done _ _ _ _ _ E) as (recs & Hrec & Hids & Hade & Hmad & Hframe).
  cbn in Hids, Hade, Hmad, Hframe.
  exists st, recs. split; [reflexivity|]. split; [exact Hrec|].
  split; [exact Hids|].
  assert (Hdup : firstRepeated (sortIDs (parameterIDs st)) = None).
  { unfold unmarshal_finish in H.
    destruct (firstRepeated (sortIDs (parameterIDs st))); [|reflexivity].
    apply pair_inj in H. destruct H as [_ H]. discriminate H. }
  split; [rewrite <- Hids; apply firstRepeated_sortIDs_None; exact Hdup|].
  split; [rewrite H; reflexivity|].
  repeat split; assumption.
Qed.

Lemma unmarshal_finish_fields st :
  let p' := fst (unmarshal_finish st) in
  AckDelayExponent p' =
    (if readAckDelayExponent st then AckDelayExponent (receiver st)
     else DefaultAckDelayExponent) /\
  MaxAckDelay p' =
    (if readMaxAckDelay st then MaxAckDelay (receiver st)
     else DefaultMaxAckDelay) /\
  MaxPacketSize p' =
    (if MaxPacketSize (receiver st) =? 0 then MaxByteCount
     else MaxPacketSize (receiver st)) /\
  forall f, f <> fAckDelayExponent -> f <> fMaxAckDelay -> f <> fMaxPacketSize ->
            same_field f p' (receiver st).
Proof.
  unfold unmarshal_finish.
  destruct (firstRepeated (sortIDs (parameterIDs st)));
    destruct (readAckDelayExponent st), (readMaxAckDelay st); cbn;
    destruct (MaxPacketSize (receiver st) =? 0) eqn:E; cbn; rewrite ?E;
    (repeat split; try reflexivity;
     intros f H1 H2 H3; destruct f; try reflexivity; congruence).
Qed.

Lemma mem_In x l : mem x l = true <-> In x l.
Proof.
  unfold mem. rewrite existsb_exists. split.
  - intros (y & Hy & E). apply Z.eqb_eq in E. subst. assumption.
  - intros H. exists x. split; [assumption|apply Z.eqb_refl].
Qed.

Lemma mem_not_In x l : ~ In x l -> mem x l = false.
Proof.
  intros H. destruct (mem x l) eqn:E; [|reflexivity].
  apply mem_In in E. contradiction.
Qed.

(** C10: [Unmarshal] decodes into its receiver in place. After a successful
    call the input was a sequence of records, and every field whose
    parameter is not among them has the value the receiver held before the
    call, except [AckDelayExponent] and [MaxAckDelay], which are set to the
    protocol defaults, and [MaxPacketSize], which is set to [MaxByteCount]
    when it is zero. In particular a receiver whose [DisableActiveMigration]
    is already [true] keeps it when the input has no
    disable_active_migration record. *)
Theorem Unmarshal_in_place p data sentBy p' :
  Unmarshal p data sentBy = Some (p', None) ->
  exists recs,
    records data = Some recs /\
    (forall f, ~ In (field_paramID f) (map fst recs) ->
       match f with
       | fAckDelayExponent => AckDelayExponent p' = DefaultAckDelayExponent
       | fMaxAckDelay => MaxAckDelay p' = DefaultMaxAckDelay
       | fMaxPacketSize =>
           MaxPacketSize p' =
             (if MaxPacketSize p =? 0 then MaxByteCount else MaxPacketSize p)
       | _ => same_field f p' p
       end) /\
    (~ In disableActiveMigrationParameterID (map fst recs) ->
     DisableActiveMigration p = true -> DisableActiveMigration p' = true).
Proof.
  intros H. apply Unmarshal_ok, unmarshal_success in H.
  destruct H as (st & recs & _ & Hrec & _ & _ & -> & Hade & Hmad & Hframe).
  exists recs. split; [exact Hrec|].
  destruct (unmarshal_finish_fields st) as (Fade & Fmad & Fmps & Fother).
  cbn zeta in *.
  assert (Hall : forall f, ~ In (field_paramID f) (map fst recs) ->
       match f with
       | fAckDelayExponent =>
           AckDelayExponent (fst (unmarshal_finish st)) = DefaultAckDelayExponent
       | fMaxAckDelay => MaxAckDelay (fst (unmarshal_finish st)) = DefaultMaxAckDelay
       | fMaxPacketSize =>
           MaxPacketSize (fst (unmarshal_finish st)) =
             (if MaxPacketSize p =? 0 then MaxByteCount else MaxPacketSize p)
       | _ => same_field f (fst (unmarshal_finish st)) p
       end).
  { intros f Hf.
    assert (Hsame : same_field f (receiver st) p) by (apply Hframe; exact Hf).
    destruct f;
      try (eapply same_field_trans; [apply Fother; discriminate|exact Hsame]).
    - rewrite Fmad, Hmad, (mem_not_In maxAckDelayParameterID _ Hf). reflexivity.
    - rewrite Fade, Hade, (mem_not_In ackDelayExponentParameterID _ Hf). reflexivity.
    - cbn in Hsame. rewrite Fmps, Hsame. reflexivity. }
  split; [exact Hall|].
  intros Hf Hp. specialize (Hall fDisableActiveMigration Hf). cbn in Hall.
  congruence.
Qed.


(** C3 (amended): a buffer that is a sequence of records two of which carry
    the same identifier never decodes successfully, whatever the identifier
    and the values are. The error returned is the duplicate error, naming an
    identifier that occurs at least twice, when no record fails the checks
    of its own iteration; otherwise it is the error of the first record that
    fails them. *)
Theorem Unmarshal_duplicate p data sentBy recs :
  records data = Some recs ->
  ~ NoDup (map fst recs) ->
  exists p' e,
    Unmarshal p data sentBy = Some (p', Some (TransportParameterError e)) /\
    match record_error sentBy p data with
    | Some e' => e = e'
    | None => exists id, e = ErrDuplicate id /\
                         (2 <= count_occ Z.eq_dec (map fst recs) id)%nat
    end.
Proof.
  intros Hrec Hdup. unfold Unmarshal, unmarshal, record_error.
  destruct (unmarshal_loop (length data) sentBy (initial_state p) data)
    as [st|st e0|] eqn:E.
  - destruct (unmarshal_loop_done _ _ _ _ _ E) as (recs' & Hrec' & Hids & _).
    unfold records in Hrec. rewrite Hrec in Hrec'. apply Some_inj in Hrec'.
    subst recs'. cbn in Hids.
    unfold unmarshal_finish.
    destruct (firstRepeated (sortIDs (parameterIDs st))) as [id|] eqn:F.
    + eexists _, _. split; [reflexivity|]. exists id. split; [reflexivity|].
      rewrite <- Hids. apply firstRepeated_sortIDs_Some. exact F.
    + exfalso. apply Hdup. rewrite <- Hids.
      apply firstRepeated_sortIDs_None. exact F.
  - eexists _, _. split; reflexivity.
  - exfalso. eapply unmarshal_loop_terminates; [|exact E]. apply Nat.le_refl.
Qed.

(** ** The sender-role checks *)

Lemma unmarshal_switch_client st paramID paramLen r st' r' :
  unmarshal_switch PerspectiveServer st paramID paramLen r = Ok (st', r') ->
  if mem paramID serverOnlyParameterIDs
  then exists e, unmarshal_switch PerspectiveClient st paramID paramLen r = Err e /\
                 role_violation e = true
  else unmarshal_switch PerspectiveClient st paramID paramLen r = Ok (st', r').
Proof.
  unfold unmarshal_switch.
  destruct (Z.eqb_spec paramID ackDelayExponentParameterID) as [->|E10];
    [intros H; exact H|].
  destruct (Z.eqb_spec paramID maxAckDelayParameterID) as [->|E11];
    [intros H; exact H|].
  destruct (mem paramID plainNumericParameterIDs) eqn:Hnum.
  { apply mem_In in Hnum. cbn in Hnum.
    assert (Hno : mem paramID serverOnlyParameterIDs = false).
    { apply mem_not_In. cbn.
      unfold initialMaxStreamDataBidiLocalParameterID,
        initialMaxStreamDataBidiRemoteParameterID, initialMaxStreamDataUniParameterID,
        initialMaxDataParameterID, initialMaxStreamsBidiParameterID,
        initialMaxStreamsUniParameterID, maxIdleTimeoutParameterID,
        maxPacketSizeParameterID, activeConnectionIDLimitParameterID,
        preferredAddressParameterID, statelessResetTokenParameterID,
        originalConnectionIDParameterID in *. lia. }
    rewrite Hno. intros H; exact H. }
  destruct (len r <? paramLen); [discriminate|].
  destruct (Z.eqb_spec paramID preferredAddressParameterID) as [->|E13].
  { intros _. cbn. eauto. }
  destruct (Z.eqb_spec paramID disableActiveMigrationParameterID) as [->|E12];
    [intros H; exact H|].
  destruct (Z.eqb_spec paramID statelessResetTokenParameterID) as [->|E2].
  { intros _. cbn. eauto. }
  destruct (Z.eqb_spec paramID originalConnectionIDParameterID) as [->|E0].
  { intros _. cbn. eauto. }
  assert (Hno : mem paramID serverOnlyParameterIDs = false).
  { apply mem_not_In. cbn. intuition congruence. }
  rewrite Hno. intros H; exact H.
Qed.

Lemma unmarshal_loop_client fuel : forall st r st' recs,
  unmarshal_loop fuel PerspectiveServer st r = WalkDone st' ->
  records_fuel fuel r = Some recs ->
  if existsb (fun id => mem id serverOnlyParameterIDs) (map fst recs)
  then exists st2 e, unmarshal_loop fuel PerspectiveClient st r = WalkErr st2 e /\
                     role_violation e = true
  else unmarshal_loop fuel PerspectiveClient st r = WalkDone st'.
Proof.
  induction fuel as [|fuel IH]; intros st r st' recs H Hrec.
  - destruct r; [|discriminate]. cbn in Hrec. apply Some_inj in Hrec. subst recs.
    exact H.
  - destruct r as [|b r].
    + cbn in Hrec. apply Some_inj in Hrec. subst recs. exact H.
    + cbn [unmarshal_loop records_fuel] in *.
      unfold unmarshal_record in *.
      destruct (ReadVarInt (b :: r)) as [[paramID r1]|e] eqn:E1; [|discriminate].
      cbn [bind] in *.
      destruct (ReadVarInt r1) as [[paramLen r2]|e] eqn:E2; [|discriminate].
      cbn [bind] in *.
      destruct (len r2 <? paramLen); [discriminate|].
      destruct (records_fuel fuel (skipn (Z.to_nat paramLen) r2)) as [recs'|] eqn:R;
        [|discriminate].
      apply Some_inj in Hrec. subst recs. cbn [map fst existsb].
      match type of H with
      | match ?sw with _ => _ end = _ => destruct sw as [[st1 r3]|e] eqn:Esw
      end; [|discriminate].
      pose proof Esw as Esw'.
      apply unmarshal_switch_spec in Esw'.
      2:{ apply ReadVarInt_suffix in E2. destruct E2 as (_ & _ & _ & ?). lia. }
      destruct Esw' as (_ & -> & _).
      apply unmarshal_switch_client in Esw.
      destruct (mem paramID serverOnlyParameterIDs).
      * destruct Esw as (e & -> & He). cbn. eauto.
      * rewrite Esw. cbn [orb]. apply IH; assumption.
Qed.

(** ** What the record of a parameter contributes to the result *)

Lemma unmarshal_switch_numeric sentBy st paramID paramLen r :
  mem paramID numericParameterIDs = true ->
  unmarshal_switch sentBy st paramID paramLen r =
    match readNumericTransportParameter (receiver st) r paramID paramLen with
    | Err e => Err e
    | Ok (p', r') =>
      Ok ({| receiver := p';
             parameterIDs := parameterIDs st;
             readAckDelayExponent :=
               readAckDelayExponent st || (paramID =? ackDelayExponentParameterID);
             readMaxAckDelay :=
               readMaxAckDelay st || (paramID =? maxAckDelayParameterID) |}, r')
    end.
Proof.
  intros H. unfold unmarshal_switch.
  destruct (Z.eqb_spec paramID ackDelayExponentParameterID) as [->|E10].
  { cbn. rewrite !orb_true_r, !orb_false_r.
    destruct (readNumericTransportParameter _ _ _ _) as [[p' r']|e]; reflexivity. }
  destruct (Z.eqb_spec paramID maxAckDelayParameterID) as [->|E11].
  { cbn. rewrite !orb_true_r, !orb_false_r.
    destruct (readNumericTransportParameter _ _ _ _) as [[p' r']|e]; reflexivity. }
  unfold numericParameterIDs in H. cbn [mem existsb] in H.
  destruct (Z.eqb_spec paramID ackDelayExponentParameterID); [contradiction|].
  destruct (Z.eqb_spec paramID maxAckDelayParameterID); [contradiction|].
  cbn [orb] in H. change (existsb (Z.eqb paramID) plainNumericParameterIDs)
    with (mem paramID plainNumericParameterIDs) in H.
  rewrite H, !orb_false_r. cbn.
  destruct (readNumericTransportParameter _ _ _ _) as [[p' r']|e]; [|reflexivity].
  cbn. destruct st; reflexivity.
Qed.

(** A record of a successfully decoded buffer was accepted by the switch,
    and what the switch stored for it is still there at the end of the loop
    when no other record carries its identifier. *)
Lemma unmarshal_loop_record sentBy fuel : forall st r st' recs paramID payload,
  unmarshal_loop fuel sentBy st r = WalkDone st' ->
  records_fuel fuel r = Some recs ->
  NoDup (map fst recs) ->
  In (paramID, payload) recs ->
  exists st1 st2 rest,
    unmarshal_switch sentBy st1 paramID (len payload) (payload ++ rest) = Ok (st2, rest) /\
    forall f, field_paramID f = paramID ->
              same_field f (receiver st') (receiver st2).
Proof.
  induction fuel as [|fuel IH]; intros st r st' recs paramID payload H Hrec Hnd Hin.
  - destruct r; [|discriminate]. cbn in Hrec. apply Some_inj in Hrec. subst recs.
    destruct Hin.
  - destruct r as [|b r].
    { cbn in Hrec. apply Some_inj in Hrec. subst recs. destruct Hin. }
    cbn [unmarshal_loop records_fuel] in *.
    unfold unmarshal_record in *.
    destruct (ReadVarInt (b :: r)) as [[id0 r1]|e] eqn:E1; [|discriminate].
    cbn [bind] in *.
    destruct (ReadVarInt r1) as [[l0 r2]|e] eqn:E2; [|discriminate].
    cbn [bind] in *.
    destruct (Z.ltb_spec (len r2) l0) as [|Hl0]; [discriminate|].
    destruct (records_fuel fuel (skipn (Z.to_nat l0) r2)) as [recs'|] eqn:R;
      [|discriminate].
    apply Some_inj in Hrec. subst recs.
    match type of H with
    | match ?sw with _ => _ end = _ => destruct sw as [[st1 r3]|e] eqn:Esw
    end; [|discriminate].
    assert (Hl : 0 <= l0)
      by (apply ReadVarInt_suffix in E2; destruct E2 as (_ & _ & _ & ?); lia).
    pose proof Esw as Esw'. apply unmarshal_switch_spec in Esw'; [|exact Hl].
    destruct Esw' as (_ & -> & _).
    cbn [map fst] in Hnd. apply NoDup_cons_iff in Hnd. destruct Hnd as [Hnotin Hnd].
    destruct Hin as [Heq|Hin].
    + apply pair_inj in Heq. destruct Heq as [-> <-].
      assert (Hlen : len (firstn (Z.to_nat l0) r2) = l0)
        by (unfold len in *; rewrite firstn_length_le; lia).
      eexists _, st1, (skipn (Z.to_nat l0) r2).
      rewrite Hlen, firstn_skipn. split; [exact Esw|].
      intros f Hf.
      destruct (unmarshal_loop_done _ _ _ _ _ H) as (recs2 & R2 & _ & _ & _ & Hframe).
      rewrite R in R2. apply Some_inj in R2. subst recs2.
      apply Hframe. rewrite Hf. exact Hnotin.
    + eapply IH; eassumption.
Qed.

(** The same for a numeric parameter: its payload is one integer, which the
    switch of [readNumericTransportParameter] accepted. *)
Lemma unmarshal_numeric_record p data sentBy p' recs paramID payload :
  unmarshal p data sentBy = Some (p', None) ->
  records data = Some recs ->
  In (paramID, payload) recs ->
  mem paramID numericParameterIDs = true ->
  exists st val p1 p2,
    p' = fst (unmarshal_finish st) /\
    readAckDelayExponent st = mem ackDelayExponentParameterID (map fst recs) /\
    readMaxAckDelay st = mem maxAckDelayParameterID (map fst recs) /\
    ReadVarInt payload = Ok (val, []) /\ 0 <= val <= maxVarInt8 /\
    readNumeric_switch p1 paramID val = Ok p2 /\
    forall f, field_paramID f = paramID -> same_field f (receiver st) p2.
Proof.
  intros H Hrec Hin Hnum. apply unmarshal_success in H.
  destruct H as (st & recs' & Hloop & Hrec' & _ & Hnd & -> & Hade & Hmad & _).
  rewrite Hrec in Hrec'. apply Some_inj in Hrec'. subst recs'.
  destruct (unmarshal_loop_record _ _ _ _ _ _ _ _ Hloop Hrec Hnd Hin)
    as (st1 & st2 & rest & Hsw & Hf).
  rewrite (unmarshal_switch_numeric _ _ _ _ _ Hnum) in Hsw.
  destruct (readNumericTransportParameter (receiver st1) (payload ++ rest) paramID
              (len payload)) as [[p2 r2]|e] eqn:E; [|discriminate].
  ok_inj Hsw. subst st2 r2. cbn [receiver] in Hf.
  apply readNumericTransportParameter_spec in E.
  destruct E as (val & pre & Hpre & Hlen & _ & Hval & Hrange & Hsw).
  apply app_inv_tail in Hpre. subst pre.
  exists st, val, (receiver st1), p2. repeat split; try assumption; lia.
Qed.

(** ** Records as the encoder writes them *)

Lemma to_uint64_small z : 0 <= z < 2 ^ 64 -> to_uint64 z = z.
Proof. intros. unfold to_uint64. apply Z.mod_small. assumption. Qed.

Lemma WriteVarInt_bytes b i out :
  WriteVarInt b i = Some out -> exists e, encodeVarInt i = Some e /\ out = b ++ e.
Proof.
  unfold WriteVarInt. destruct (encodeVarInt i) as [e|]; cbn; [|discriminate].
  intros H. apply Some_inj in H. eauto.
Qed.

Lemma encodeVarInt_range i e : encodeVarInt i = Some e -> i <= maxVarInt8.
Proof.
  unfold encodeVarInt, maxVarInt1, maxVarInt2, maxVarInt4, maxVarInt8.
  destruct (Z.leb_spec i 63); [lia|]. destruct (Z.leb_spec i 16383); [lia|].
  destruct (Z.leb_spec i 1073741823); [lia|].
  destruct (Z.leb_spec i 4611686018427387903); [lia|discriminate].
Qed.

(** The three integers of a numeric record. *)
Lemma marshalVarintParam_bytes b id val out :
  marshalVarintParam b id val = Some out -> 0 <= id < 2 ^ 64 ->
  exists eid elen eval,
    out = b ++ eid ++ elen ++ eval /\
    encodeVarInt id = Some eid /\
    encodeVarInt (len eval) = Some elen /\
    encodeVarInt val = Some eval.
Proof.
  unfold marshalVarintParam. intros H Hid. rewrite to_uint64_small in H by assumption.
  destruct (WriteVarInt b id) as [b1|] eqn:E1; cbn [obind] in H; [|discriminate].
  destruct (VarIntLen val) as [l|] eqn:El; cbn [obind] in H; [|discriminate].
  destruct (WriteVarInt b1 (to_uint64 l)) as [b2|] eqn:E2; cbn [obind] in H;
    [|discriminate].
  apply WriteVarInt_bytes in E1, E2, H.
  destruct E1 as (eid & Eid & ->), E2 as (elen & Elen & ->), H as (eval & Eval & ->).
  pose proof (encodeVarInt_VarIntLen _ _ Eval) as El'. rewrite El in El'.
  apply Some_inj in El'. subst l.
  pose proof (encodeVarInt_len _ _ Eval).
  rewrite to_uint64_small in Elen by lia.
  exists eid, elen, eval. rewrite <- !app_assoc. auto.
Qed.

Lemma marshalVarintParam_defined b id val :
  0 <= id <= maxVarInt8 -> val <= maxVarInt8 ->
  exists out, marshalVarintParam b id val = Some out.
Proof.
  intros Hid Hval. unfold marshalVarintParam, WriteVarInt.
  rewrite to_uint64_small by (unfold maxVarInt8 in *; lia).
  destruct (encodeVarInt_defined id) as (eid & ->); [lia|]. cbn [obind].
  destruct (encodeVarInt_defined val) as (eval & Eval); [assumption|].
  rewrite (encodeVarInt_VarIntLen _ _ Eval). cbn [obind].
  pose proof (encodeVarInt_len _ _ Eval).
  rewrite to_uint64_small by lia.
  destruct (encodeVarInt_defined (len eval)) as (elen & ->); [unfold maxVarInt8; lia|].
  cbn [obind]. rewrite Eval. cbn. eauto.
Qed.

(** The loop reads the identifier and the length of a record and hands its
    payload to the switch. *)
Lemma unmarshal_record_header sentBy st id eid elen payload rest :
  0 <= id -> encodeVarInt id = Some eid ->
  encodeVarInt (len payload) = Some elen ->
  unmarshal_record sentBy st (eid ++ elen ++ payload ++ rest) =
    unmarshal_switch sentBy
      {| receiver := receiver st;
         parameterIDs := parameterIDs st ++ [id];
         readAckDelayExponent := readAckDelayExponent st;
         readMaxAckDelay := readMaxAckDelay st |}
      id (len payload) (payload ++ rest).
Proof.
  intros Hid Eid Elen. unfold unmarshal_record.
  rewrite (ReadVarInt_encodeVarInt _ _ _ Hid Eid). cbn [bind].
  rewrite (ReadVarInt_encodeVarInt _ _ _ (len_nonneg payload) Elen). reflexivity.
Qed.

Lemma unmarshal_record_numeric sentBy st id val rec rest :
  marshalVarintParam [] id val = Some rec ->
  0 <= id < 2 ^ 64 -> 0 <= val ->
  mem id numericParameterIDs = true ->
  unmarshal_record sentBy st (rec ++ rest) =
    match readNumeric_switch (receiver st) id val with
    | Err e => Err e
    | Ok p' =>
      Ok ({| receiver := p';
             parameterIDs := parameterIDs st ++ [id];
             readAckDelayExponent :=
               readAckDelayExponent st || (id =? ackDelayExponentParameterID);
             readMaxAckDelay :=
               readMaxAckDelay st || (id =? maxAckDelayParameterID) |}, rest)
    end.
Proof.
  intros Hm Hid Hval Hnum.
  apply marshalVarintParam_bytes in Hm; [|assumption].
  destruct Hm as (eid & elen & eval & -> & Eid & Elen & Eval).
  cbn [app]. rewrite <- !app_assoc.
  rewrite (unmarshal_record_header _ _ id) by (assumption || lia).
  rewrite (unmarshal_switch_numeric _ _ _ _ _ Hnum). cbn [receiver parameterIDs
    readAckDelayExponent readMaxAckDelay].
  pose proof (ReadVarInt_encodeVarInt _ _ [] Hval Eval) as Hread.
  rewrite app_nil_r in Hread.
  rewrite (readNumericTransportParameter_payload _ _ _ _ _ Hread).
  destruct (readNumeric_switch (receiver st) id val); reflexivity.
Qed.

Lemma marshalVarintParam_nonempty id val rec :
  marshalVarintParam [] id val = Some rec -> rec <> [].
Proof.
  unfold marshalVarintParam, WriteVarInt.
  destruct (encodeVarInt (to_uint64 id)) as [eid|] eqn:E; cbn; [|discriminate].
  apply encodeVarInt_len in E.
  destruct (VarIntLen val); cbn; [|discriminate].
  destruct (encodeVarInt (to_uint64 z)); cbn; [|discriminate].
  destruct (encodeVarInt val); cbn; [|discriminate].
  intros H. apply Some_inj in H. subst rec.
  destruct eid; [cbn in E; lia|discriminate].
Qed.

(** A buffer that starts with a numeric record that the switch rejects. *)
Lemma unmarshal_numeric_first_rejected p sentBy id val rec rest e :
  marshalVarintParam [] id val = Some rec ->
  0 <= id < 2 ^ 64 -> 0 <= val ->
  mem id numericParameterIDs = true ->
  readNumeric_switch p id val = Err e ->
  Unmarshal p (rec ++ rest) sentBy = Some (p, Some (TransportParameterError e)).
Proof.
  intros Hm Hid Hval Hnum Hsw. unfold Unmarshal, unmarshal.
  rewrite (unmarshal_loop_fail sentBy (initial_state p) (rec ++ rest) e).
  - reflexivity.
  - apply Nat.le_refl.
  - rewrite (unmarshal_record_numeric _ _ _ _ _ _ Hm Hid Hval Hnum).
    cbn [initial_state receiver]. rewrite Hsw. reflexivity.
  - apply marshalVarintParam_nonempty in Hm. destruct rec; [congruence|discriminate].
Qed.

(** A buffer that is one numeric record that the switch accepts. *)
Lemma unmarshal_numeric_single p sentBy id val rec p1 :
  marshalVarintParam [] id val = Some rec ->
  0 <= id < 2 ^ 64 -> 0 <= val ->
  mem id numericParameterIDs = true ->
  readNumeric_switch p id val = Ok p1 ->
  Unmarshal p rec sentBy =
    Some (fst (unmarshal_finish
                 {| receiver := p1;
                    parameterIDs := [id];
                    readAckDelayExponent := id =? ackDelayExponentParameterID;
                    readMaxAckDelay := id =? maxAckDelayParameterID |}), None).
Proof.
  intros Hm Hid Hval Hnum Hsw. unfold Unmarshal, unmarshal.
  pose proof (unmarshal_record_numeric sentBy (initial_state p) _ _ _ [] Hm Hid Hval Hnum)
    as Hstep.
  rewrite app_nil_r in Hstep. cbn [initial_state receiver parameterIDs
    readAckDelayExponent readMaxAckDelay app orb] in Hstep. rewrite Hsw in Hstep.
  rewrite (unmarshal_loop_step _ _ _ _ _ _ (Nat.le_refl _) Hstep).
  cbn [length unmarshal_loop]. unfold unmarshal_finish at 1.
  cbn [parameterIDs sortIDs insertID firstRepeated].
  unfold unmarshal_finish. cbn [parameterIDs sortIDs insertID firstRepeated fst].
  reflexivity.
Qed.

(** ** Range checks and the idle-timeout clamp *)

Ltac id_range := unfold_ids; unfold maxVarInt8; lia.

Lemma MaxDuration_max a b : MaxDuration a b = Z.max a b.
Proof. unfold MaxDuration. destruct (Z.gtb_spec a b); lia. Qed.

Lemma duration_of_ms_exact val :
  0 <= val -> val * Millisecond < 2 ^ 63 -> duration_of_ms val = val * Millisecond.
Proof.
  intros H0 H1. unfold duration_of_ms, wrap_int64, Millisecond in *.
  assert (val < 2 ^ 63) by lia.
  rewrite (Z.mod_small (val + 2 ^ 63)) by lia.
  replace (val + 2 ^ 63 - 2 ^ 63) with val by lia.
  rewrite Z.mod_small by lia. lia.
Qed.

(** A product that no longer fits the 63 bits of a positive duration, but
    fits 64 bits, wraps around to a negative duration. *)
Lemma duration_of_ms_wraps val :
  0 <= val -> 2 ^ 63 <= val * Millisecond < 2 ^ 64 ->
  duration_of_ms val = val * Millisecond - 2 ^ 64.
Proof.
  intros H0 H1. unfold duration_of_ms, wrap_int64, Millisecond in *.
  rewrite (Z.mod_small (val + 2 ^ 63)) by lia.
  replace (val + 2 ^ 63 - 2 ^ 63) with val by lia.
  replace (val * 1000000 + 2 ^ 63) with (val * 1000000 - 2 ^ 63 + 1 * 2 ^ 64) by lia.
  rewrite Z.mod_add by lia. rewrite Z.mod_small by lia. lia.
Qed.

Lemma switch_maxPacketSize p val :
  readNumeric_switch p maxPacketSizeParameterID val =
    if val <? 1200 then Err (ErrMaxPacketSize val) else Ok (set_MaxPacketSize val p).
Proof. reflexivity. Qed.

Lemma switch_ackDelayExponent p val :
  readNumeric_switch p ackDelayExponentParameterID val =
    if val >? MaxAckDelayExponent then Err (ErrAckDelayExponent val)
    else Ok (set_AckDelayExponent (byte_val (uint8 val)) p).
Proof. reflexivity. Qed.

Lemma switch_maxAckDelay p val :
  readNumeric_switch p maxAckDelayParameterID val =
    if duration_of_ms val >=? MaxMaxAckDelay
    then Err (ErrMaxAckDelay (duration_of_ms val))
    else Ok (set_MaxAckDelay
               (if duration_of_ms val <? 0 then InfDuration else duration_of_ms val) p).
Proof. reflexivity. Qed.

Lemma switch_maxIdleTimeout p val :
  readNumeric_switch p maxIdleTimeoutParameterID val =
    Ok (set_MaxIdleTimeout (MaxDuration MinRemoteIdleTimeout (duration_of_ms val)) p).
Proof. reflexivity. Qed.

(** C8: a max_packet_size record with a value below 1200 (1199 among them)
    is rejected with the out-of-range error, a value from 1200 on is
    accepted and stored as it is, alone in a buffer and among other records;
    an ack_delay_exponent record with the value one above
    [MaxAckDelayExponent] is rejected, with [MaxAckDelayExponent] itself it
    is accepted and stored. *)
Theorem max_packet_size_and_ack_delay_exponent_bounds p sentBy :
  0 <= MaxAckDelayExponent ->
  (forall val rec rest,
     0 <= val < 1200 ->
     marshalVarintParam [] maxPacketSizeParameterID val = Some rec ->
     Unmarshal p (rec ++ rest) sentBy =
       Some (p, Some (TransportParameterError (ErrMaxPacketSize val)))) /\
  (forall val rec,
     1200 <= val ->
     marshalVarintParam [] maxPacketSizeParameterID val = Some rec ->
     exists p', Unmarshal p rec sentBy = Some (p', None) /\ MaxPacketSize p' = val) /\
  (forall data recs payload p',
     records data = Some recs -> In (maxPacketSizeParameterID, payload) recs ->
     Unmarshal p data sentBy = Some (p', None) ->
     exists val, ReadVarInt payload = Ok (val, []) /\ 1200 <= val /\
                 MaxPacketSize p' = val) /\
  (forall rec rest,
     marshalVarintParam [] ackDelayExponentParameterID (MaxAckDelayExponent + 1)
       = Some rec ->
     Unmarshal p (rec ++ rest) sentBy =
       Some (p, Some (TransportParameterError
                        (ErrAckDelayExponent (MaxAckDelayExponent + 1))))) /\
  (forall rec,
     marshalVarintParam [] ackDelayExponentParameterID MaxAckDelayExponent
       = Some rec ->
     exists p', Unmarshal p rec sentBy = Some (p', None) /\
                AckDelayExponent p' = byte_val (uint8 MaxAckDelayExponent)) /\
  (forall data recs payload p',
     records data = Some recs -> In (ackDelayExponentParameterID, payload) recs ->
     Unmarshal p data sentBy = Some (p', None) ->
     exists val, ReadVarInt payload = Ok (val, []) /\ val <= MaxAckDelayExponent /\
                 AckDelayExponent p' = byte_val (uint8 val)).
Proof.
  intros Hmax. repeat apply conj.
  - intros val rec rest Hval Hm.
    eapply unmarshal_numeric_first_rejected; [exact Hm|id_range|lia|reflexivity|].
    rewrite switch_maxPacketSize. destruct (Z.ltb_spec val 1200); [reflexivity|lia].
  - intros val rec Hval Hm. eexists. split.
    + eapply unmarshal_numeric_single; [exact Hm|id_range|lia|reflexivity|].
      rewrite switch_maxPacketSize. destruct (Z.ltb_spec val 1200); [lia|reflexivity].
    + match goal with |- context [unmarshal_finish ?s] =>
        destruct (unmarshal_finish_fields s) as (_ & _ & F & _) end.
      cbn zeta in F. rewrite F. cbn. destruct (Z.eqb_spec val 0); [lia|reflexivity].
  - intros data recs payload p' Hrec Hin H. apply Unmarshal_ok in H.
    destruct (unmarshal_numeric_record _ _ _ _ _ _ _ H Hrec Hin eq_refl)
      as (st & val & p1 & p2 & -> & _ & _ & Hread & Hrange & Hsw & Hf).
    rewrite switch_maxPacketSize in Hsw.
    destruct (Z.ltb_spec val 1200); [discriminate|]. apply Ok_inj in Hsw. subst p2.
    exists val. split; [assumption|]. split; [assumption|].
    destruct (unmarshal_finish_fields st) as (_ & _ & F & _). cbn zeta in F.
    specialize (Hf fMaxPacketSize eq_refl). cbn in Hf. rewrite F, Hf.
    destruct (Z.eqb_spec val 0); [lia|reflexivity].
  - intros rec rest Hm.
    eapply unmarshal_numeric_first_rejected; [exact Hm|id_range|lia|reflexivity|].
    rewrite switch_ackDelayExponent.
    destruct (Z.gtb_spec (MaxAckDelayExponent + 1) MaxAckDelayExponent); [reflexivity|lia].
  - intros rec Hm. eexists. split.
    + eapply unmarshal_numeric_single; [exact Hm|id_range|lia|reflexivity|].
      rewrite switch_ackDelayExponent.
      destruct (Z.gtb_spec MaxAckDelayExponent MaxAckDelayExponent); [lia|reflexivity].
    + match goal with |- context [unmarshal_finish ?s] =>
        destruct (unmarshal_finish_fields s) as (F & _) end.
      cbn zeta in F. rewrite F. reflexivity.
  - intros data recs payload p' Hrec Hin H. apply Unmarshal_ok in H.
    destruct (unmarshal_numeric_record _ _ _ _ _ _ _ H Hrec Hin eq_refl)
      as (st & val & p1 & p2 & -> & Hade & _ & Hread & Hrange & Hsw & Hf).
    rewrite switch_ackDelayExponent in Hsw.
    destruct (Z.gtb_spec val MaxAckDelayExponent); [discriminate|].
    apply Ok_inj in Hsw. subst p2.
    exists val. split; [assumption|]. split; [lia|].
    destruct (unmarshal_finish_fields st) as (F & _). cbn zeta in F.
    specialize (Hf fAckDelayExponent eq_refl). cbn in Hf. rewrite F, Hade, Hf.
    replace (mem ackDelayExponentParameterID (map fst recs)) with true; [reflexivity|].
    symmetry. apply mem_In. apply (in_map fst) in Hin. exact Hin.
Qed.

(** C6: a max_ack_delay record is rejected with the out-of-range error
    exactly when the duration decoded from its milliseconds,
    [time.Duration(val) * time.Millisecond] with the wrap-around of the
    multiplication, is at least [MaxMaxAckDelay]; a value whose conversion
    has wrapped to a negative duration is accepted, and [InfDuration] is
    stored for it. The wire values whose product with a millisecond lies
    between 2^63 and 2^64 are such values: their duration is the product
    less 2^64. *)
Theorem max_ack_delay_range p sentBy val rec :
  0 <= MaxMaxAckDelay ->
  0 <= val ->
  marshalVarintParam [] maxAckDelayParameterID val = Some rec ->
  (MaxMaxAckDelay <= duration_of_ms val ->
   forall rest,
     Unmarshal p (rec ++ rest) sentBy =
       Some (p, Some (TransportParameterError (ErrMaxAckDelay (duration_of_ms val))))) /\
  (duration_of_ms val < MaxMaxAckDelay ->
   exists p', Unmarshal p rec sentBy = Some (p', None) /\
              MaxAckDelay p' =
                (if duration_of_ms val <? 0 then InfDuration else duration_of_ms val)) /\
  (duration_of_ms val < 0 ->
   exists p', Unmarshal p rec sentBy = Some (p', None) /\
              MaxAckDelay p' = InfDuration) /\
  (2 ^ 63 <= val * Millisecond < 2 ^ 64 ->
   duration_of_ms val = val * Millisecond - 2 ^ 64 /\
   exists p', Unmarshal p rec sentBy = Some (p', None) /\
              MaxAckDelay p' = InfDuration) /\
  (forall data recs payload p',
     records data = Some recs -> In (maxAckDelayParameterID, payload) recs ->
     Unmarshal p data sentBy = Some (p', None) ->
     exists v, ReadVarInt payload = Ok (v, []) /\
               duration_of_ms v < MaxMaxAckDelay /\
               MaxAckDelay p' =
                 (if duration_of_ms v <? 0 then InfDuration else duration_of_ms v)).
Proof.
  intros Hmax Hval Hm.
  assert (Hacc : duration_of_ms val < MaxMaxAckDelay ->
    exists p', Unmarshal p rec sentBy = Some (p', None) /\
               MaxAckDelay p' =
                 (if duration_of_ms val <? 0 then InfDuration else duration_of_ms val)).
  { intros Hd. eexists. split.
    + eapply unmarshal_numeric_single; [exact Hm|id_range|lia|reflexivity|].
      rewrite switch_maxAckDelay.
      destruct (Z.geb_spec (duration_of_ms val) MaxMaxAckDelay); [lia|reflexivity].
    + match goal with |- context [unmarshal_finish ?s] =>
        destruct (unmarshal_finish_fields s) as (_ & F & _) end.
      cbn zeta in F. rewrite F. reflexivity. }
  repeat apply conj.
  - intros Hd rest.
    eapply unmarshal_numeric_first_rejected; [exact Hm|id_range|lia|reflexivity|].
    rewrite switch_maxAckDelay.
    destruct (Z.geb_spec (duration_of_ms val) MaxMaxAckDelay); [reflexivity|lia].
  - exact Hacc.
  - intros Hd. destruct Hacc as (p' & H1 & H2); [lia|].
    exists p'. split; [exact H1|]. rewrite H2.
    destruct (Z.ltb_spec (duration_of_ms val) 0); [reflexivity|lia].
  - intros Hd. pose proof (duration_of_ms_wraps val Hval Hd) as Hw.
    split; [exact Hw|].
    destruct Hacc as (p' & H1 & H2); [lia|].
    exists p'. split; [exact H1|]. rewrite H2.
    destruct (Z.ltb_spec (duration_of_ms val) 0); [reflexivity|lia].
  - intros data recs payload p' Hrec Hin H. apply Unmarshal_ok in H.
    destruct (unmarshal_numeric_record _ _ _ _ _ _ _ H Hrec Hin eq_refl)
      as (st & v & p1 & p2 & -> & _ & Hmad & Hread & Hrange & Hsw & Hf).
    rewrite switch_maxAckDelay in Hsw.
    destruct (Z.geb_spec (duration_of_ms v) MaxMaxAckDelay); [discriminate|].
    apply Ok_inj in Hsw. subst p2.
    exists v. split; [assumption|]. split; [lia|].
    destruct (unmarshal_finish_fields st) as (_ & F & _). cbn zeta in F.
    specialize (Hf fMaxAckDelay eq_refl). cbn in Hf. rewrite F, Hmad, Hf.
    replace (mem maxAckDelayParameterID (map fst recs)) with true; [reflexivity|].
    symmetry. apply mem_In. apply (in_map fst) in Hin. exact Hin.
Qed.


(** ** The session-ticket round trip *)

Lemma wrap_int64_small z : - 2 ^ 63 <= z < 2 ^ 63 -> wrap_int64 z = z.
Proof. intros. unfold wrap_int64. rewrite Z.mod_small by lia. lia. Qed.

Lemma marshalVarintParam_app b id val rec :
  marshalVarintParam [] id val = Some rec ->
  marshalVarintParam b id val = Some (b ++ rec).
Proof.
  unfold marshalVarintParam, WriteVarInt.
  destruct (encodeVarInt (to_uint64 id)) as [eid|]; cbn [obind]; [|discriminate].
  destruct (VarIntLen val) as [l|]; cbn [obind]; [|discriminate].
  destruct (encodeVarInt (to_uint64 l)) as [elen|]; cbn [obind]; [|discriminate].
  destruct (encodeVarInt val) as [eval|]; cbn [obind]; [|discriminate].
  intros H. apply Some_inj in H. subst rec. cbn [app].
  rewrite <- !app_assoc. reflexivity.
Qed.

Lemma marshalVarintParam_inv b id val out :
  marshalVarintParam b id val = Some out ->
  exists rec, marshalVarintParam [] id val = Some rec /\ out = b ++ rec.
Proof.
  unfold marshalVarintParam, WriteVarInt.
  destruct (encodeVarInt (to_uint64 id)) as [eid|]; cbn [obind]; [|discriminate].
  destruct (VarIntLen val) as [l|]; cbn [obind]; [|discriminate].
  destruct (encodeVarInt (to_uint64 l)) as [elen|]; cbn [obind]; [|discriminate].
  destruct (encodeVarInt val) as [eval|]; cbn [obind]; [|discriminate].
  intros H. apply Some_inj in H. subst out. eexists. split; [reflexivity|].
  cbn [app]. rewrite <- !app_assoc. reflexivity.
Qed.

(** The loop over a buffer that starts with a numeric record. *)
Lemma unmarshal_loop_numeric sentBy st id val rec rest p1 fuel :
  marshalVarintParam [] id val = Some rec ->
  0 <= id < 2 ^ 64 -> 0 <= val ->
  mem id numericParameterIDs = true ->
  readNumeric_switch (receiver st) id val = Ok p1 ->
  (length (rec ++ rest) <= fuel)%nat ->
  unmarshal_loop fuel sentBy st (rec ++ rest) =
    unmarshal_loop (length rest) sentBy
      {| receiver := p1;
         parameterIDs := parameterIDs st ++ [id];
         readAckDelayExponent :=
           readAckDelayExponent st || (id =? ackDelayExponentParameterID);
         readMaxAckDelay :=
           readMaxAckDelay st || (id =? maxAckDelayParameterID) |} rest.
Proof.
  intros Hm Hid Hval Hnum Hsw Hfuel.
  apply unmarshal_loop_step; [assumption|].
  rewrite (unmarshal_record_numeric _ _ _ _ _ _ Hm Hid Hval Hnum), Hsw. reflexivity.
Qed.

Ltac loop_numeric H :=
  erewrite (unmarshal_loop_numeric _ _ _ _ _ _ _ _ H);
    [|id_range|unfold varint_range in *; lia|reflexivity|reflexivity|apply Nat.le_refl].

(** C5: for parameters whose seven ticket fields have a variable-length
    encoding, [MarshalForSessionTicket] appends bytes from which
    [UnmarshalFromSessionTicket], decoding into a fresh value, returns
    without error exactly those seven fields, with every other field at its
    default: the protocol defaults for [MaxAckDelay] and [AckDelayExponent],
    [MaxByteCount] for [MaxPacketSize], and the zero value elsewhere. *)
Theorem session_ticket_round_trip p b :
  ticket_fields_encodable p ->
  exists data,
    MarshalForSessionTicket p b = Some (b ++ data) /\
    UnmarshalFromSessionTicket zeroTransportParameters data =
      Some ({| InitialMaxStreamDataBidiLocal := InitialMaxStreamDataBidiLocal p;
               InitialMaxStreamDataBidiRemote := InitialMaxStreamDataBidiRemote p;
               InitialMaxStreamDataUni := InitialMaxStreamDataUni p;
               InitialMaxData := InitialMaxData p;
               MaxAckDelay := DefaultMaxAckDelay;
               AckDelayExponent := DefaultAckDelayExponent;
               DisableActiveMigration := false;
               MaxPacketSize := MaxByteCount;
               MaxUniStreamNum := MaxUniStreamNum p;
               MaxBidiStreamNum := MaxBidiStreamNum p;
               MaxIdleTimeout := 0;
               PreferredAddress_ := None;
               StatelessResetToken := None;
               OriginalConnectionID := [];
               ActiveConnectionIDLimit := ActiveConnectionIDLimit p |}, None).
Proof.
  intros (H1 & H2 & H3 & H4 & H5 & H6 & H7). unfold varint_range, maxVarInt8 in *.
  destruct (marshalVarintParam_defined [] initialMaxStreamDataBidiLocalParameterID
              (InitialMaxStreamDataBidiLocal p)) as (r1 & M1);
    [id_range|unfold maxVarInt8; lia|].
  destruct (marshalVarintParam_defined [] initialMaxStreamDataBidiRemoteParameterID
              (InitialMaxStreamDataBidiRemote p)) as (r2 & M2);
    [id_range|unfold maxVarInt8; lia|].
  destruct (marshalVarintParam_defined [] initialMaxStreamDataUniParameterID
              (InitialMaxStreamDataUni p)) as (r3 & M3);
    [id_range|unfold maxVarInt8; lia|].
  destruct (marshalVarintParam_defined [] initialMaxDataParameterID
              (InitialMaxData p)) as (r4 & M4);
    [id_range|unfold maxVarInt8; lia|].
  destruct (marshalVarintParam_defined [] initialMaxStreamsBidiParameterID
              (MaxBidiStreamNum p)) as (r5 & M5);
    [id_range|unfold maxVarInt8; lia|].
  destruct (marshalVarintParam_defined [] initialMaxStreamsUniParameterID
              (MaxUniStreamNum p)) as (r6 & M6);
    [id_range|unfold maxVarInt8; lia|].
  destruct (marshalVarintParam_defined [] activeConnectionIDLimitParameterID
              (ActiveConnectionIDLimit p)) as (r7 & M7);
    [id_range|unfold maxVarInt8; lia|].
  exists ([x01] ++ r1 ++ r2 ++ r3 ++ r4 ++ r5 ++ r6 ++ r7 ++ []).
  split.
  - unfold MarshalForSessionTicket.
    rewrite !to_uint64_small by lia.
    change (WriteVarInt b transportParameterMarshalingVersion) with (Some (b ++ [x01])).
    cbn [obind].
    rewrite (marshalVarintParam_app _ _ _ _ M1). cbn [obind].
    rewrite (marshalVarintParam_app _ _ _ _ M2). cbn [obind].
    rewrite (marshalVarintParam_app _ _ _ _ M3). cbn [obind].
    rewrite (marshalVarintParam_app _ _ _ _ M4). cbn [obind].
    rewrite (marshalVarintParam_app _ _ _ _ M5). cbn [obind].
    rewrite (marshalVarintParam_app _ _ _ _ M6). cbn [obind].
    rewrite (marshalVarintParam_app _ _ _ _ M7).
    rewrite app_nil_r, <- !app_assoc. reflexivity.
  - unfold UnmarshalFromSessionTicket.
    rewrite (ReadVarInt_encodeVarInt 1 [x01]); [|lia|reflexivity].
    change (negb (1 =? transportParameterMarshalingVersion)) with false. cbv iota.
    unfold Unmarshal, unmarshal.
    loop_numeric M1. loop_numeric M2. loop_numeric M3. loop_numeric M4.
    loop_numeric M5. loop_numeric M6. loop_numeric M7.
    cbn [length unmarshal_loop]. unfold unmarshal_finish.
    cbn -[Z.pow]. rewrite !wrap_int64_small by lia. reflexivity.
Qed.

(** ** The records that are not numeric *)

Lemma unmarshal_switch_other sentBy st paramID paramLen r :
  mem paramID numericParameterIDs = false ->
  unmarshal_switch sentBy st paramID paramLen r =
    if len r <? paramLen then Err (ErrRemainingLength (len r) paramLen)
    else if paramID =? preferredAddressParameterID then
      if Perspective_eqb sentBy PerspectiveClient
      then Err ErrClientSentPreferredAddress
      else
        '(p, r) <- readPreferredAddress (receiver st) r paramLen ;;
        Ok (with_receiver p st, r)
    else if paramID =? disableActiveMigrationParameterID then
      if negb (paramLen =? 0)
      then Err (ErrWrongLengthDisableActiveMigration paramLen)
      else Ok (with_receiver (set_DisableActiveMigration true (receiver st)) st, r)
    else if paramID =? statelessResetTokenParameterID then
      if Perspective_eqb sentBy PerspectiveClient
      then Err ErrClientSentStatelessResetToken
      else if negb (paramLen =? 16)
      then Err (ErrWrongLengthStatelessResetToken paramLen)
      else
        let '(token, r) := Read r 16 in
        Ok (with_receiver (set_StatelessResetToken (Some token) (receiver st)) st, r)
    else if paramID =? originalConnectionIDParameterID then
      if Perspective_eqb sentBy PerspectiveClient
      then Err ErrClientSentOriginalConnectionID
      else
        let '(connID, r) :=
          match ReadConnectionID r paramLen with
          | Ok x => x
          | Err _ => ([], [])
          end in
        Ok (with_receiver (set_OriginalConnectionID connID (receiver st)) st, r)
    else Ok (st, Seek r paramLen).
Proof.
  intros H. unfold numericParameterIDs in H. cbn [mem existsb] in H.
  apply orb_false_elim in H. destruct H as [H10 H].
  apply orb_false_elim in H. destruct H as [H11 H].
  unfold unmarshal_switch. rewrite H10, H11.
  change (existsb (Z.eqb paramID) plainNumericParameterIDs)
    with (mem paramID plainNumericParameterIDs) in H.
  rewrite H. reflexivity.
Qed.

Lemma len_firstn_skipn (payload rest : list byte) :
  skipn (Z.to_nat (len payload)) (payload ++ rest) = rest.
Proof. apply skipn_prefix. reflexivity. Qed.

(** A record with an identifier that the decoder does not know is skipped. *)
Lemma unmarshal_switch_unknown sentBy st paramID payload rest :
  14 < paramID ->
  unmarshal_switch sentBy st paramID (len payload) (payload ++ rest) = Ok (st, rest).
Proof.
  intros Hid. rewrite unmarshal_switch_other.
  - rewrite len_app. pose proof (len_nonneg rest).
    destruct (Z.ltb_spec (len payload + len rest) (len payload)); [lia|].
    unfold preferredAddressParameterID, disableActiveMigrationParameterID,
      statelessResetTokenParameterID, originalConnectionIDParameterID.
    destruct (Z.eqb_spec paramID 13); [lia|]. destruct (Z.eqb_spec paramID 12); [lia|].
    destruct (Z.eqb_spec paramID 2); [lia|]. destruct (Z.eqb_spec paramID 0); [lia|].
    unfold Seek. rewrite len_firstn_skipn. reflexivity.
  - apply mem_not_In. unfold_ids. cbn [In]. lia.
Qed.

Lemma unmarshal_switch_disableActiveMigration sentBy st rest :
  unmarshal_switch sentBy st disableActiveMigrationParameterID 0 rest =
    Ok (with_receiver (set_DisableActiveMigration true (receiver st)) st, rest).
Proof.
  rewrite unmarshal_switch_other by reflexivity.
  pose proof (len_nonneg rest). destruct (Z.ltb_spec (len rest) 0); [lia|]. reflexivity.
Qed.

Lemma Read_app (token rest : list byte) :
  Read (token ++ rest) (length token) = (token, rest).
Proof.
  unfold Read. rewrite firstn_app, firstn_all, Nat.sub_diag, skipn_app, skipn_all,
    Nat.sub_diag. cbn. rewrite app_nil_r, Nat.sub_diag. cbn. rewrite app_nil_r.
  reflexivity.
Qed.

Lemma unmarshal_switch_statelessResetToken st token rest :
  len token = 16 ->
  unmarshal_switch PerspectiveServer st statelessResetTokenParameterID 16 (token ++ rest) =
    Ok (with_receiver (set_StatelessResetToken (Some token) (receiver st)) st, rest).
Proof.
  intros Hl. rewrite unmarshal_switch_other by reflexivity.
  rewrite len_app. pose proof (len_nonneg rest).
  destruct (Z.ltb_spec (len token + len rest) 16); [lia|].
  cbn [Z.eqb Pos.eqb statelessResetTokenParameterID preferredAddressParameterID
       disableActiveMigrationParameterID Perspective_eqb negb].
  replace 16%nat with (length token) by (unfold len in Hl; lia).
  rewrite Read_app. reflexivity.
Qed.

Lemma unmarshal_switch_originalConnectionID st connID rest :
  unmarshal_switch PerspectiveServer st originalConnectionIDParameterID (len connID)
      (connID ++ rest) =
    Ok (with_receiver (set_OriginalConnectionID connID (receiver st)) st, rest).
Proof.
  rewrite unmarshal_switch_other by reflexivity.
  rewrite len_app. pose proof (len_nonneg rest).
  destruct (Z.ltb_spec (len connID + len rest) (len connID)); [lia|].
  cbn [Z.eqb Pos.eqb originalConnectionIDParameterID statelessResetTokenParameterID
       preferredAddressParameterID disableActiveMigrationParameterID Perspective_eqb].
  rewrite ReadConnectionID_app. reflexivity.
Qed.

Lemma ReadFull_exact (pre rest : list byte) (n : nat) :
  len pre = Z.of_nat n -> ReadFull (pre ++ rest) n = Ok (pre, rest).
Proof.
  unfold len. intros H. apply Nat2Z.inj in H. subst n. apply ReadFull_app.
Qed.

Lemma ReadUint16_WriteUint16 (i : Z) (rest : list byte) :
  0 <= i < 2 ^ 16 ->
  ReadUint16 ([uint8 (Z.shiftr i 8); uint8 i] ++ rest) = Ok (i, rest).
Proof.
  intros Hi. unfold ReadUint16. cbn [app ReadByte bind].
  rewrite shiftr_byte, byte_val_uint8, Z.shiftl_mul_pow2 by lia.
  change (2 ^ 16) with 65536 in Hi. pow2.
  f_equal. f_equal. Z.div_mod_to_equations. lia.
Qed.

(** The bytes [Marshal] writes for a preferred address. *)
Lemma preferredAddressBytes_len pa :
  PreferredAddress_wf pa ->
  len (preferredAddressBytes pa) = 41 + len (ConnectionID_ pa).
Proof.
  intros (H4 & Hp4 & H6 & Hp6 & Hc & Ht). unfold preferredAddressBytes.
  rewrite !len_app. unfold len in *. cbn [length]. lia.
Qed.

Lemma readPreferredAddress_bytes p pa rest :
  PreferredAddress_wf pa ->
  readPreferredAddress p (preferredAddressBytes pa ++ rest)
      (len (preferredAddressBytes pa)) =
    Ok (set_PreferredAddress (Some pa) p, rest).
Proof.
  intros Hwf. pose proof (preferredAddressBytes_len pa Hwf) as Hlen.
  destruct Hwf as (H4 & Hp4 & H6 & Hp6 & Hc & Ht).
  unfold readPreferredAddress. rewrite Hlen. unfold preferredAddressBytes.
  rewrite <- !app_assoc.
  rewrite (ReadFull_exact (IPv4 pa)) by exact H4. cbn [bind].
  rewrite (ReadUint16_WriteUint16 _ _ Hp4). cbn [bind].
  rewrite (ReadFull_exact (IPv6 pa)) by exact H6. cbn [bind].
  rewrite (ReadUint16_WriteUint16 _ _ Hp6). cbn [bind app ReadByte].
  pose proof (len_nonneg (ConnectionID_ pa)).
  rewrite byte_val_small by lia.
  rewrite ReadConnectionID_app. cbn [bind].
  rewrite (ReadFull_exact (StatelessResetToken_ pa)) by exact Ht. cbn [bind].
  match goal with |- (if negb (?a =? ?b) then _ else _) = _ =>
    replace (a =? b) with true
      by (symmetry; apply Z.eqb_eq; unfold len in *;
          repeat (rewrite ?length_app; cbn [length]); lia) end.
  cbn [negb]. destruct pa; reflexivity.
Qed.

Lemma unmarshal_switch_preferredAddress st pa rest :
  PreferredAddress_wf pa ->
  unmarshal_switch PerspectiveServer st preferredAddressParameterID
      (len (preferredAddressBytes pa)) (preferredAddressBytes pa ++ rest) =
    Ok (with_receiver (set_PreferredAddress (Some pa) (receiver st)) st, rest).
Proof.
  intros Hwf. rewrite unmarshal_switch_other by reflexivity.
  rewrite len_app. pose proof (len_nonneg rest).
  destruct (Z.ltb_spec (len (preferredAddressBytes pa) + len rest)
              (len (preferredAddressBytes pa))); [lia|].
  cbn [Z.eqb Pos.eqb preferredAddressParameterID Perspective_eqb].
  rewrite (readPreferredAddress_bytes (receiver st) pa rest Hwf).
  reflexivity.
Qed.

(** ** Well-formed records *)

Lemma readNumeric_switch_wf p id val :
  mem id numericParameterIDs = true ->
  (id = maxPacketSizeParameterID -> 1200 <= val) ->
  (id = ackDelayExponentParameterID -> val <= MaxAckDelayExponent) ->
  (id = maxAckDelayParameterID -> duration_of_ms val < MaxMaxAckDelay) ->
  exists p', readNumeric_switch p id val = Ok p'.
Proof.
  intros Hnum H3 H10 H11. apply mem_In in Hnum.
  unfold numericParameterIDs, plainNumericParameterIDs in Hnum. cbn [In] in Hnum.
  destruct Hnum as [<-|[<-|[<-|[<-|[<-|[<-|[<-|[<-|[<-|[<-|[<-|[]]]]]]]]]]]].
  - rewrite switch_ackDelayExponent.
    destruct (Z.gtb_spec val MaxAckDelayExponent); [specialize (H10 eq_refl); lia|eauto].
  - rewrite switch_maxAckDelay.
    destruct (Z.geb_spec (duration_of_ms val) MaxMaxAckDelay);
      [specialize (H11 eq_refl); lia|eauto].
  - eexists; reflexivity.
  - eexists; reflexivity.
  - eexists; reflexivity.
  - eexists; reflexivity.
  - eexists; reflexivity.
  - eexists; reflexivity.
  - eexists; reflexivity.
  - rewrite switch_maxPacketSize.
    destruct (Z.ltb_spec val 1200); [specialize (H3 eq_refl); lia|eauto].
  - eexists; reflexivity.
Qed.

(** The decoder accepts a well-formed record of a server. *)
Lemma unmarshal_switch_wf st id payload rest :
  record_wf (id, payload) ->
  exists st',
    unmarshal_switch PerspectiveServer st id (len payload) (payload ++ rest) =
      Ok (st', rest).
Proof.
  unfold record_wf. destruct (mem id numericParameterIDs) eqn:Hnum.
  - intros (val & Hread & H3 & H10 & H11).
    rewrite (unmarshal_switch_numeric _ _ _ _ _ Hnum).
    rewrite (readNumericTransportParameter_payload _ _ _ _ _ Hread).
    destruct (readNumeric_switch_wf (receiver st) id val Hnum H3 H10 H11) as (p' & ->).
    eauto.
  - destruct (Z.eqb_spec id disableActiveMigrationParameterID) as [->|E12].
    { intros ->. rewrite unmarshal_switch_disableActiveMigration. eauto. }
    destruct (Z.eqb_spec id statelessResetTokenParameterID) as [->|E2].
    { intros Hl. rewrite Hl, unmarshal_switch_statelessResetToken by exact Hl. eauto. }
    destruct (Z.eqb_spec id preferredAddressParameterID) as [->|E13].
    { intros (pa & Hwf & ->). rewrite unmarshal_switch_preferredAddress by exact Hwf.
      eauto. }
    intros _.
    destruct (Z.eqb_spec id originalConnectionIDParameterID) as [->|E0].
    { rewrite unmarshal_switch_originalConnectionID. eauto. }
    rewrite (unmarshal_switch_other _ _ _ _ _ Hnum). rewrite len_app.
    pose proof (len_nonneg rest).
    destruct (Z.ltb_spec (len payload + len rest) (len payload)); [lia|].
    destruct (Z.eqb_spec id preferredAddressParameterID); [contradiction|].
    destruct (Z.eqb_spec id disableActiveMigrationParameterID); [contradiction|].
    destruct (Z.eqb_spec id statelessResetTokenParameterID); [contradiction|].
    destruct (Z.eqb_spec id originalConnectionIDParameterID); [contradiction|].
    unfold Seek. rewrite len_firstn_skipn. eauto.
Qed.

(** The loop of the decoder runs to the end of a sequence of well-formed
    records of a server. *)
Lemma unmarshal_loop_wf fuel : forall st r recs,
  records_fuel fuel r = Some recs -> Forall record_wf recs ->
  exists st', unmarshal_loop fuel PerspectiveServer st r = WalkDone st'.
Proof.
  induction fuel as [|fuel IH]; intros st r recs Hrec Hwf.
  - destruct r; [eexists; reflexivity|discriminate Hrec].
  - destruct r as [|b r]; [eexists; reflexivity|].
    cbn [unmarshal_loop records_fuel] in *. unfold unmarshal_record.
    destruct (ReadVarInt (b :: r)) as [[paramID r1]|e] eqn:E1; [|discriminate].
    cbn [bind].
    destruct (ReadVarInt r1) as [[paramLen r2]|e] eqn:E2; [|discriminate].
    cbn [bind]. cbv zeta.
    destruct (Z.ltb_spec (len r2) paramLen) as [Hl|Hl]; [discriminate|].
    destruct (records_fuel fuel (skipn (Z.to_nat paramLen) r2)) as [recs'|] eqn:R;
      [|discriminate].
    apply Some_inj in Hrec. subst recs.
    apply Forall_cons_iff in Hwf. destruct Hwf as [Hwf1 Hwf].
    assert (H0 : 0 <= paramLen).
    { apply ReadVarInt_suffix in E2. destruct E2 as (_ & _ & _ & ?). lia. }
    assert (Hlen : len (firstn (Z.to_nat paramLen) r2) = paramLen)
      by (unfold len in *; rewrite firstn_length_le; lia).
    match goal with
    | |- context [unmarshal_switch PerspectiveServer ?s paramID paramLen r2] =>
        destruct (unmarshal_switch_wf s paramID (firstn (Z.to_nat paramLen) r2)
                    (skipn (Z.to_nat paramLen) r2) Hwf1) as (st1 & Hsw)
    end.
    rewrite firstn_skipn, Hlen in Hsw. rewrite Hsw.
    exact (IH _ _ _ R Hwf).
Qed.

(** C4: an input that is a well-formed sequence of records, each record
    well formed for its parameter and no identifier twice, one of them a
    preferred_address, stateless_reset_token or original_connection_id
    record, decodes successfully when the sender is the server and fails
    with one of the three role errors when the sender is the client,
    whatever the receiver holds. *)
Theorem Unmarshal_role_gating p data recs :
  records data = Some recs ->
  well_formed recs ->
  (exists id, In id (map fst recs) /\ In id serverOnlyParameterIDs) ->
  (exists p', Unmarshal p data PerspectiveServer = Some (p', None)) /\
  exists q e,
    Unmarshal p data PerspectiveClient = Some (q, Some (TransportParameterError e)) /\
    role_violation e = true.
Proof.
  intros Hrec [Hnd Hwf] (id & Hin & Hgated).
  destruct (unmarshal_loop_wf _ (initial_state p) _ _ Hrec Hwf) as (st & Hloop).
  split.
  - destruct (unmarshal_loop_done _ _ _ _ _ Hloop) as (recs' & Hrec' & Hids & _).
    unfold records in Hrec. rewrite Hrec in Hrec'. apply Some_inj in Hrec'.
    subst recs'. cbn [initial_state parameterIDs app] in Hids.
    exists (fst (unmarshal_finish st)).
    unfold Unmarshal, unmarshal. rewrite Hloop. unfold unmarshal_finish.
    rewrite Hids. rewrite (proj2 (firstRepeated_sortIDs_None _) Hnd). reflexivity.
  - pose proof (unmarshal_loop_client _ _ _ _ _ Hloop Hrec) as Hc.
    assert (Hex : existsb (fun id => mem id serverOnlyParameterIDs) (map fst recs)
                  = true).
    { apply existsb_exists. exists id. split; [exact Hin|]. apply mem_In. exact Hgated. }
    rewrite Hex in Hc. destruct Hc as (st2 & e & Hc & He).
    exists (receiver st2), e. split; [|exact He].
    unfold Unmarshal, unmarshal. rewrite Hc. reflexivity.
Qed.
Lemma varintBytes_ok i : i <= maxVarInt8 -> encodeVarInt i = Some (varintBytes i).
Proof.
  intros H. unfold varintBytes.
  destruct (encodeVarInt_defined i H) as (e & ->). reflexivity.
Qed.

Lemma numericRecordBytes_ok id val :
  0 <= id <= maxVarInt8 -> val <= maxVarInt8 ->
  marshalVarintParam [] id val = Some (numericRecordBytes id val).
Proof.
  intros Hid Hval. unfold numericRecordBytes.
  destruct (marshalVarintParam_defined [] id val Hid Hval) as (r & ->). reflexivity.
Qed.

Lemma WriteVarInt_varintBytes b i :
  i <= maxVarInt8 -> WriteVarInt b i = Some (b ++ varintBytes i).
Proof. intros H. unfold WriteVarInt. rewrite (varintBytes_ok i H). reflexivity. Qed.

Lemma marshalVarintParam_numericRecordBytes b id val :
  0 <= id <= maxVarInt8 -> val <= maxVarInt8 ->
  marshalVarintParam b id val = Some (b ++ numericRecordBytes id val).
Proof.
  intros Hid Hval. apply marshalVarintParam_app, numericRecordBytes_ok; assumption.
Qed.

Lemma quot_ms_range d : 0 <= d < 2 ^ 63 -> 0 <= Z.quot d Millisecond <= maxVarInt8.
Proof.
  intros H. unfold Millisecond, maxVarInt8. rewrite Z.quot_div_nonneg by lia.
  change (2 ^ 63) with 9223372036854775808 in H.
  Z.div_mod_to_equations. lia.
Qed.

Lemma duration_of_quot d :
  0 <= d < 2 ^ 63 ->
  duration_of_ms (Z.quot d Millisecond) = truncate_ms d /\ 0 <= truncate_ms d <= d.
Proof.
  intros H. unfold truncate_ms.
  rewrite Z.quot_div_nonneg by (unfold Millisecond; lia).
  assert (E : 0 <= d / Millisecond * Millisecond <= d).
  { pose proof (Z.div_mod d Millisecond). unfold Millisecond in *.
    pose proof (Z.mod_pos_bound d 1000000). lia. }
  split; [|exact E].
  apply duration_of_ms_exact; [|lia].
  apply Z.div_pos; unfold Millisecond; lia.
Qed.

(** For a valid parameter set [Marshal] does not panic and writes the
    records in the order of [marshalled]. *)
Lemma opt_numeric_bytes (c : bool) b id val :
  0 <= id <= maxVarInt8 -> val <= maxVarInt8 ->
  (if c then marshalVarintParam b id val else Some b) =
    Some (b ++ (if c then numericRecordBytes id val else [])).
Proof.
  intros. destruct c.
  - apply marshalVarintParam_numericRecordBytes; assumption.
  - rewrite app_nil_r. reflexivity.
Qed.

Lemma piece_disableActiveMigration (c : bool) (b : Buffer) :
  (if c
   then b' <~ WriteVarInt b 12 ;; WriteVarInt b' 0
   else Some b) =
  Some (b ++ (if c then varintBytes disableActiveMigrationParameterID ++ varintBytes 0
              else [])).
Proof.
  destruct c.
  - rewrite WriteVarInt_varintBytes by (unfold maxVarInt8; lia). cbn [obind].
    rewrite WriteVarInt_varintBytes by (unfold maxVarInt8; lia).
    rewrite <- app_assoc. reflexivity.
  - rewrite app_nil_r. reflexivity.
Qed.

Lemma piece_statelessResetToken (o : option (list byte)) (b : Buffer) :
  match o with
  | Some token =>
    b' <~ WriteVarInt b 2 ;; b' <~ WriteVarInt b' 16 ;; Some (b' ++ token)
  | None => Some b
  end =
  Some (b ++ match o with
             | Some token =>
                 varintBytes statelessResetTokenParameterID ++ varintBytes 16 ++ token
             | None => []
             end).
Proof.
  destruct o.
  - rewrite WriteVarInt_varintBytes by (unfold maxVarInt8; lia). cbn [obind].
    rewrite WriteVarInt_varintBytes by (unfold maxVarInt8; lia). cbn [obind].
    rewrite <- !app_assoc. reflexivity.
  - rewrite app_nil_r. reflexivity.
Qed.

Lemma lastFourBytes_wf pa :
  PreferredAddress_encodable pa -> PreferredAddress_wf (lastFourBytes pa).
Proof.
  intros (H4' & Hp4 & H6' & Hp6 & Hc & Ht).
  unfold PreferredAddress_wf, lastFourBytes.
  cbn [IPv4 IPv4Port IPv6 IPv6Port ConnectionID_ StatelessResetToken_].
  repeat split; try assumption; try lia.
  unfold len in *. rewrite length_skipn. lia.
Qed.

Lemma piece_preferredAddress (o : option PreferredAddress) (b : Buffer) :
  (forall pa, o = Some pa -> PreferredAddress_encodable pa) ->
  match o with
  | Some pa =>
    b' <~ WriteVarInt b 13 ;;
    b' <~ WriteVarInt b'
            (to_uint64 (4 + 2 + 16 + 2 + 1
                        + to_uint64 (len (ConnectionID_ pa)) + 16)) ;;
    let ipv4 := IPv4 pa in
    if len ipv4 <? 4 then None
    else
      let b' := b' ++ skipn (length ipv4 - 4) ipv4 in
      let b' := WriteUint16 b' (IPv4Port pa) in
      let b' := b' ++ IPv6 pa in
      let b' := WriteUint16 b' (IPv6Port pa) in
      let b' := b' ++ [uint8 (len (ConnectionID_ pa))] in
      let b' := b' ++ ConnectionID_ pa in
      Some (b' ++ StatelessResetToken_ pa)
  | None => Some b
  end =
  Some (b ++ match o with
             | Some pa =>
                 varintBytes preferredAddressParameterID ++
                 varintBytes (len (preferredAddressBytes (lastFourBytes pa))) ++
                 preferredAddressBytes (lastFourBytes pa)
             | None => []
             end).
Proof.
  intros Hpa. destruct o as [pa|]; [|rewrite app_nil_r; reflexivity].
  specialize (Hpa pa eq_refl).
  pose proof (preferredAddressBytes_len _ (lastFourBytes_wf pa Hpa)) as Hlen.
  cbn [lastFourBytes ConnectionID_] in Hlen.
  destruct Hpa as (H4' & Hp4 & H6' & Hp6 & Hc & Ht).
  pose proof (len_nonneg (ConnectionID_ pa)).
  rewrite WriteVarInt_varintBytes by (unfold maxVarInt8; lia). cbn [obind].
  rewrite (to_uint64_small (len (ConnectionID_ pa))) by lia.
  rewrite to_uint64_small by lia.
  rewrite WriteVarInt_varintBytes by (unfold maxVarInt8; lia). cbn [obind]. cbv zeta.
  destruct (Z.ltb_spec (len (IPv4 pa)) 4); [lia|].
  rewrite Hlen. unfold WriteUint16, preferredAddressBytes, lastFourBytes.
  cbn [IPv4 IPv4Port IPv6 IPv6Port ConnectionID_ StatelessResetToken_].
  replace (4 + 2 + 16 + 2 + 1 + len (ConnectionID_ pa) + 16)
    with (41 + len (ConnectionID_ pa)) by lia.
  rewrite <- !app_assoc. reflexivity.
Qed.

Lemma piece_originalConnectionID (connID : ConnectionID) (b : Buffer) :
  len connID <= maxVarInt8 ->
  (if len connID >? 0
   then b' <~ WriteVarInt b 0 ;;
        b' <~ WriteVarInt b' (to_uint64 (len connID)) ;;
        Some (b' ++ connID)
   else Some b) =
  Some (b ++ (if len connID >? 0
              then varintBytes originalConnectionIDParameterID ++
                   varintBytes (len connID) ++ connID
              else [])).
Proof.
  intros Hl. destruct (len connID >? 0); [|rewrite app_nil_r; reflexivity].
  pose proof (len_nonneg connID). unfold maxVarInt8 in Hl.
  rewrite to_uint64_small by lia.
  rewrite WriteVarInt_varintBytes by (unfold maxVarInt8; lia). cbn [obind].
  rewrite WriteVarInt_varintBytes by (unfold maxVarInt8; lia). cbn [obind].
  rewrite <- !app_assoc. reflexivity.
Qed.

Lemma Marshal_marshalled p grease randomData :
  0 <= MaxReceivePacketSize <= maxVarInt8 ->
  valid p -> grease_draw grease randomData ->
  Marshal p grease randomData = Some (marshalled p grease randomData).
Proof.
  intros Hrecv Hv [Hg Hrd].
  destruct Hv as (H1 & H2 & H3 & H4 & H5 & H6 & H7 & Hidle & (Hmad & _) &
                  (Hade & _) & Htok & Hpa & Hodcid).
  unfold varint_range, maxVarInt8 in *.
  pose proof (quot_ms_range _ Hidle) as Qidle.
  pose proof (quot_ms_range _ Hmad) as Qmad. unfold maxVarInt8 in *.
  unfold Marshal, marshalled.
  rewrite !to_uint64_small by lia.
  rewrite WriteVarInt_varintBytes by (unfold maxVarInt8; lia). cbn [obind].
  rewrite WriteVarInt_varintBytes by (unfold maxVarInt8; lia). cbn [obind].
  do 8 (rewrite marshalVarintParam_numericRecordBytes
          by (first [id_range | unfold maxVarInt8; lia]); cbn [obind]).
  do 2 (rewrite opt_numeric_bytes by (first [id_range | unfold maxVarInt8; lia]);
        cbn [obind]).
  change (to_uint64 disableActiveMigrationParameterID) with 12.
  change (to_uint64 statelessResetTokenParameterID) with 2.
  change (to_uint64 preferredAddressParameterID) with 13.
  change (to_uint64 originalConnectionIDParameterID) with 0.
  rewrite piece_disableActiveMigration. cbn [obind].
  rewrite piece_statelessResetToken. cbn [obind].
  rewrite (piece_preferredAddress _ _ Hpa). cbn [obind].
  rewrite piece_originalConnectionID by (unfold maxVarInt8; lia). cbn [obind].
  rewrite marshalVarintParam_numericRecordBytes
    by (first [id_range | unfold maxVarInt8; lia]). cbn [obind].
  rewrite app_nil_r, <- !app_assoc. reflexivity.
Qed.

(** The loop over the records of [marshalled]. *)
Lemma unmarshal_loop_header sentBy st st' id payload rest fuel :
  0 <= id <= maxVarInt8 -> len payload <= maxVarInt8 ->
  unmarshal_switch sentBy
    {| receiver := receiver st;
       parameterIDs := parameterIDs st ++ [id];
       readAckDelayExponent := readAckDelayExponent st;
       readMaxAckDelay := readMaxAckDelay st |}
    id (len payload) (payload ++ rest) = Ok (st', rest) ->
  (length ((varintBytes id ++ varintBytes (len payload) ++ payload) ++ rest) <= fuel)%nat ->
  unmarshal_loop fuel sentBy st
      ((varintBytes id ++ varintBytes (len payload) ++ payload) ++ rest) =
    unmarshal_loop (length rest) sentBy st' rest.
Proof.
  intros Hid Hl Hsw Hfuel. apply unmarshal_loop_step; [assumption|].
  rewrite <- !app_assoc.
  rewrite (unmarshal_record_header _ _ id); [exact Hsw|lia| |].
  - apply varintBytes_ok. lia.
  - apply varintBytes_ok. assumption.
Qed.

Lemma unmarshal_loop_numericRecordBytes sentBy st id val rest p1 fuel :
  0 <= id <= maxVarInt8 -> 0 <= val <= maxVarInt8 ->
  mem id numericParameterIDs = true ->
  readNumeric_switch (receiver st) id val = Ok p1 ->
  (length (numericRecordBytes id val ++ rest) <= fuel)%nat ->
  unmarshal_loop fuel sentBy st (numericRecordBytes id val ++ rest) =
    unmarshal_loop (length rest) sentBy
      {| receiver := p1;
         parameterIDs := parameterIDs st ++ [id];
         readAckDelayExponent :=
           readAckDelayExponent st || (id =? ackDelayExponentParameterID);
         readMaxAckDelay :=
           readMaxAckDelay st || (id =? maxAckDelayParameterID) |} rest.
Proof.
  intros Hid Hval Hnum Hsw Hfuel.
  apply (unmarshal_loop_numeric _ _ id val); try assumption; try lia.
  - apply numericRecordBytes_ok; lia.
  - unfold maxVarInt8 in Hid. lia.
Qed.

Ltac simpl_state :=
  unfold with_receiver;
  cbn [receiver parameterIDs readAckDelayExponent readMaxAckDelay initial_state
       with_receiver app orb negb Z.eqb Pos.eqb
       originalConnectionIDParameterID maxIdleTimeoutParameterID
       statelessResetTokenParameterID maxPacketSizeParameterID
       initialMaxDataParameterID initialMaxStreamDataBidiLocalParameterID
       initialMaxStreamDataBidiRemoteParameterID initialMaxStreamDataUniParameterID
       initialMaxStreamsBidiParameterID initialMaxStreamsUniParameterID
       ackDelayExponentParameterID maxAckDelayParameterID
       disableActiveMigrationParameterID preferredAddressParameterID
       activeConnectionIDLimitParameterID].

Ltac numeric_step tac :=
  erewrite unmarshal_loop_numericRecordBytes;
    [|id_range|unfold maxVarInt8 in *; lia|reflexivity|cbn [receiver]; tac
     |apply Nat.le_refl];
  simpl_state.

Ltac header_step id payload tlen tac :=
  erewrite (unmarshal_loop_header _ _ _ id payload);
    [|unfold_ids; unfold maxVarInt8 in *; lia|tlen|tac|apply Nat.le_refl];
  simpl_state.

Lemma len_nil_le (l : list byte) : len l <= 0 -> l = [].
Proof. destruct l; [reflexivity|]. unfold len. cbn [length]. lia. Qed.

Lemma nodup_ids (gid : Z) (ids : list Z) :
  14 < gid -> forallb (fun id => id <=? 14) ids = true ->
  firstRepeated (sortIDs ids) = None ->
  firstRepeated (sortIDs (gid :: ids)) = None.
Proof.
  intros Hg Hall Hnd. apply firstRepeated_sortIDs_None.
  apply firstRepeated_sortIDs_None in Hnd. constructor; [|assumption].
  intros Hin. rewrite forallb_forall in Hall. apply Hall in Hin.
  apply Z.leb_le in Hin. lia.
Qed.

Lemma Unmarshal_marshalled p grease randomData sentBy :
  1200 <= MaxReceivePacketSize <= maxVarInt8 ->
  valid p -> grease_draw grease randomData ->
  sentBy = PerspectiveServer \/ no_server_only_field p ->
  Unmarshal zeroTransportParameters (marshalled p grease randomData) sentBy =
    Some ({| InitialMaxStreamDataBidiLocal := InitialMaxStreamDataBidiLocal p;
             InitialMaxStreamDataBidiRemote := InitialMaxStreamDataBidiRemote p;
             InitialMaxStreamDataUni := InitialMaxStreamDataUni p;
             InitialMaxData := InitialMaxData p;
             MaxAckDelay :=
               (if MaxAckDelay p =? DefaultMaxAckDelay then MaxAckDelay p
                else truncate_ms (MaxAckDelay p));
             AckDelayExponent := AckDelayExponent p;
             DisableActiveMigration := DisableActiveMigration p;
             MaxPacketSize := MaxReceivePacketSize;
             MaxUniStreamNum := MaxUniStreamNum p;
             MaxBidiStreamNum := MaxBidiStreamNum p;
             MaxIdleTimeout :=
               Z.max MinRemoteIdleTimeout (truncate_ms (MaxIdleTimeout p));
             PreferredAddress_ := option_map lastFourBytes (PreferredAddress_ p);
             StatelessResetToken := StatelessResetToken p;
             OriginalConnectionID := OriginalConnectionID p;
             ActiveConnectionIDLimit := ActiveConnectionIDLimit p |}, None).
Proof.
  intros Hrecv Hv [Hg Hrd] Hrole.
  destruct Hv as (H1 & H2 & H3 & H4 & H5 & H6 & H7 & Hidle &
                  (Hmad & Hmadv) & (Hade & Hadev) & Htok & Hpa & Hodcid).
  unfold varint_range, no_server_only_field in *.
  pose proof (quot_ms_range _ Hidle) as Qidle.
  pose proof (quot_ms_range _ Hmad) as Qmad.
  destruct p as [imsdbl imsdbr imsdu imd mad ade dam mps mus mbs idle pa tok odcid acil].
  cbn [InitialMaxStreamDataBidiLocal InitialMaxStreamDataBidiRemote
       InitialMaxStreamDataUni InitialMaxData MaxAckDelay AckDelayExponent
       DisableActiveMigration MaxPacketSize MaxUniStreamNum MaxBidiStreamNum
       MaxIdleTimeout PreferredAddress_ StatelessResetToken OriginalConnectionID
       ActiveConnectionIDLimit] in *.
  unfold Unmarshal, unmarshal, marshalled.
  cbn [InitialMaxStreamDataBidiLocal InitialMaxStreamDataBidiRemote
       InitialMaxStreamDataUni InitialMaxData MaxAckDelay AckDelayExponent
       DisableActiveMigration MaxPacketSize MaxUniStreamNum MaxBidiStreamNum
       MaxIdleTimeout PreferredAddress_ StatelessResetToken OriginalConnectionID
       ActiveConnectionIDLimit].
  header_step (27 + 31 * grease) randomData ltac:(unfold maxVarInt8; lia)
    ltac:(apply unmarshal_switch_unknown; lia).
  do 6 numeric_step ltac:(reflexivity).
  numeric_step ltac:(rewrite switch_maxIdleTimeout, (proj1 (duration_of_quot _ Hidle)),
                       MaxDuration_max; reflexivity).
  numeric_step ltac:(rewrite switch_maxPacketSize;
                     destruct (Z.ltb_spec MaxReceivePacketSize 1200); [lia|reflexivity]).
  (* max_ack_delay *)
  destruct (Z.eqb_spec mad DefaultMaxAckDelay) as [Emad|Emad]; simpl_state;
    [subst mad
    |numeric_step ltac:(
       assert (Hw : mad < MaxMaxAckDelay)
         by (destruct Hmadv as [?|?]; [contradiction|assumption]);
       destruct (duration_of_quot _ Hmad) as [Hq Hr];
       rewrite switch_maxAckDelay, Hq;
       destruct (Z.geb_spec (truncate_ms mad) MaxMaxAckDelay); [lia|];
       destruct (Z.ltb_spec (truncate_ms mad) 0); [lia|reflexivity])].
  (* ack_delay_exponent *)
  all: destruct (Z.eqb_spec ade DefaultAckDelayExponent) as [Eade|Eade]; simpl_state;
    [subst ade
    |numeric_step ltac:(
       rewrite switch_ackDelayExponent;
       destruct (Z.gtb_spec ade MaxAckDelayExponent);
         [destruct Hadev; [contradiction|lia]|];
       rewrite byte_val_small by lia; reflexivity)].
  (* disable_active_migration *)
  all: destruct dam; simpl_state;
    [change (varintBytes 12 ++ varintBytes 0)
       with (varintBytes 12 ++ varintBytes (len []) ++ []);
     header_step 12 (@nil byte) ltac:(unfold maxVarInt8, len; cbn; lia)
       ltac:(apply unmarshal_switch_disableActiveMigration)
    |].
  (* the parameters of the server *)
  all: destruct Hrole as [-> | (-> & -> & ->)];
    [|change (len (@nil byte) >? 0) with false; simpl_state].
  (* stateless_reset_token *)
  all: try (destruct tok as [t|]; simpl_state;
    [replace (varintBytes 16) with (varintBytes (len t))
       by (rewrite (Htok t eq_refl); reflexivity);
     header_step 2 t ltac:(rewrite (Htok t eq_refl); unfold maxVarInt8; lia)
       ltac:(rewrite (Htok t eq_refl);
             apply unmarshal_switch_statelessResetToken; apply Htok; reflexivity)
    |]).
  (* preferred_address *)
  all: try (destruct pa as [a|]; simpl_state;
    [header_step 13 (preferredAddressBytes (lastFourBytes a))
       ltac:(rewrite (preferredAddressBytes_len _ (lastFourBytes_wf a (Hpa a eq_refl)));
             destruct (Hpa a eq_refl) as (_ & _ & _ & _ & ? & _);
             cbn [lastFourBytes ConnectionID_]; unfold maxVarInt8; lia)
       ltac:(apply unmarshal_switch_preferredAddress; apply lastFourBytes_wf;
             apply Hpa; reflexivity)
    |]).
  (* original_connection_id *)
  all: try (destruct (Z.gtb_spec (len odcid) 0) as [Eo|Eo]; simpl_state;
    [header_step 0 odcid ltac:(assumption)
       ltac:(apply unmarshal_switch_originalConnectionID)
    |apply len_nil_le in Eo; subst odcid]).
  (* active_connection_id_limit and the end of the input *)
  all: numeric_step ltac:(reflexivity).
  all: cbn [length unmarshal_loop]; unfold unmarshal_finish;
    cbn [receiver parameterIDs readAckDelayExponent readMaxAckDelay negb].
  all: rewrite nodup_ids by (first [lia | vm_compute; reflexivity]).
  all: rewrite !wrap_int64_small by (unfold maxVarInt8 in *; lia).
  all: cbv [set_InitialMaxStreamDataBidiLocal set_InitialMaxStreamDataBidiRemote
            set_InitialMaxStreamDataUni set_InitialMaxData set_MaxAckDelay
            set_AckDelayExponent set_DisableActiveMigration set_MaxPacketSize
            set_MaxUniStreamNum set_MaxBidiStreamNum set_MaxIdleTimeout
            set_PreferredAddress set_StatelessResetToken set_OriginalConnectionID
            set_ActiveConnectionIDLimit zeroTransportParameters
            InitialMaxStreamDataBidiLocal InitialMaxStreamDataBidiRemote
            InitialMaxStreamDataUni InitialMaxData MaxAckDelay AckDelayExponent
            DisableActiveMigration MaxPacketSize MaxUniStreamNum MaxBidiStreamNum
            MaxIdleTimeout PreferredAddress_ StatelessResetToken OriginalConnectionID
            ActiveConnectionIDLimit option_map].
  all: destruct (Z.eqb_spec MaxReceivePacketSize 0); [lia|].
  all: reflexivity.
Qed.

(** C1 (amended): for every parameter set of the data model ([valid]: the
    seven integers at most 2^62-1, the two durations not negative, the max
    ack delay the default or below its maximum, the ack delay exponent the
    default or at most its maximum, the optional values of the sizes of
    their types), every draw of the grease record, and a sender role that is
    the server, or any role when the set holds no field that only a server
    may send, [Marshal] does not panic and [Unmarshal] decodes its bytes
    into a fresh value without error. The decoded value has the fields of
    the parameter set, the fields left out as defaults among them, with
    these exceptions: [MaxPacketSize] is [MaxReceivePacketSize], the value
    [Marshal] writes for it whatever the set holds; [MaxIdleTimeout] is the
    larger of [MinRemoteIdleTimeout] and the idle timeout of the set, cut to
    whole milliseconds; a max ack delay that is not the default is cut to
    whole milliseconds; and the IPv4 address of the preferred address is cut
    to its last four bytes. *)
Theorem Marshal_Unmarshal_round_trip p grease randomData sentBy :
  1200 <= MaxReceivePacketSize <= maxVarInt8 ->
  valid p -> grease_draw grease randomData ->
  sentBy = PerspectiveServer \/ no_server_only_field p ->
  exists data,
    Marshal p grease randomData = Some data /\
    Unmarshal zeroTransportParameters data sentBy =
      Some ({| InitialMaxStreamDataBidiLocal := InitialMaxStreamDataBidiLocal p;
               InitialMaxStreamDataBidiRemote := InitialMaxStreamDataBidiRemote p;
               InitialMaxStreamDataUni := InitialMaxStreamDataUni p;
               InitialMaxData := InitialMaxData p;
               MaxAckDelay :=
                 (if MaxAckDelay p =? DefaultMaxAckDelay then MaxAckDelay p
                  else truncate_ms (MaxAckDelay p));
               AckDelayExponent := AckDelayExponent p;
               DisableActiveMigration := DisableActiveMigration p;
               MaxPacketSize := MaxReceivePacketSize;
               MaxUniStreamNum := MaxUniStreamNum p;
               MaxBidiStreamNum := MaxBidiStreamNum p;
               MaxIdleTimeout :=
                 Z.max MinRemoteIdleTimeout (truncate_ms (MaxIdleTimeout p));
               PreferredAddress_ := option_map lastFourBytes (PreferredAddress_ p);
               StatelessResetToken := StatelessResetToken p;
               OriginalConnectionID := OriginalConnectionID p;
               ActiveConnectionIDLimit := ActiveConnectionIDLimit p |}, None).
Proof.
  intros Hrecv Hv Hg Hrole. exists (marshalled p grease randomData). split.
  - apply Marshal_marshalled; [lia|assumption|assumption].
  - apply Unmarshal_marshalled; assumption.
Qed.

End Decoder.

(** ** The 0-RTT compatibility check *)

(** C9: [ValidFor0RTT] holds exactly when the four flow-control limits and
    the two stream-count limits of the two parameter sets are equal; it does
    not depend on the order of its arguments; two sets that differ only in
    [MaxIdleTimeout] are compatible, and two sets that differ in
    [InitialMaxData] are not. *)
Theorem ValidFor0RTT_spec (p tp : TransportParameters) :
  (ValidFor0RTT p tp = true <->
   InitialMaxStreamDataBidiLocal p = InitialMaxStreamDataBidiLocal tp /\
   InitialMaxStreamDataBidiRemote p = InitialMaxStreamDataBidiRemote tp /\
   InitialMaxStreamDataUni p = InitialMaxStreamDataUni tp /\
   InitialMaxData p = InitialMaxData tp /\
   MaxBidiStreamNum p = MaxBidiStreamNum tp /\
   MaxUniStreamNum p = MaxUniStreamNum tp) /\
  ValidFor0RTT p tp = ValidFor0RTT tp p /\
  (forall d, ValidFor0RTT p (set_MaxIdleTimeout d p) = true) /\
  (forall v, v <> InitialMaxData p -> ValidFor0RTT p (set_InitialMaxData v p) = false).
Proof.
  unfold ValidFor0RTT. repeat apply conj.
  - intros H. rewrite !andb_true_iff, !Z.eqb_eq in H. tauto.
  - intros H. rewrite !andb_true_iff, !Z.eqb_eq. tauto.
  - rewrite (Z.eqb_sym (InitialMaxStreamDataBidiLocal p)),
      (Z.eqb_sym (InitialMaxStreamDataBidiRemote p)),
      (Z.eqb_sym (InitialMaxStreamDataUni p)), (Z.eqb_sym (InitialMaxData p)),
      (Z.eqb_sym (MaxBidiStreamNum p)), (Z.eqb_sym (MaxUniStreamNum p)).
    reflexivity.
  - intros d. cbn. rewrite !Z.eqb_refl. reflexivity.
  - intros v Hv. cbn. rewrite !Z.eqb_refl. cbn.
    destruct (Z.eqb_spec (InitialMaxData p) v); [congruence|reflexivity].
Qed.

(** * Further properties of the codec *)

Lemma uint8_mod (a b : Z) : a mod 256 = b mod 256 -> uint8 a = uint8 b.
Proof. unfold uint8. intros ->. reflexivity. Qed.

(** What [ReadUint16] has read is what [WriteUint16] writes for the result. *)
Lemma ReadUint16_bytes (r r' : Reader) (v : Z) :
  ReadUint16 r = Ok (v, r') ->
  r = [uint8 (Z.shiftr v 8); uint8 v] ++ r' /\ 0 <= v < 2 ^ 16.
Proof.
  unfold ReadUint16. destruct r as [|b2 [|b1 r2]]; cbn [ReadByte bind]; try discriminate.
  intros Hok. apply Ok_inj in Hok. apply pair_inj in Hok. destruct Hok as [Hv Hr].
  subst r2. pose proof (byte_val_range b1) as H1. pose proof (byte_val_range b2) as H2.
  rewrite Z.shiftl_mul_pow2 in Hv by lia. change (2 ^ 8) with 256 in Hv.
  assert (E1 : uint8 v = b1).
  { transitivity (uint8 (byte_val b1)); [|apply uint8_byte_val].
    apply uint8_mod. subst v. rewrite Z.mod_add by lia. reflexivity. }
  assert (E2 : uint8 (Z.shiftr v 8) = b2).
  { transitivity (uint8 (byte_val b2)); [|apply uint8_byte_val].
    apply uint8_mod. rewrite Z.shiftr_div_pow2 by lia. change (2 ^ 8) with 256. subst v.
    rewrite Z.div_add by lia. rewrite (Z.div_small (byte_val b1)) by lia.
    reflexivity. }
  rewrite E1, E2. split; [reflexivity|]. change (2 ^ 16) with 65536. lia.
Qed.

(** ** Errors of the readers *)

Lemma ReadByte_error (r : Reader) (e : error) : ReadByte r = Err e -> e = EOF.
Proof. destruct r; cbn; intros H; [|discriminate H]. congruence. Qed.

Lemma ReadVarInt_error (r : Reader) (e : error) : ReadVarInt r = Err e -> e = EOF.
Proof.
  unfold ReadVarInt. intros H.
  repeat match type of H with
         | context [ReadByte ?r] =>
             destruct r; cbn [ReadByte bind] in H; [congruence|]
         | context [if ?c then _ else _] => destruct c; [discriminate H|]
         end.
  discriminate H.
Qed.

Lemma ReadFull_error (r : Reader) (n : nat) (e : error) :
  ReadFull r n = Err e -> e = EOF \/ e = ErrUnexpectedEOF.
Proof.
  unfold ReadFull. destruct (n =? 0)%nat; [discriminate|].
  destruct (length r =? 0)%nat; [intros H; left; congruence|].
  destruct (length r <? n)%nat; [intros H; right; congruence|discriminate].
Qed.

Lemma ReadUint16_error (r : Reader) (e : error) : ReadUint16 r = Err e -> e = EOF.
Proof.
  unfold ReadUint16. destruct r as [|b1 [|b2 r]]; cbn [ReadByte bind]; intros H;
    try discriminate H; congruence.
Qed.

Lemma ReadConnectionID_error (r : Reader) (n : Z) (e : error) :
  ReadConnectionID r n = Err e -> e = EOF.
Proof.
  unfold ReadConnectionID. destruct (n =? 0); [discriminate|].
  destruct (ReadFull r (Z.to_nat n)) as [x|e'] eqn:E; [discriminate|].
  apply ReadFull_error in E. destruct E as [-> | ->]; intros H; congruence.
Qed.

Section Further.

Context {proto : Constants}.

(** ** The duplicate check *)

Lemma readNumericTransportParameter_error p r paramID expectedLen e :
  readNumericTransportParameter p r paramID expectedLen = Err e ->
  forall id, e <> ErrDuplicate id.
Proof.
  unfold readNumericTransportParameter, readNumeric_switch. intros H id.
  destruct (ReadVarInt r) as [[val r1]|e1]; [|congruence].
  repeat match type of H with
         | context [if ?c then _ else _] => destruct c
         end; congruence.
Qed.

Lemma readPreferredAddress_error p r expectedLen e :
  readPreferredAddress p r expectedLen = Err e -> forall id, e <> ErrDuplicate id.
Proof.
  unfold readPreferredAddress. intros H id.
  destruct (ReadFull r 4) as [[ipv4 r1]|e1] eqn:E1; cbn [bind] in H;
    [|apply ReadFull_error in E1; destruct E1; congruence].
  destruct (ReadUint16 r1) as [[port4 r2]|e2] eqn:E2; cbn [bind] in H;
    [|apply ReadUint16_error in E2; congruence].
  destruct (ReadFull r2 16) as [[ipv6 r3]|e3] eqn:E3; cbn [bind] in H;
    [|apply ReadFull_error in E3; destruct E3; congruence].
  destruct (ReadUint16 r3) as [[port6 r4]|e4] eqn:E4; cbn [bind] in H;
    [|apply ReadUint16_error in E4; congruence].
  destruct (ReadByte r4) as [[l r5]|e5] eqn:E5; cbn [bind] in H;
    [|apply ReadByte_error in E5; congruence].
  destruct (ReadConnectionID r5 (byte_val l)) as [[c r6]|e6] eqn:E6; cbn [bind] in H;
    [|apply ReadConnectionID_error in E6; congruence].
  destruct (ReadFull r6 16) as [[t r7]|e7] eqn:E7; cbn [bind] in H;
    [|apply ReadFull_error in E7; destruct E7; congruence].
  cbv zeta in H.
  destruct (negb _); congruence.
Qed.

Lemma unmarshal_switch_error sentBy st paramID paramLen r e :
  unmarshal_switch sentBy st paramID paramLen r = Err e ->
  forall id, e <> ErrDuplicate id.
Proof.
  unfold unmarshal_switch. intros H id. cbv zeta in H.
  repeat match type of H with
         | context [readNumericTransportParameter ?p ?r ?i ?l] =>
             let E := fresh "E" in
             destruct (readNumericTransportParameter p r i l) as [[? ?]|?] eqn:E;
               cbn [bind] in H;
               [try discriminate H
               |pose proof (readNumericTransportParameter_error _ _ _ _ _ E id);
                congruence]
         | context [readPreferredAddress ?p ?r ?l] =>
             let E := fresh "E" in
             destruct (readPreferredAddress p r l) as [[? ?]|?] eqn:E;
               cbn [bind] in H;
               [try discriminate H
               |pose proof (readPreferredAddress_error _ _ _ _ E id);
                congruence]
         | context [if ?c then _ else _] => destruct c
         | context [let '(_, _) := ?x in _] => destruct x
         end; try discriminate H; congruence.
Qed.

Lemma unmarshal_record_error sentBy st r e :
  unmarshal_record sentBy st r = Err e -> forall id, e <> ErrDuplicate id.
Proof.
  unfold unmarshal_record. intros H id.
  destruct (ReadVarInt r) as [[paramID r1]|e1] eqn:E1; cbn [bind] in H;
    [|apply ReadVarInt_error in E1; congruence].
  destruct (ReadVarInt r1) as [[paramLen r2]|e2] eqn:E2; cbn [bind] in H;
    [|apply ReadVarInt_error in E2; congruence].
  cbv zeta in H. exact (unmarshal_switch_error _ _ _ _ _ _ H id).
Qed.

Lemma unmarshal_loop_error sentBy fuel : forall st r st' e,
  unmarshal_loop fuel sentBy st r = WalkErr st' e -> forall id, e <> ErrDuplicate id.
Proof.
  induction fuel as [|fuel IH]; intros st r st' e H id.
  - destruct r; discriminate H.
  - destruct r as [|b r]; [discriminate H|]. cbn [unmarshal_loop] in H.
    destruct (unmarshal_record sentBy st (b :: r)) as [[st1 r1]|e1] eqn:E.
    + exact (IH _ _ _ _ H id).
    + assert (e1 = e) by congruence. subst e1.
      exact (unmarshal_record_error _ _ _ _ E id).
Qed.

Lemma firstRepeated_smallest l x :
  StronglySorted Z.le l -> firstRepeated l = Some x ->
  forall y, (2 <= count_occ Z.eq_dec l y)%nat -> x <= y.
Proof.
  induction l as [|a l IH]; intros Hs H y Hy; [discriminate H|].
  destruct l as [|b l]; [discriminate H|].
  apply StronglySorted_inv in Hs. destruct Hs as [Hs Ha].
  cbn [firstRepeated] in H.
  assert (Hin : In y (a :: b :: l)) by (apply (count_occ_In Z.eq_dec); lia).
  destruct (Z.eqb_spec a b) as [->|Hab].
  - apply Some_inj in H. subst x.
    destruct Hin as [->|Hin]; [lia|].
    rewrite Forall_forall in Ha. apply Ha. exact Hin.
  - apply IH; [assumption|assumption|].
    destruct (Z.eq_dec a y) as [->|Hay].
    + exfalso. rewrite count_occ_cons_eq in Hy by reflexivity.
      assert (Hin' : In y (b :: l)) by (apply (count_occ_In Z.eq_dec); lia).
      apply StronglySorted_inv in Hs. destruct Hs as [_ Hb].
      rewrite Forall_forall in Ha, Hb.
      pose proof (Ha b (or_introl eq_refl)) as Hyb.
      destruct Hin' as [->|Hin']; [congruence|].
      pose proof (Hb y Hin'). lia.
    + rewrite count_occ_cons_neq in Hy by assumption. exact Hy.
Qed.

(** X3: after a successful call the identifiers of the records of the input are
    pairwise distinct. The duplicate error is returned only for an input
    that is a sequence of records, each of which passed the checks of its
    iteration; the identifier it names occurs at least twice, and it is the
    smallest identifier that does, since the identifiers are sorted before
    they are compared. *)
Theorem Unmarshal_duplicate_check_exact p data sentBy p' oe :
  Unmarshal p data sentBy = Some (p', oe) ->
  match oe with
  | None => exists recs, records data = Some recs /\ NoDup (map fst recs)
  | Some (TransportParameterError (ErrDuplicate id)) =>
      exists recs,
        records data = Some recs /\
        (2 <= count_occ Z.eq_dec (map fst recs) id)%nat /\
        forall id', (2 <= count_occ Z.eq_dec (map fst recs) id')%nat -> id <= id'
  | Some _ => True
  end.
Proof.
  intros H. destruct oe as [e|].
  - destruct e as [| | | | | | | | | | | | | | | | |e]; try exact I.
    destruct e as [| | | | | | | |id| | | | | | | | |]; try exact I.
    apply Unmarshal_err in H. destruct H as (e' & He & H).
    assert (e' = ErrDuplicate id) by congruence. subst e'. clear He.
    unfold unmarshal in H.
    destruct (unmarshal_loop (length data) sentBy (initial_state p) data)
      as [st|st e|] eqn:E; [| |discriminate H].
    + destruct (unmarshal_loop_done _ _ _ _ _ E) as (recs & Hrec & Hids & _).
      cbn [initial_state parameterIDs app] in Hids.
      exists recs. split; [exact Hrec|].
      unfold unmarshal_finish in H. cbv zeta in H.
      destruct (firstRepeated (sortIDs (parameterIDs st))) as [x|] eqn:F.
      2:{ apply Some_inj in H. apply pair_inj in H. destruct H as [_ H].
          discriminate H. }
      assert (x = id).
      { apply Some_inj in H. apply pair_inj in H. destruct H as [_ H]. congruence. }
      subst x. rewrite <- Hids. split.
      * apply firstRepeated_sortIDs_Some. exact F.
      * intros id' Hid'.
        apply (firstRepeated_smallest _ _ (sortIDs_sorted _) F).
        rewrite (proj1 (Permutation_count_occ Z.eq_dec _ _) (sortIDs_perm _)).
        exact Hid'.
    + exfalso. apply (unmarshal_loop_error _ _ _ _ _ _ E id).
      apply Some_inj in H. apply pair_inj in H. destruct H as [_ H]. congruence.
  - apply Unmarshal_ok in H. apply unmarshal_success in H.
    destruct H as (st & recs & _ & Hrec & _ & Hnd & _).
    exists recs. split; assumption.
Qed.

(** ** Termination *)

(** X2: an iteration of the loop of [unmarshal] that does not fail leaves fewer
    bytes unread than it found, so the loop ends after at most [len(data)]
    iterations: [Unmarshal] and [UnmarshalFromSessionTicket] return, with a
    receiver and possibly an error, for every receiver, input and sender. *)
Theorem Unmarshal_always_returns p data sentBy :
  (forall st r st' r',
     unmarshal_record sentBy st r = Ok (st', r') -> (length r' < length r)%nat) /\
  unmarshal_loop (length data) sentBy (initial_state p) data <> WalkFuel /\
  (exists p' err, Unmarshal p data sentBy = Some (p', err)) /\
  (exists p' err, UnmarshalFromSessionTicket p data = Some (p', err)).
Proof.
  split; [intros st r st' r'; apply unmarshal_record_shrinks|].
  split; [apply unmarshal_loop_terminates; apply Nat.le_refl|].
  split; [apply Unmarshal_total|].
  unfold UnmarshalFromSessionTicket.
  destruct (ReadVarInt data) as [[version r]|e]; [|eauto].
  destruct (negb _); [eauto|]. apply Unmarshal_total.
Qed.

(** ** The sender role *)

Lemma unmarshal_switch_roles st paramID paramLen r :
  match unmarshal_switch PerspectiveClient st paramID paramLen r with
  | Ok x => unmarshal_switch PerspectiveServer st paramID paramLen r = Ok x
  | Err e =>
      role_violation e = true \/
      unmarshal_switch PerspectiveServer st paramID paramLen r = Err e
  end.
Proof.
  destruct (mem paramID numericParameterIDs) eqn:Hnum.
  - rewrite !(unmarshal_switch_numeric _ _ _ _ _ Hnum).
    destruct (readNumericTransportParameter _ _ _ _) as [[p1 r1]|e]; auto.
  - rewrite !(unmarshal_switch_other _ _ _ _ _ Hnum).
    cbn [Perspective_eqb].
    destruct (len r <? paramLen); [auto|].
    destruct (paramID =? preferredAddressParameterID); [left; reflexivity|].
    destruct (paramID =? disableActiveMigrationParameterID).
    { destruct (negb _); auto. }
    destruct (paramID =? statelessResetTokenParameterID); [left; reflexivity|].
    destruct (paramID =? originalConnectionIDParameterID); [left; reflexivity|].
    reflexivity.
Qed.

Lemma unmarshal_loop_roles fuel : forall st r,
  match unmarshal_loop fuel PerspectiveClient st r with
  | WalkErr st' e =>
      role_violation e = true \/
      unmarshal_loop fuel PerspectiveServer st r = WalkErr st' e
  | res => unmarshal_loop fuel PerspectiveServer st r = res
  end.
Proof.
  induction fuel as [|fuel IH]; intros st r.
  - destruct r; reflexivity.
  - destruct r as [|b r]; [reflexivity|]. cbn [unmarshal_loop].
    unfold unmarshal_record.
    destruct (ReadVarInt (b :: r)) as [[paramID r1]|e1]; cbn [bind]; [|auto].
    destruct (ReadVarInt r1) as [[paramLen r2]|e2]; cbn [bind]; [|auto].
    cbv zeta.
    match goal with
    | |- context [unmarshal_switch PerspectiveClient ?s ?i ?l ?x] =>
        pose proof (unmarshal_switch_roles s i l x) as Hsw;
        destruct (unmarshal_switch PerspectiveClient s i l x) as [[st1 r3]|e]
    end.
    + rewrite Hsw. apply IH.
    + destruct Hsw as [Hsw|Hsw]; [left; exact Hsw|right; rewrite Hsw; reflexivity].
Qed.

(** X4: the sender role only matters through the three role errors: an input
    that a client may send decodes to the same receiver when a server sends
    it, and an error that is not a role error is the same error, with the
    same receiver, for both senders. *)
Theorem Unmarshal_role_only_gates p data q oe :
  Unmarshal p data PerspectiveClient = Some (q, oe) ->
  (forall e, oe = Some (TransportParameterError e) -> role_violation e = false) ->
  Unmarshal p data PerspectiveServer = Some (q, oe).
Proof.
  intros H Hrole. unfold Unmarshal, unmarshal in *.
  pose proof (unmarshal_loop_roles (length data) (initial_state p) data) as L.
  destruct (unmarshal_loop (length data) PerspectiveClient (initial_state p) data)
    as [st|st e|].
  - rewrite L. exact H.
  - destruct L as [L|L]; [|rewrite L; exact H].
    apply Some_inj in H. apply pair_inj in H. destruct H as [_ H]. subst oe.
    rewrite (Hrole e eq_refl) in L. discriminate L.
  - discriminate H.
Qed.

(** ** Records at the start of the input *)

Lemma varintBytes_nonempty i : i <= maxVarInt8 -> varintBytes i <> [].
Proof.
  intros Hi E. pose proof (varintBytes_ok i Hi) as H.
  apply encodeVarInt_len in H. rewrite E in H. cbn in H. lia.
Qed.

Lemma ReadVarInt_varintBytes i rest :
  0 <= i <= maxVarInt8 -> ReadVarInt (varintBytes i ++ rest) = Ok (i, rest).
Proof.
  intros Hi. apply ReadVarInt_encodeVarInt; [lia|]. apply varintBytes_ok. lia.
Qed.

(** An iteration of the loop on an input that starts with the encodings of
    an identifier and of a length. *)
Lemma unmarshal_record_varints sentBy st id n r :
  0 <= id <= maxVarInt8 -> 0 <= n <= maxVarInt8 ->
  unmarshal_record sentBy st (varintBytes id ++ varintBytes n ++ r) =
    unmarshal_switch sentBy
      {| receiver := receiver st;
         parameterIDs := parameterIDs st ++ [id];
         readAckDelayExponent := readAckDelayExponent st;
         readMaxAckDelay := readMaxAckDelay st |} id n r.
Proof.
  intros Hid Hn. unfold unmarshal_record.
  rewrite (ReadVarInt_varintBytes id) by assumption. cbn [bind].
  rewrite (ReadVarInt_varintBytes n) by assumption. cbn [bind]. reflexivity.
Qed.

(** [Unmarshal] on an input whose first record fails. *)
Lemma Unmarshal_first_record_fails p sentBy id n r e :
  0 <= id <= maxVarInt8 -> 0 <= n <= maxVarInt8 ->
  unmarshal_switch sentBy
    {| receiver := p; parameterIDs := [id];
       readAckDelayExponent := false; readMaxAckDelay := false |} id n r = Err e ->
  Unmarshal p (varintBytes id ++ varintBytes n ++ r) sentBy =
    Some (p, Some (TransportParameterError e)).
Proof.
  intros Hid Hn Hsw. unfold Unmarshal, unmarshal.
  rewrite (unmarshal_loop_fail sentBy (initial_state p) _ e); [reflexivity|apply Nat.le_refl| |].
  - rewrite unmarshal_record_varints by assumption. exact Hsw.
  - intros E. apply app_eq_nil in E. destruct E as [E _].
    apply (varintBytes_nonempty id); [lia|exact E].
Qed.

Lemma numeric_id_range id : mem id numericParameterIDs = true -> 0 <= id <= 14.
Proof.
  intros H. apply mem_In in H. unfold_ids. cbn [In] in H. lia.
Qed.

(** X6: a record whose identifier is none of the eleven numeric ones and whose
    declared length exceeds what is left of the input is rejected with the
    remaining-length error, before the sender is looked at, whatever the
    identifier is; the receiver is unchanged. *)
Theorem Unmarshal_truncated_parameter p sentBy id n payload :
  0 <= id <= maxVarInt8 -> mem id numericParameterIDs = false ->
  len payload < n <= maxVarInt8 ->
  Unmarshal p (varintBytes id ++ varintBytes n ++ payload) sentBy =
    Some (p, Some (TransportParameterError (ErrRemainingLength (len payload) n))).
Proof.
  intros Hid Hnum Hn. pose proof (len_nonneg payload).
  apply Unmarshal_first_record_fails; [assumption|lia|].
  rewrite (unmarshal_switch_other _ _ _ _ _ Hnum).
  destruct (Z.ltb_spec (len payload) n); [reflexivity|lia].
Qed.

(** X7: a numeric record is rejected when its declared length is not the number
    of bytes its value takes, before the value is looked at, and when the
    input ends before the value; the receiver is unchanged. *)
Theorem Unmarshal_numeric_length_mismatch p sentBy id n :
  mem id numericParameterIDs = true -> 0 <= n <= maxVarInt8 ->
  (forall val rest,
     0 <= val <= maxVarInt8 -> n <> len (varintBytes val) ->
     Unmarshal p (varintBytes id ++ varintBytes n ++ varintBytes val ++ rest) sentBy =
       Some (p, Some (TransportParameterError (ErrInconsistentLength id)))) /\
  Unmarshal p (varintBytes id ++ varintBytes n) sentBy =
    Some (p, Some (TransportParameterError (ErrReadingParameter id EOF))).
Proof.
  intros Hnum Hn. pose proof (numeric_id_range _ Hnum) as Hid.
  assert (Hid' : 0 <= id <= maxVarInt8) by (unfold maxVarInt8; lia).
  split.
  - intros val rest Hval Hlen.
    apply Unmarshal_first_record_fails; [assumption|assumption|].
    rewrite (unmarshal_switch_numeric _ _ _ _ _ Hnum).
    unfold readNumericTransportParameter.
    rewrite (ReadVarInt_varintBytes val) by assumption.
    rewrite len_app.
    destruct (Z.eqb_spec (len (varintBytes val) + len rest - len rest) n) as [E|E];
      [lia|reflexivity].
  - rewrite <- (app_nil_r (varintBytes n)).
    apply Unmarshal_first_record_fails; [assumption|assumption|].
    rewrite (unmarshal_switch_numeric _ _ _ _ _ Hnum). reflexivity.
Qed.

(** X8: a disable_active_migration record with a payload, and a
    stateless_reset_token record of a server whose payload is not sixteen
    bytes long, are rejected with the wrong-length error of their parameter;
    the receiver is unchanged. *)
Theorem Unmarshal_wrong_fixed_length p sentBy payload rest :
  len payload <= maxVarInt8 ->
  (payload <> [] ->
   Unmarshal p (varintBytes disableActiveMigrationParameterID ++
                varintBytes (len payload) ++ payload ++ rest) sentBy =
     Some (p, Some (TransportParameterError
                      (ErrWrongLengthDisableActiveMigration (len payload))))) /\
  (len payload <> 16 ->
   Unmarshal p (varintBytes statelessResetTokenParameterID ++
                varintBytes (len payload) ++ payload ++ rest) PerspectiveServer =
     Some (p, Some (TransportParameterError
                      (ErrWrongLengthStatelessResetToken (len payload))))).
Proof.
  intros Hlen. pose proof (len_nonneg payload) as H0.
  pose proof (len_nonneg rest) as H1.
  split; intros Hp.
  - assert (0 < len payload).
    { destruct payload; [congruence|]. unfold len. cbn [length]. lia. }
    apply Unmarshal_first_record_fails; [unfold_ids; unfold maxVarInt8; lia|lia|].
    rewrite unmarshal_switch_other by reflexivity. rewrite len_app.
    destruct (Z.ltb_spec (len payload + len rest) (len payload)); [lia|].
    change (disableActiveMigrationParameterID =? preferredAddressParameterID) with false.
    change (disableActiveMigrationParameterID =? disableActiveMigrationParameterID)
      with true.
    cbv iota.
    destruct (Z.eqb_spec (len payload) 0); [lia|reflexivity].
  - apply Unmarshal_first_record_fails; [unfold_ids; unfold maxVarInt8; lia|lia|].
    rewrite unmarshal_switch_other by reflexivity. rewrite len_app.
    destruct (Z.ltb_spec (len payload + len rest) (len payload)); [lia|].
    change (statelessResetTokenParameterID =? preferredAddressParameterID) with false.
    change (statelessResetTokenParameterID =? disableActiveMigrationParameterID)
      with false.
    change (statelessResetTokenParameterID =? statelessResetTokenParameterID)
      with true.
    cbv iota. cbn [Perspective_eqb].
    destruct (Z.eqb_spec (len payload) 16); [lia|reflexivity].
Qed.

(** ** Unknown parameters *)

Lemma unmarshal_switch_after_ids sentBy ids st paramID paramLen r :
  unmarshal_switch sentBy (after_ids ids st) paramID paramLen r =
    match unmarshal_switch sentBy st paramID paramLen r with
    | Ok (st', r') => Ok (after_ids ids st', r')
    | Err e => Err e
    end.
Proof.
  unfold unmarshal_switch. cbv zeta.
  cbn [after_ids receiver parameterIDs readAckDelayExponent readMaxAckDelay].
  repeat match goal with
         | |- context [if ?c then _ else _] => destruct c
         end;
    try reflexivity;
    try (match goal with
         | |- context [readNumericTransportParameter ?p ?r ?i ?l] =>
             destruct (readNumericTransportParameter p r i l) as [[? ?]|?]
         | |- context [readPreferredAddress ?p ?r ?l] =>
             destruct (readPreferredAddress p r l) as [[? ?]|?]
         end; reflexivity).
  destruct (match ReadConnectionID r paramLen with Ok x => x | Err _ => ([], []) end).
  reflexivity.
Qed.

Lemma unmarshal_loop_after_ids sentBy ids fuel : forall st r,
  unmarshal_loop fuel sentBy (after_ids ids st) r =
    match unmarshal_loop fuel sentBy st r with
    | WalkDone st' => WalkDone (after_ids ids st')
    | WalkErr st' e => WalkErr (after_ids ids st') e
    | WalkFuel => WalkFuel
    end.
Proof.
  induction fuel as [|fuel IH]; intros st r.
  - destruct r; reflexivity.
  - destruct r as [|b r]; [reflexivity|]. cbn [unmarshal_loop].
    unfold unmarshal_record.
    destruct (ReadVarInt (b :: r)) as [[paramID r1]|e1]; cbn [bind]; [|reflexivity].
    destruct (ReadVarInt r1) as [[paramLen r2]|e2]; cbn [bind]; [|reflexivity].
    cbv zeta.
    cbn [after_ids receiver parameterIDs readAckDelayExponent readMaxAckDelay].
    rewrite <- app_assoc.
    match goal with
    | |- context [unmarshal_switch sentBy ?s paramID paramLen r2] =>
        change s with
          (after_ids ids
             {| receiver := receiver st;
                parameterIDs := parameterIDs st ++ [paramID];
                readAckDelayExponent := readAckDelayExponent st;
                readMaxAckDelay := readMaxAckDelay st |}) at 1
    end.
    rewrite unmarshal_switch_after_ids.
    destruct (unmarshal_switch _ _ _ _ _) as [[st1 r3]|e]; [apply IH|reflexivity].
Qed.

Lemma firstRepeated_sortIDs_smallest ids x :
  firstRepeated (sortIDs ids) = Some x ->
  forall y, (2 <= count_occ Z.eq_dec ids y)%nat -> x <= y.
Proof.
  intros F y Hy. apply (firstRepeated_smallest _ _ (sortIDs_sorted _) F).
  rewrite (proj1 (Permutation_count_occ Z.eq_dec _ _) (sortIDs_perm _)). exact Hy.
Qed.

(** An identifier that does not occur among the others does not change the
    outcome of the duplicate check. *)
Lemma firstRepeated_fresh ids id :
  ~ In id ids ->
  firstRepeated (sortIDs (id :: ids)) = firstRepeated (sortIDs ids).
Proof.
  intros Hid.
  destruct (firstRepeated (sortIDs ids)) as [x|] eqn:F.
  - destruct (firstRepeated (sortIDs (id :: ids))) as [y|] eqn:G.
    + pose proof (firstRepeated_sortIDs_Some _ _ F) as Hx.
      pose proof (firstRepeated_sortIDs_Some _ _ G) as Hy.
      assert (Hxid : x <> id).
      { intros ->. apply Hid. apply (count_occ_In Z.eq_dec). lia. }
      assert (Hyid : y <> id).
      { intros ->. rewrite count_occ_cons_eq in Hy by reflexivity.
        apply Hid. apply (count_occ_In Z.eq_dec). lia. }
      rewrite count_occ_cons_neq in Hy by congruence.
      pose proof (firstRepeated_sortIDs_smallest _ _ F y Hy).
      assert (Hx' : (2 <= count_occ Z.eq_dec (id :: ids) x)%nat)
        by (rewrite count_occ_cons_neq by congruence; exact Hx).
      pose proof (firstRepeated_sortIDs_smallest _ _ G x Hx').
      f_equal. lia.
    + apply firstRepeated_sortIDs_None in G. apply NoDup_cons_iff in G.
      destruct G as [_ G]. apply firstRepeated_sortIDs_None in G. congruence.
  - apply firstRepeated_sortIDs_None. apply firstRepeated_sortIDs_None in F.
    constructor; assumption.
Qed.

(** X5: a record with an identifier above 14, the largest of the known
    identifiers (the grease identifiers are such), is skipped: put in front
    of an input in which its identifier does not occur, it changes neither
    the receiver nor the error that [Unmarshal] returns for that input,
    whatever its payload. *)
Theorem Unmarshal_skips_unknown p sentBy id payload rest :
  14 < id <= maxVarInt8 -> len payload <= maxVarInt8 ->
  (forall recs, records rest = Some recs -> ~ In id (map fst recs)) ->
  Unmarshal p (varintBytes id ++ varintBytes (len payload) ++ payload ++ rest) sentBy =
    Unmarshal p rest sentBy.
Proof.
  intros Hid Hlen Hfresh. unfold Unmarshal, unmarshal.
  replace (varintBytes id ++ varintBytes (len payload) ++ payload ++ rest)
    with ((varintBytes id ++ varintBytes (len payload) ++ payload) ++ rest)
    by (rewrite <- !app_assoc; reflexivity).
  rewrite (unmarshal_loop_header sentBy (initial_state p)
             (after_ids [id] (initial_state p)) id payload rest);
    [|lia|assumption|apply unmarshal_switch_unknown; lia|apply Nat.le_refl].
  rewrite unmarshal_loop_after_ids.
  destruct (unmarshal_loop (length rest) sentBy (initial_state p) rest)
    as [st|st e|] eqn:E; [|reflexivity|reflexivity].
  destruct (unmarshal_loop_done _ _ _ _ _ E) as (recs & Hrec & Hids & _).
  cbn [initial_state parameterIDs app] in Hids.
  unfold unmarshal_finish.
  cbn [after_ids receiver parameterIDs readAckDelayExponent readMaxAckDelay app].
  rewrite firstRepeated_fresh; [reflexivity|].
  rewrite Hids. apply Hfresh. exact Hrec.
Qed.

(** ** The preferred address *)

(** What [readPreferredAddress] has read when it succeeds. *)
Lemma readPreferredAddress_payload p r expectedLen p' r' :
  readPreferredAddress p r expectedLen = Ok (p', r') ->
  exists pa,
    p' = set_PreferredAddress (Some pa) p /\
    PreferredAddress_wf pa /\
    r = preferredAddressBytes pa ++ r' /\
    expectedLen = 41 + len (ConnectionID_ pa).
Proof.
  unfold readPreferredAddress.
  destruct (ReadFull r 4) as [[ipv4 r1]|e] eqn:E1; cbn [bind]; [|discriminate].
  destruct (ReadUint16 r1) as [[port4 r2]|e] eqn:E2; cbn [bind]; [|discriminate].
  destruct (ReadFull r2 16) as [[ipv6 r3]|e] eqn:E3; cbn [bind]; [|discriminate].
  destruct (ReadUint16 r3) as [[port6 r4]|e] eqn:E4; cbn [bind]; [|discriminate].
  destruct (ReadByte r4) as [[connIDLen r5]|e] eqn:E5; cbn [bind]; [|discriminate].
  destruct (ReadConnectionID r5 (byte_val connIDLen)) as [[connID r6]|e] eqn:E6;
    cbn [bind]; [|discriminate].
  destruct (ReadFull r6 16) as [[token r7]|e] eqn:E7; cbn [bind]; [|discriminate].
  destruct (Z.eqb_spec (len r - len r7) expectedLen) as [El|El];
    cbn [negb]; [|discriminate].
  intros Hok. apply Ok_inj in Hok. apply pair_inj in Hok. destruct Hok as [<- <-].
  apply ReadFull_suffix in E1, E3, E7.
  apply ReadUint16_bytes in E2, E4. apply ReadByte_suffix in E5.
  pose proof (byte_val_range connIDLen) as Hl.
  apply ReadConnectionID_suffix in E6; [|lia].
  destruct E1 as [E1 L1], E3 as [E3 L3], E7 as [E7 L7], E6 as [E6 L6].
  destruct E2 as (E2 & P4), E4 as (E4 & P6).
  eexists. split; [reflexivity|].
  assert (Hc : uint8 (len connID) = connIDLen)
    by (rewrite L6; apply uint8_byte_val).
  split; [|split].
  - unfold PreferredAddress_wf, len.
    cbn [IPv4 IPv4Port IPv6 IPv6Port ConnectionID_ StatelessResetToken_].
    rewrite L1, L3, L7. unfold len in L6. lia.
  - unfold preferredAddressBytes.
    cbn [IPv4 IPv4Port IPv6 IPv6Port ConnectionID_ StatelessResetToken_].
    rewrite Hc. subst r r1 r2 r3 r4 r5 r6. rewrite <- !app_assoc. reflexivity.
  - cbn [ConnectionID_]. subst r r1 r2 r3 r4 r5 r6. rewrite !len_app in El.
    unfold len in *. cbn [length] in El. lia.
Qed.

(** X11: what [readPreferredAddress] accepts is what [Marshal] writes: when it
    succeeds, the bytes it has read are the encoding of the address it has
    stored, the expected length is 41 plus the length of the connection ID,
    and the address has a four-byte and a sixteen-byte IP address and a
    sixteen-byte token; nothing else of the receiver changes. Conversely it
    accepts the encoding of every such address, with that length. *)
Theorem readPreferredAddress_inverse p r expectedLen :
  (forall p' r',
     readPreferredAddress p r expectedLen = Ok (p', r') ->
     exists pa,
       p' = set_PreferredAddress (Some pa) p /\
       PreferredAddress_wf pa /\
       r = preferredAddressBytes pa ++ r' /\
       expectedLen = 41 + len (ConnectionID_ pa)) /\
  (forall pa rest,
     PreferredAddress_wf pa ->
     readPreferredAddress p (preferredAddressBytes pa ++ rest)
       (41 + len (ConnectionID_ pa)) =
       Ok (set_PreferredAddress (Some pa) p, rest)).
Proof.
  split.
  - intros p' r'. apply readPreferredAddress_payload.
  - intros pa rest Hwf. rewrite <- (preferredAddressBytes_len pa Hwf).
    apply readPreferredAddress_bytes. exact Hwf.
Qed.

(** ** The records of an input that was decoded *)

(** What a successful call has stored for a record of its input. *)
Lemma Unmarshal_record p data sentBy p' recs paramID payload :
  Unmarshal p data sentBy = Some (p', None) ->
  records data = Some recs ->
  In (paramID, payload) recs ->
  exists st1 st2 rest,
    unmarshal_switch sentBy st1 paramID (len payload) (payload ++ rest) =
      Ok (st2, rest) /\
    forall f, field_paramID f = paramID ->
              f <> fAckDelayExponent -> f <> fMaxAckDelay -> f <> fMaxPacketSize ->
              same_field f p' (receiver st2).
Proof.
  intros H Hrec Hin. apply Unmarshal_ok in H. apply unmarshal_success in H.
  destruct H as (st & recs' & Hloop & Hrec' & _ & Hnd & Hp' & _).
  assert (recs' = recs) by congruence. subst recs'.
  destruct (unmarshal_loop_record _ _ _ _ _ _ _ _ Hloop Hrec Hnd Hin)
    as (st1 & st2 & rest & Hsw & Hsame).
  exists st1, st2, rest. split; [exact Hsw|].
  intros f Hf N1 N2 N3.
  destruct (unmarshal_finish_fields st) as (_ & _ & _ & F). cbv zeta in F.
  rewrite Hp'. eapply same_field_trans; [apply F; assumption|apply Hsame; exact Hf].
Qed.

(** X9: after a successful call, a record of one of the seven numeric parameters
    without a range check holds exactly the encoding of the value that the
    receiver has for it. *)
Theorem Unmarshal_plain_numeric_records p data sentBy p' recs payload :
  Unmarshal p data sentBy = Some (p', None) ->
  records data = Some recs ->
  (In (initialMaxStreamDataBidiLocalParameterID, payload) recs ->
   ReadVarInt payload = Ok (InitialMaxStreamDataBidiLocal p', [])) /\
  (In (initialMaxStreamDataBidiRemoteParameterID, payload) recs ->
   ReadVarInt payload = Ok (InitialMaxStreamDataBidiRemote p', [])) /\
  (In (initialMaxStreamDataUniParameterID, payload) recs ->
   ReadVarInt payload = Ok (InitialMaxStreamDataUni p', [])) /\
  (In (initialMaxDataParameterID, payload) recs ->
   ReadVarInt payload = Ok (InitialMaxData p', [])) /\
  (In (initialMaxStreamsBidiParameterID, payload) recs ->
   ReadVarInt payload = Ok (MaxBidiStreamNum p', [])) /\
  (In (initialMaxStreamsUniParameterID, payload) recs ->
   ReadVarInt payload = Ok (MaxUniStreamNum p', [])) /\
  (In (activeConnectionIDLimitParameterID, payload) recs ->
   ReadVarInt payload = Ok (ActiveConnectionIDLimit p', [])).
Proof.
  intros H Hrec.
  assert (G : forall f,
             In f [fInitialMaxStreamDataBidiLocal; fInitialMaxStreamDataBidiRemote;
                   fInitialMaxStreamDataUni; fInitialMaxData; fMaxBidiStreamNum;
                   fMaxUniStreamNum; fActiveConnectionIDLimit] ->
             In (field_paramID f, payload) recs ->
             exists val p1 p2,
               ReadVarInt payload = Ok (val, []) /\ 0 <= val <= maxVarInt8 /\
               readNumeric_switch p1 (field_paramID f) val = Ok p2 /\
               same_field f p' p2).
  { intros f Hf Hin.
    assert (Hnum : mem (field_paramID f) numericParameterIDs = true)
      by (destruct Hf as [<-|[<-|[<-|[<-|[<-|[<-|[<-|[]]]]]]]]; reflexivity).
    assert (Hplain : f <> fAckDelayExponent /\ f <> fMaxAckDelay /\ f <> fMaxPacketSize)
      by (destruct Hf as [<-|[<-|[<-|[<-|[<-|[<-|[<-|[]]]]]]]]; repeat split; discriminate).
    destruct (Unmarshal_record _ _ _ _ _ _ _ H Hrec Hin)
      as (st1 & st2 & rest & Hsw & Hsame).
    rewrite unmarshal_switch_numeric in Hsw by exact Hnum.
    destruct (readNumericTransportParameter (receiver st1) (payload ++ rest)
                (field_paramID f) (len payload)) as [[p2 r2]|e] eqn:E;
      [|discriminate Hsw].
    apply Ok_inj in Hsw. apply pair_inj in Hsw. destruct Hsw as [<- ->].
    apply readNumericTransportParameter_spec in E.
    destruct E as (val & pre & Hpre & Hlen & _ & Hval & Hrange & Hsw).
    assert (pre = payload).
    { apply app_inv_tail in Hpre. congruence. }
    subst pre. exists val, (receiver st1), p2.
    split; [exact Hval|]. split; [exact Hrange|]. split; [exact Hsw|].
    apply Hsame; [reflexivity|tauto|tauto|tauto]. }
  repeat split; intros Hin;
    match goal with
    | |- ReadVarInt _ = Ok (InitialMaxStreamDataBidiLocal _, _) =>
        destruct (G fInitialMaxStreamDataBidiLocal) as (val & p1 & p2 & Hv & Hr & Hn & Hs)
    | |- ReadVarInt _ = Ok (InitialMaxStreamDataBidiRemote _, _) =>
        destruct (G fInitialMaxStreamDataBidiRemote) as (val & p1 & p2 & Hv & Hr & Hn & Hs)
    | |- ReadVarInt _ = Ok (InitialMaxStreamDataUni _, _) =>
        destruct (G fInitialMaxStreamDataUni) as (val & p1 & p2 & Hv & Hr & Hn & Hs)
    | |- ReadVarInt _ = Ok (InitialMaxData _, _) =>
        destruct (G fInitialMaxData) as (val & p1 & p2 & Hv & Hr & Hn & Hs)
    | |- ReadVarInt _ = Ok (MaxBidiStreamNum _, _) =>
        destruct (G fMaxBidiStreamNum) as (val & p1 & p2 & Hv & Hr & Hn & Hs)
    | |- ReadVarInt _ = Ok (MaxUniStreamNum _, _) =>
        destruct (G fMaxUniStreamNum) as (val & p1 & p2 & Hv & Hr & Hn & Hs)
    | |- ReadVarInt _ = Ok (ActiveConnectionIDLimit _, _) =>
        destruct (G fActiveConnectionIDLimit) as (val & p1 & p2 & Hv & Hr & Hn & Hs)
    end;
    try (cbn [In]; tauto); try exact Hin;
    apply Ok_inj in Hn; subst p2; cbn in Hs; rewrite Hs, Hv;
    rewrite ?wrap_int64_small by (unfold maxVarInt8 in Hr; lia); reflexivity.
Qed.

(** X10: after a successful call, a disable_active_migration record is empty and
    the flag is set; a stateless_reset_token, original_connection_id or
    preferred_address record was sent by a server, and the receiver holds
    its payload: the sixteen bytes of the token, the bytes of the connection
    ID, and the address of which the payload is the encoding. *)
Theorem Unmarshal_opaque_records p data sentBy p' recs payload :
  Unmarshal p data sentBy = Some (p', None) ->
  records data = Some recs ->
  (In (disableActiveMigrationParameterID, payload) recs ->
   payload = [] /\ DisableActiveMigration p' = true) /\
  (In (statelessResetTokenParameterID, payload) recs ->
   sentBy = PerspectiveServer /\ len payload = 16 /\
   StatelessResetToken p' = Some payload) /\
  (In (originalConnectionIDParameterID, payload) recs ->
   sentBy = PerspectiveServer /\ OriginalConnectionID p' = payload) /\
  (In (preferredAddressParameterID, payload) recs ->
   sentBy = PerspectiveServer /\
   exists pa, PreferredAddress_ p' = Some pa /\ PreferredAddress_wf pa /\
              payload = preferredAddressBytes pa).
Proof.
  intros H Hrec.
  split; [|split; [|split]]; intros Hin;
    destruct (Unmarshal_record _ _ _ _ _ _ _ H Hrec Hin)
      as (st1 & st2 & rest & Hsw & Hsame);
    rewrite unmarshal_switch_other in Hsw by reflexivity;
    rewrite len_app in Hsw;
    pose proof (len_nonneg rest) as Hrest;
    (destruct (Z.ltb_spec (len payload + len rest) (len payload)) as [Hl|_];
       [lia|]).
  - change (disableActiveMigrationParameterID =? preferredAddressParameterID)
      with false in Hsw.
    change (disableActiveMigrationParameterID =? disableActiveMigrationParameterID)
      with true in Hsw.
    cbv iota in Hsw.
    destruct (Z.eqb_spec (len payload) 0) as [E|E]; [|discriminate Hsw].
    split; [apply len_nil_le; lia|].
    cbn [negb] in Hsw. apply Ok_inj in Hsw. apply pair_inj in Hsw.
    destruct Hsw as [<- _].
    specialize (Hsame fDisableActiveMigration eq_refl).
    cbn in Hsame. apply Hsame; discriminate.
  - destruct sentBy; [|discriminate Hsw]. cbn [Perspective_eqb] in Hsw.
    change (statelessResetTokenParameterID =? preferredAddressParameterID)
      with false in Hsw.
    change (statelessResetTokenParameterID =? disableActiveMigrationParameterID)
      with false in Hsw.
    change (statelessResetTokenParameterID =? statelessResetTokenParameterID)
      with true in Hsw.
    cbv iota in Hsw.
    destruct (Z.eqb_spec (len payload) 16) as [E|E]; [|discriminate Hsw].
    split; [reflexivity|]. split; [exact E|].
    cbn [negb] in Hsw.
    assert (E16 : 16%nat = length payload) by (unfold len in E; lia).
    rewrite E16, Read_app in Hsw.
    apply Ok_inj in Hsw. apply pair_inj in Hsw. destruct Hsw as [<- _].
    specialize (Hsame fStatelessResetToken eq_refl).
    cbn in Hsame. apply Hsame; discriminate.
  - destruct sentBy; [|discriminate Hsw]. cbn [Perspective_eqb] in Hsw.
    change (originalConnectionIDParameterID =? preferredAddressParameterID)
      with false in Hsw.
    change (originalConnectionIDParameterID =? disableActiveMigrationParameterID)
      with false in Hsw.
    change (originalConnectionIDParameterID =? statelessResetTokenParameterID)
      with false in Hsw.
    change (originalConnectionIDParameterID =? originalConnectionIDParameterID)
      with true in Hsw.
    cbv iota in Hsw. rewrite ReadConnectionID_app in Hsw.
    split; [reflexivity|].
    apply Ok_inj in Hsw. apply pair_inj in Hsw. destruct Hsw as [<- _].
    specialize (Hsame fOriginalConnectionID eq_refl).
    cbn in Hsame. apply Hsame; discriminate.
  - destruct sentBy; [|discriminate Hsw]. cbn [Perspective_eqb] in Hsw.
    change (preferredAddressParameterID =? preferredAddressParameterID)
      with true in Hsw.
    cbv iota in Hsw.
    destruct (readPreferredAddress (receiver st1) (payload ++ rest) (len payload))
      as [[p1 r1]|e] eqn:E; [|discriminate Hsw].
    cbn [bind] in Hsw. apply Ok_inj in Hsw. apply pair_inj in Hsw.
    destruct Hsw as [<- ->].
    apply readPreferredAddress_payload in E.
    destruct E as (pa & Hp1 & Hwf & Hbytes & _).
    apply app_inv_tail in Hbytes.
    split; [reflexivity|].
    exists pa. split; [|split; assumption].
    specialize (Hsame fPreferredAddress eq_refl).
    cbn in Hsame. rewrite Hsame by discriminate. rewrite Hp1. reflexivity.
Qed.

(** ** The session ticket *)

(** X12: [UnmarshalFromSessionTicket] reads a version first: the empty ticket is
    rejected with the reader's [EOF], a version other than 1 with the
    unknown-version error, in both cases without looking at the rest of the
    ticket and without changing the receiver, and the error is returned as
    it is; after version 1 the rest is decoded as [Unmarshal] decodes the
    parameters that a server has sent. *)
Theorem UnmarshalFromSessionTicket_version p v rest :
  0 <= v <= maxVarInt8 ->
  UnmarshalFromSessionTicket p [] = Some (p, Some EOF) /\
  UnmarshalFromSessionTicket p (varintBytes v ++ rest) =
    if v =? transportParameterMarshalingVersion
    then Unmarshal p rest PerspectiveServer
    else Some (p, Some (ErrUnknownVersion v)).
Proof.
  intros Hv. split; [reflexivity|].
  unfold UnmarshalFromSessionTicket. rewrite ReadVarInt_varintBytes by assumption.
  destruct (v =? transportParameterMarshalingVersion); reflexivity.
Qed.

Ltac ticket_record H :=
  erewrite (unmarshal_loop_numeric _ _ _ _ _ _ _ _ H);
    [|unfold_ids; lia|unfold varint_range, maxVarInt8 in *; lia
     |reflexivity|reflexivity|apply Nat.le_refl];
  cbn [receiver parameterIDs readAckDelayExponent readMaxAckDelay initial_state
       app orb Z.eqb Pos.eqb
       initialMaxDataParameterID initialMaxStreamDataBidiLocalParameterID
       initialMaxStreamDataBidiRemoteParameterID initialMaxStreamDataUniParameterID
       initialMaxStreamsBidiParameterID initialMaxStreamsUniParameterID
       ackDelayExponentParameterID maxAckDelayParameterID
       activeConnectionIDLimitParameterID].

(** X13: what is restored from the session ticket of a parameter set is
    compatible with that set for 0-RTT, whatever the receiver held before:
    the ticket of [p], decoded into any receiver, gives without error a
    value for which [ValidFor0RTT] holds against [p], in both directions,
    and which has the active connection ID limit of [p]. *)
Theorem session_ticket_valid_for_0RTT p p0 b :
  ticket_fields_encodable p ->
  exists data q,
    MarshalForSessionTicket p b = Some (b ++ data) /\
    UnmarshalFromSessionTicket p0 data = Some (q, None) /\
    ValidFor0RTT q p = true /\ ValidFor0RTT p q = true /\
    ActiveConnectionIDLimit q = ActiveConnectionIDLimit p.
Proof.
  intros (H1 & H2 & H3 & H4 & H5 & H6 & H7). unfold varint_range, maxVarInt8 in *.
  destruct (marshalVarintParam_defined [] initialMaxStreamDataBidiLocalParameterID
              (InitialMaxStreamDataBidiLocal p)) as (r1 & M1);
    [unfold_ids; unfold maxVarInt8; lia|unfold maxVarInt8; lia|].
  destruct (marshalVarintParam_defined [] initialMaxStreamDataBidiRemoteParameterID
              (InitialMaxStreamDataBidiRemote p)) as (r2 & M2);
    [unfold_ids; unfold maxVarInt8; lia|unfold maxVarInt8; lia|].
  destruct (marshalVarintParam_defined [] initialMaxStreamDataUniParameterID
              (InitialMaxStreamDataUni p)) as (r3 & M3);
    [unfold_ids; unfold maxVarInt8; lia|unfold maxVarInt8; lia|].
  destruct (marshalVarintParam_defined [] initialMaxDataParameterID
              (InitialMaxData p)) as (r4 & M4);
    [unfold_ids; unfold maxVarInt8; lia|unfold maxVarInt8; lia|].
  destruct (marshalVarintParam_defined [] initialMaxStreamsBidiParameterID
              (MaxBidiStreamNum p)) as (r5 & M5);
    [unfold_ids; unfold maxVarInt8; lia|unfold maxVarInt8; lia|].
  destruct (marshalVarintParam_defined [] initialMaxStreamsUniParameterID
              (MaxUniStreamNum p)) as (r6 & M6);
    [unfold_ids; unfold maxVarInt8; lia|unfold maxVarInt8; lia|].
  destruct (marshalVarintParam_defined [] activeConnectionIDLimitParameterID
              (ActiveConnectionIDLimit p)) as (r7 & M7);
    [unfold_ids; unfold maxVarInt8; lia|unfold maxVarInt8; lia|].
  exists ([x01] ++ r1 ++ r2 ++ r3 ++ r4 ++ r5 ++ r6 ++ r7 ++ []).
  eexists. split; [|split].
  - unfold MarshalForSessionTicket.
    rewrite !to_uint64_small by lia.
    change (WriteVarInt b transportParameterMarshalingVersion) with (Some (b ++ [x01])).
    cbn [obind].
    rewrite (marshalVarintParam_app _ _ _ _ M1). cbn [obind].
    rewrite (marshalVarintParam_app _ _ _ _ M2). cbn [obind].
    rewrite (marshalVarintParam_app _ _ _ _ M3). cbn [obind].
    rewrite (marshalVarintParam_app _ _ _ _ M4). cbn [obind].
    rewrite (marshalVarintParam_app _ _ _ _ M5). cbn [obind].
    rewrite (marshalVarintParam_app _ _ _ _ M6). cbn [obind].
    rewrite (marshalVarintParam_app _ _ _ _ M7).
    rewrite app_nil_r, <- !app_assoc. reflexivity.
  - unfold UnmarshalFromSessionTicket.
    rewrite (ReadVarInt_encodeVarInt 1 [x01]); [|lia|reflexivity].
    change (negb (1 =? transportParameterMarshalingVersion)) with false. cbv iota.
    unfold Unmarshal, unmarshal.
    ticket_record M1. ticket_record M2. ticket_record M3. ticket_record M4.
    ticket_record M5. ticket_record M6. ticket_record M7.
    cbn [length unmarshal_loop]. unfold unmarshal_finish.
    cbn [receiver parameterIDs readAckDelayExponent readMaxAckDelay negb].
    change (firstRepeated (sortIDs [5; 6; 7; 4; 8; 9; 14])) with (@None Z).
    cbv iota zeta. reflexivity.
  - cbv zeta.
    match goal with
    | |- context [if ?c then _ else _] => destruct c
    end;
      unfold ValidFor0RTT;
      cbn [fst InitialMaxStreamDataBidiLocal InitialMaxStreamDataBidiRemote
           InitialMaxStreamDataUni InitialMaxData MaxBidiStreamNum MaxUniStreamNum
           ActiveConnectionIDLimit
           set_MaxPacketSize set_MaxAckDelay set_AckDelayExponent
           set_ActiveConnectionIDLimit set_MaxUniStreamNum set_MaxBidiStreamNum
           set_InitialMaxData set_InitialMaxStreamDataUni
           set_InitialMaxStreamDataBidiRemote set_InitialMaxStreamDataBidiLocal];
      rewrite !wrap_int64_small by lia; rewrite !Z.eqb_refl; auto.
Qed.

(** ** The inputs that are accepted *)

(** A record that an iteration of the loop has accepted is well formed. *)
Lemma record_wf_of_switch sentBy st1 st2 id payload rest :
  unmarshal_switch sentBy st1 id (len payload) (payload ++ rest) = Ok (st2, rest) ->
  record_wf (id, payload).
Proof.
  unfold record_wf. destruct (mem id numericParameterIDs) eqn:Hnum.
  - rewrite (unmarshal_switch_numeric _ _ _ _ _ Hnum).
    destruct (readNumericTransportParameter (receiver st1) (payload ++ rest) id
                (len payload)) as [[p2 r2]|e] eqn:E; [|discriminate].
    intros Hsw. apply Ok_inj in Hsw. apply pair_inj in Hsw. destruct Hsw as [_ ->].
    apply readNumericTransportParameter_spec in E.
    destruct E as (val & pre & Hpre & _ & _ & Hval & _ & Hsw).
    apply app_inv_tail in Hpre. subst pre.
    exists val. split; [exact Hval|]. repeat split; intros ->.
    + rewrite switch_maxPacketSize in Hsw.
      destruct (Z.ltb_spec val 1200); [discriminate Hsw|assumption].
    + rewrite switch_ackDelayExponent in Hsw.
      destruct (Z.gtb_spec val MaxAckDelayExponent); [discriminate Hsw|lia].
    + rewrite switch_maxAckDelay in Hsw.
      destruct (Z.geb_spec (duration_of_ms val) MaxMaxAckDelay);
        [discriminate Hsw|lia].
  - rewrite (unmarshal_switch_other _ _ _ _ _ Hnum). rewrite len_app.
    pose proof (len_nonneg rest).
    destruct (Z.ltb_spec (len payload + len rest) (len payload)); [lia|].
    destruct (Z.eqb_spec id disableActiveMigrationParameterID) as [->|E12].
    { change (disableActiveMigrationParameterID =? preferredAddressParameterID)
        with false. cbv iota.
      destruct (Z.eqb_spec (len payload) 0) as [E|E]; [|discriminate].
      intros _. apply len_nil_le. lia. }
    destruct (Z.eqb_spec id statelessResetTokenParameterID) as [->|E2].
    { change (statelessResetTokenParameterID =? preferredAddressParameterID)
        with false. cbv iota.
      destruct (Perspective_eqb sentBy PerspectiveClient); [discriminate|].
      destruct (Z.eqb_spec (len payload) 16) as [E|E]; [|discriminate].
      intros _. exact E. }
    destruct (Z.eqb_spec id preferredAddressParameterID) as [->|E13]; [|intros _; exact I].
    destruct (Perspective_eqb sentBy PerspectiveClient); [discriminate|].
    destruct (readPreferredAddress (receiver st1) (payload ++ rest) (len payload))
      as [[p1 r1]|e] eqn:E; [|discriminate].
    cbn [bind]. intros Hsw. apply Ok_inj in Hsw. apply pair_inj in Hsw.
    destruct Hsw as [_ ->].
    apply readPreferredAddress_payload in E.
    destruct E as (pa & _ & Hwf & Hbytes & _).
    apply app_inv_tail in Hbytes. exists pa. split; assumption.
Qed.

(** A client is refused the three parameters of a server. *)
Lemma unmarshal_switch_client_refused st id paramLen r :
  In id serverOnlyParameterIDs ->
  forall x, unmarshal_switch PerspectiveClient st id paramLen r <> Ok x.
Proof.
  intros Hin x. rewrite unmarshal_switch_other
    by (apply mem_not_In; unfold_ids; cbn [In] in *; lia).
  destruct (len r <? paramLen); [discriminate|].
  cbn [Perspective_eqb].
  unfold serverOnlyParameterIDs in Hin. cbn [In] in Hin.
  destruct Hin as [<-|[<-|[<-|[]]]]; discriminate.
Qed.

(** X1: [Unmarshal] succeeds on exactly the inputs that are well-formed
    sequences of records and, when the sender is the client, hold none of
    the three parameters of a server: the input is a sequence of records,
    no identifier occurs twice, and every record is well formed for its
    parameter. What the receiver holds before the call does not matter. *)
Theorem Unmarshal_accepts p data sentBy :
  (exists p', Unmarshal p data sentBy = Some (p', None)) <->
  exists recs,
    records data = Some recs /\ well_formed recs /\
    (sentBy = PerspectiveClient ->
     forall id, In id (map fst recs) -> ~ In id serverOnlyParameterIDs).
Proof.
  split.
  - intros (p' & H). apply Unmarshal_ok in H. apply unmarshal_success in H.
    destruct H as (st & recs & Hloop & Hrec & _ & Hnd & _).
    exists recs. split; [exact Hrec|]. split; [split; [exact Hnd|]|].
    + apply Forall_forall. intros [id payload] Hin.
      destruct (unmarshal_loop_record _ _ _ _ _ _ _ _ Hloop Hrec Hnd Hin)
        as (st1 & st2 & rest & Hsw & _).
      exact (record_wf_of_switch _ _ _ _ _ _ Hsw).
    + intros -> id Hin Hgated.
      apply in_map_iff in Hin. destruct Hin as ([id' payload] & Hid & Hin).
      cbn [fst] in Hid. subst id'.
      destruct (unmarshal_loop_record _ _ _ _ _ _ _ _ Hloop Hrec Hnd Hin)
        as (st1 & st2 & rest & Hsw & _).
      exact (unmarshal_switch_client_refused _ _ _ _ Hgated _ Hsw).
  - intros (recs & Hrec & [Hnd Hwf] & Hrole).
    destruct (unmarshal_loop_wf _ (initial_state p) _ _ Hrec Hwf) as (st & Hloop).
    assert (Hloop' : unmarshal_loop (length data) sentBy (initial_state p) data =
                     WalkDone st).
    { destruct sentBy; [exact Hloop|].
      pose proof (unmarshal_loop_client _ _ _ _ _ Hloop Hrec) as Hc.
      destruct (existsb (fun id => mem id serverOnlyParameterIDs) (map fst recs))
        eqn:Hex; [|exact Hc].
      apply existsb_exists in Hex. destruct Hex as (id & Hin & Hmem).
      apply mem_In in Hmem. exfalso. exact (Hrole eq_refl id Hin Hmem). }
    destruct (unmarshal_loop_done _ _ _ _ _ Hloop') as (recs' & Hrec' & Hids & _).
    unfold records in Hrec. rewrite Hrec in Hrec'. apply Some_inj in Hrec'.
    subst recs'. cbn [initial_state parameterIDs app] in Hids.
    exists (fst (unmarshal_finish st)).
    unfold Unmarshal, unmarshal. rewrite Hloop'. unfold unmarshal_finish.
    rewrite Hids. rewrite (proj2 (firstRepeated_sortIDs_None _) Hnd). reflexivity.
Qed.

(** ** The records that [Marshal] writes *)

Lemma records_fuel_enough fuel1 : forall fuel2 r,
  (length r <= fuel1)%nat -> (length r <= fuel2)%nat ->
  records_fuel fuel1 r = records_fuel fuel2 r.
Proof.
  induction fuel1 as [|fuel1 IH]; intros fuel2 r H1 H2.
  - destruct r; [|cbn in H1; lia]. destruct fuel2; reflexivity.
  - destruct r as [|b r]; [destruct fuel2; reflexivity|].
    destruct fuel2 as [|fuel2]; [cbn in H2; lia|].
    cbn [records_fuel].
    destruct (ReadVarInt (b :: r)) as [[id r1]|e] eqn:E1; [|reflexivity].
    destruct (ReadVarInt r1) as [[l r2]|e] eqn:E2; [|reflexivity].
    destruct (len r2 <? l); [reflexivity|].
    apply ReadVarInt_suffix in E1, E2.
    destruct E1 as (pre1 & E1 & L1 & _), E2 as (pre2 & E2 & L2 & _).
    assert (Hlen : (length (skipn (Z.to_nat l) r2) < length (b :: r))%nat).
    { rewrite length_skipn, E1, E2, !length_app. unfold len in *. lia. }
    rewrite (IH fuel2) by (cbn [length] in *; lia). reflexivity.
Qed.

Lemma records_cons rec rest :
  0 <= fst rec <= maxVarInt8 -> len (snd rec) <= maxVarInt8 ->
  records (recordBytes rec ++ rest) =
    match records rest with
    | Some recs => Some (rec :: recs)
    | None => None
    end.
Proof.
  destruct rec as [id payload]. cbn [fst snd]. intros Hid Hlen.
  pose proof (len_nonneg payload) as Hp.
  unfold records, recordBytes. cbn [fst snd]. rewrite <- !app_assoc.
  destruct (varintBytes id ++ varintBytes (len payload) ++ payload ++ rest)
    as [|b d] eqn:E.
  - apply app_eq_nil in E. destruct E as [E _].
    exfalso. apply (varintBytes_nonempty id); [lia|exact E].
  - cbn [length records_fuel]. rewrite <- E.
    rewrite ReadVarInt_varintBytes by lia.
    rewrite ReadVarInt_varintBytes by lia.
    rewrite len_app. pose proof (len_nonneg rest).
    destruct (Z.ltb_spec (len payload + len rest) (len payload)); [lia|].
    rewrite len_firstn_skipn, firstn_prefix by reflexivity.
    rewrite (records_fuel_enough (length d) (length rest));
      [reflexivity| |apply Nat.le_refl].
    apply (f_equal (@length byte)) in E. rewrite !length_app in E.
    cbn [length] in E.
    assert (1 <= length (varintBytes id))%nat.
    { destruct (varintBytes id) eqn:V; [|cbn; lia].
      exfalso. apply (varintBytes_nonempty id); [lia|exact V]. }
    lia.
Qed.

Lemma records_app recs : forall rest,
  Forall (fun rec => 0 <= fst rec <= maxVarInt8 /\ len (snd rec) <= maxVarInt8) recs ->
  records (concat (map recordBytes recs) ++ rest) =
    match records rest with
    | Some recs' => Some (recs ++ recs')
    | None => None
    end.
Proof.
  induction recs as [|rec recs IH]; intros rest H.
  - cbn [map concat app]. destruct (records rest); reflexivity.
  - apply Forall_cons_iff in H. destruct H as [[Hid Hlen] H].
    cbn [map concat]. rewrite <- app_assoc.
    rewrite records_cons by assumption. rewrite IH by assumption.
    destruct (records rest); reflexivity.
Qed.

Lemma numericRecordBytes_recordBytes id val :
  0 <= id <= maxVarInt8 -> 0 <= val <= maxVarInt8 ->
  numericRecordBytes id val = recordBytes (id, varintBytes val).
Proof.
  intros Hid Hval.
  pose proof (numericRecordBytes_ok id val Hid (proj2 Hval)) as H.
  apply marshalVarintParam_bytes in H; [|unfold maxVarInt8 in Hid; lia].
  destruct H as (eid & elen & eval & Hout & Heid & Helen & Heval).
  rewrite Hout. unfold recordBytes, varintBytes. cbn [fst snd app].
  rewrite Heval, Heid, Helen. reflexivity.
Qed.

Lemma varintBytes_len i : len (varintBytes i) <= maxVarInt8.
Proof.
  unfold varintBytes. destruct (encodeVarInt i) as [e|] eqn:E.
  - apply encodeVarInt_len in E. unfold maxVarInt8. lia.
  - unfold len, maxVarInt8. cbn. lia.
Qed.

Lemma records_step rec rest recs :
  0 <= fst rec <= maxVarInt8 -> len (snd rec) <= maxVarInt8 ->
  records rest = Some recs ->
  records (recordBytes rec ++ rest) = Some (rec :: recs).
Proof. intros Hid Hlen H. rewrite records_cons by assumption. rewrite H. reflexivity. Qed.

Lemma records_numeric id val rest recs :
  0 <= id <= maxVarInt8 -> 0 <= val <= maxVarInt8 ->
  records rest = Some recs ->
  records (numericRecordBytes id val ++ rest) = Some ((id, varintBytes val) :: recs).
Proof.
  intros Hid Hval H. rewrite numericRecordBytes_recordBytes by assumption.
  apply records_step; [exact Hid|apply varintBytes_len|exact H].
Qed.

Lemma records_numeric_opt (c : bool) id val rest recs :
  0 <= id <= maxVarInt8 -> 0 <= val <= maxVarInt8 ->
  records rest = Some recs ->
  records ((if c then numericRecordBytes id val else []) ++ rest) =
    Some ((if c then [(id, varintBytes val)] else []) ++ recs).
Proof.
  intros Hid Hval H. destruct c; [|exact H].
  apply records_numeric; assumption.
Qed.

Lemma records_disableActiveMigration (c : bool) rest recs :
  records rest = Some recs ->
  records ((if c then varintBytes disableActiveMigrationParameterID ++ varintBytes 0
            else []) ++ rest) =
    Some ((if c then [(disableActiveMigrationParameterID, [])] else []) ++ recs).
Proof.
  intros H. destruct c; [|exact H].
  change (varintBytes disableActiveMigrationParameterID ++ varintBytes 0)
    with (recordBytes (disableActiveMigrationParameterID, [])).
  apply records_step; [unfold_ids; unfold maxVarInt8; cbn; lia
                      |unfold maxVarInt8; cbn; lia|exact H].
Qed.

Lemma records_statelessResetToken (o : option (list byte)) rest recs :
  (forall token, o = Some token -> len token = 16) ->
  records rest = Some recs ->
  records (match o with
           | Some token =>
               varintBytes statelessResetTokenParameterID ++ varintBytes 16 ++ token
           | None => []
           end ++ rest) =
    Some (match o with
          | Some token => [(statelessResetTokenParameterID, token)]
          | None => []
          end ++ recs).
Proof.
  intros Ho H. destruct o as [token|]; [|exact H].
  specialize (Ho token eq_refl).
  replace (varintBytes statelessResetTokenParameterID ++ varintBytes 16 ++ token)
    with (recordBytes (statelessResetTokenParameterID, token))
    by (unfold recordBytes; cbn [fst snd]; rewrite Ho; reflexivity).
  apply records_step; [unfold_ids; unfold maxVarInt8; cbn; lia
                      |cbn [snd]; rewrite Ho; unfold maxVarInt8; lia|exact H].
Qed.

Lemma records_preferredAddress (o : option PreferredAddress) rest recs :
  (forall pa, o = Some pa -> PreferredAddress_encodable pa) ->
  records rest = Some recs ->
  records (match o with
           | Some pa =>
               varintBytes preferredAddressParameterID ++
               varintBytes (len (preferredAddressBytes (lastFourBytes pa))) ++
               preferredAddressBytes (lastFourBytes pa)
           | None => []
           end ++ rest) =
    Some (match o with
          | Some pa =>
              [(preferredAddressParameterID, preferredAddressBytes (lastFourBytes pa))]
          | None => []
          end ++ recs).
Proof.
  intros Ho H. destruct o as [pa|]; [|exact H].
  specialize (Ho pa eq_refl).
  pose proof (preferredAddressBytes_len _ (lastFourBytes_wf pa Ho)) as Hlen.
  destruct Ho as (_ & _ & _ & _ & Hc & _). cbn [lastFourBytes ConnectionID_] in Hlen.
  change (varintBytes preferredAddressParameterID ++
          varintBytes (len (preferredAddressBytes (lastFourBytes pa))) ++
          preferredAddressBytes (lastFourBytes pa))
    with (recordBytes (preferredAddressParameterID,
                       preferredAddressBytes (lastFourBytes pa))).
  apply records_step; [unfold_ids; unfold maxVarInt8; cbn; lia
                      |cbn [snd]; rewrite Hlen; unfold maxVarInt8; lia|exact H].
Qed.

Lemma records_originalConnectionID (connID : ConnectionID) rest recs :
  len connID <= maxVarInt8 ->
  records rest = Some recs ->
  records ((if len connID >? 0
            then varintBytes originalConnectionIDParameterID ++
                 varintBytes (len connID) ++ connID
            else []) ++ rest) =
    Some ((if len connID >? 0 then [(originalConnectionIDParameterID, connID)]
           else []) ++ recs).
Proof.
  intros Hl H. destruct (len connID >? 0); [|exact H].
  change (varintBytes originalConnectionIDParameterID ++
          varintBytes (len connID) ++ connID)
    with (recordBytes (originalConnectionIDParameterID, connID)).
  apply records_step; [unfold_ids; unfold maxVarInt8; cbn; lia|exact Hl|exact H].
Qed.

(** X14: what [Marshal] writes, for a parameter set of the data model, is a
    sequence of records in this order: the grease record with its random
    payload; the four flow-control limits, the two stream-count limits and
    the idle timeout in milliseconds, whatever their values; the maximum
    packet size, with [MaxReceivePacketSize]; the max ack delay and the ack
    delay exponent only when they differ from the defaults; an empty
    disable_active_migration record only when the flag is set; the
    stateless reset token, the preferred address and the original connection
    ID only when they are there; and the active connection ID limit last.
    The payload of a numeric record is the shortest encoding of its value. *)
Theorem Marshal_records p grease randomData :
  0 <= MaxReceivePacketSize <= maxVarInt8 ->
  valid p -> grease_draw grease randomData ->
  exists data,
    Marshal p grease randomData = Some data /\
    records data =
      Some ([(27 + 31 * grease, randomData);
             (initialMaxStreamDataBidiLocalParameterID,
              varintBytes (InitialMaxStreamDataBidiLocal p));
             (initialMaxStreamDataBidiRemoteParameterID,
              varintBytes (InitialMaxStreamDataBidiRemote p));
             (initialMaxStreamDataUniParameterID,
              varintBytes (InitialMaxStreamDataUni p));
             (initialMaxDataParameterID, varintBytes (InitialMaxData p));
             (initialMaxStreamsBidiParameterID, varintBytes (MaxBidiStreamNum p));
             (initialMaxStreamsUniParameterID, varintBytes (MaxUniStreamNum p));
             (maxIdleTimeoutParameterID,
              varintBytes (Z.quot (MaxIdleTimeout p) Millisecond));
             (maxPacketSizeParameterID, varintBytes MaxReceivePacketSize)] ++
            (if negb (MaxAckDelay p =? DefaultMaxAckDelay)
             then [(maxAckDelayParameterID,
                    varintBytes (Z.quot (MaxAckDelay p) Millisecond))]
             else []) ++
            (if negb (AckDelayExponent p =? DefaultAckDelayExponent)
             then [(ackDelayExponentParameterID, varintBytes (AckDelayExponent p))]
             else []) ++
            (if DisableActiveMigration p
             then [(disableActiveMigrationParameterID, [])] else []) ++
            match StatelessResetToken p with
            | Some token => [(statelessResetTokenParameterID, token)]
            | None => []
            end ++
            match PreferredAddress_ p with
            | Some pa =>
                [(preferredAddressParameterID,
                  preferredAddressBytes (lastFourBytes pa))]
            | None => []
            end ++
            (if len (OriginalConnectionID p) >? 0
             then [(originalConnectionIDParameterID, OriginalConnectionID p)]
             else []) ++
            [(activeConnectionIDLimitParameterID,
              varintBytes (ActiveConnectionIDLimit p))]).
Proof.
  intros Hrecv Hv Hg. exists (marshalled p grease randomData).
  split; [apply Marshal_marshalled; assumption|].
  destruct Hg as [Hg Hrd].
  destruct Hv as (H1 & H2 & H3 & H4 & H5 & H6 & H7 & Hidle & (Hmad & _) &
                  (Hade & _) & Htok & Hpa & Hodcid).
  unfold varint_range in *.
  pose proof (quot_ms_range _ Hidle) as Qidle.
  pose proof (quot_ms_range _ Hmad) as Qmad.
  unfold marshalled. cbn [app].
  change (varintBytes (27 + 31 * grease) ++ varintBytes (len randomData) ++ randomData)
    with (recordBytes (27 + 31 * grease, randomData)).
  apply records_step; [cbn [fst]; unfold maxVarInt8; lia
                      |cbn [snd]; unfold maxVarInt8; lia|].
  do 8 (apply records_numeric;
        [unfold_ids; unfold maxVarInt8; lia|unfold maxVarInt8 in *; lia|]).
  apply records_numeric_opt;
    [unfold_ids; unfold maxVarInt8; lia|unfold maxVarInt8 in *; lia|].
  apply records_numeric_opt;
    [unfold_ids; unfold maxVarInt8; lia|unfold maxVarInt8 in *; lia|].
  apply records_disableActiveMigration.
  apply records_statelessResetToken; [exact Htok|].
  apply records_preferredAddress; [exact Hpa|].
  apply records_originalConnectionID; [exact Hodcid|].
  apply records_numeric;
    [unfold_ids; unfold maxVarInt8; lia|unfold maxVarInt8 in *; lia|].
  reflexivity.
Qed.

End Further.


(** ** The claims at concrete inputs, with the constants of upstream *)

Lemma example_parameters_valid : @valid upstream example_parameters.
Proof.
  unfold valid, varint_range, maxVarInt8, Millisecond.
  cbn -[Z.pow].
  repeat apply conj; try lia; try reflexivity.
  - right. reflexivity.
  - intros token H. apply Some_inj in H. subst token. reflexivity.
  - intros pa H. apply Some_inj in H. subst pa.
    unfold PreferredAddress_encodable. cbn -[Z.pow].
    repeat apply conj; try lia; reflexivity.
Defined.

Lemma short_idle_parameters_valid : @valid upstream short_idle_parameters.
Proof.
  unfold valid, varint_range, maxVarInt8, Millisecond.
  cbn -[Z.pow].
  repeat apply conj; try lia; try reflexivity.
  - intros token H. discriminate H.
  - intros pa H. apply Some_inj in H. subst pa.
    unfold PreferredAddress_encodable. cbn -[Z.pow].
    repeat apply conj; try lia; reflexivity.
Defined.

(** C1, as stated, fails: a valid parameter set whose [MaxPacketSize] is 1200
    comes back from the round trip with the 1452 that [Marshal] writes, and
    the same bytes, which carry a stateless reset token, are refused when the
    sender is the client. *)
Lemma Marshal_round_trip_counterexample :
  @valid upstream example_parameters /\
  exists data p',
    @Marshal upstream example_parameters 5 [xaa; xbb] = Some data /\
    @Unmarshal upstream zeroTransportParameters data PerspectiveServer =
      Some (p', None) /\
    MaxPacketSize p' = 1452 /\ MaxPacketSize example_parameters = 1200 /\
    exists q,
      @Unmarshal upstream zeroTransportParameters data PerspectiveClient =
        Some (q, Some (TransportParameterError ErrClientSentStatelessResetToken)).
Proof.
  split; [exact example_parameters_valid|].
  eexists. eexists. split; [vm_compute; reflexivity|].
  split; [vm_compute; reflexivity|].
  split; [reflexivity|]. split; [reflexivity|].
  eexists. vm_compute. reflexivity.
Qed.

(** The round trip (C1, amended) at [short_idle_parameters], sent by the
    server: the idle timeout of one second comes back as the five seconds of
    the local minimum, the maximum packet size as 1452, and the IPv4 address
    as its last four bytes. *)
Lemma Marshal_Unmarshal_round_trip_witness :
  (1200 <= @MaxReceivePacketSize upstream <= maxVarInt8) /\
  @valid upstream short_idle_parameters /\
  grease_draw 5 [xaa; xbb] /\
  (PerspectiveServer = PerspectiveServer \/
   no_server_only_field short_idle_parameters) /\
  exists data,
    @Marshal upstream short_idle_parameters 5 [xaa; xbb] = Some data /\
    @Unmarshal upstream zeroTransportParameters data PerspectiveServer =
      Some ({| InitialMaxStreamDataBidiLocal := 524288;
               InitialMaxStreamDataBidiRemote := 524288;
               InitialMaxStreamDataUni := 524288;
               InitialMaxData := 786432;
               MaxAckDelay := 25 * Millisecond;
               AckDelayExponent := 3;
               DisableActiveMigration := false;
               MaxPacketSize := 1452;
               MaxUniStreamNum := 100;
               MaxBidiStreamNum := 100;
               MaxIdleTimeout := 5000 * Millisecond;
               PreferredAddress_ :=
                 Some {| IPv4 := [x7f; x00; x00; x01];
                         IPv4Port := 4433;
                         IPv6 := repeat x00 15 ++ [x01];
                         IPv6Port := 4434;
                         ConnectionID_ := [xde; xad; xbe; xef];
                         StatelessResetToken_ := repeat x10 16 |};
               StatelessResetToken := None;
               OriginalConnectionID := [];
               ActiveConnectionIDLimit := 4 |}, None).
Proof.
  assert (H1 : 1200 <= @MaxReceivePacketSize upstream <= maxVarInt8)
    by (unfold maxVarInt8; cbn; lia).
  assert (H2 : grease_draw 5 [xaa; xbb]) by (unfold grease_draw, len; cbn; lia).
  assert (H3 : PerspectiveServer = PerspectiveServer \/
               no_server_only_field short_idle_parameters) by (left; reflexivity).
  split; [exact H1|]. split; [exact short_idle_parameters_valid|].
  split; [exact H2|]. split; [exact H3|].
  exact (@Marshal_Unmarshal_round_trip upstream short_idle_parameters 5 [xaa; xbb]
           PerspectiveServer H1 short_idle_parameters_valid H2 H3).
Defined.



(** C3, as stated, fails: two records carry the same identifier, and the
    error is the out-of-range error of the first of them, not the duplicate
    error. *)
Lemma Unmarshal_duplicate_counterexample :
  records small_packet_size_twice =
    Some [(maxPacketSizeParameterID, [x44; xaf]); (maxPacketSizeParameterID, [x44; xaf])] /\
  @Unmarshal upstream zeroTransportParameters small_packet_size_twice PerspectiveServer =
    Some (zeroTransportParameters,
          Some (TransportParameterError (ErrMaxPacketSize 1199))).
Proof. split; vm_compute; reflexivity. Qed.

Lemma initial_max_data_twice_repeats :
  ~ NoDup (map fst [(initialMaxDataParameterID, [x07]); (initialMaxDataParameterID, [x08])]).
Proof.
  cbn. intros H. apply NoDup_cons_iff in H. destruct H as [H _]. apply H.
  left. reflexivity.
Defined.

(** C3 (amended) at [initial_max_data_twice]. *)
Lemma Unmarshal_duplicate_witness :
  records initial_max_data_twice =
    Some [(initialMaxDataParameterID, [x07]); (initialMaxDataParameterID, [x08])] /\
  ~ NoDup (map fst [(initialMaxDataParameterID, [x07]); (initialMaxDataParameterID, [x08])]) /\
  exists p' e,
    @Unmarshal upstream zeroTransportParameters initial_max_data_twice PerspectiveClient =
      Some (p', Some (TransportParameterError e)) /\
    match @record_error upstream PerspectiveClient zeroTransportParameters
            initial_max_data_twice with
    | Some e' => e = e'
    | None =>
        exists id,
          e = ErrDuplicate id /\
          (2 <= count_occ Z.eq_dec
                  (map fst [(initialMaxDataParameterID, [x07]);
                            (initialMaxDataParameterID, [x08])]) id)%nat
    end.
Proof.
  assert (H1 : records initial_max_data_twice =
               Some [(initialMaxDataParameterID, [x07]); (initialMaxDataParameterID, [x08])])
    by (vm_compute; reflexivity).
  split; [exact H1|]. split; [exact initial_max_data_twice_repeats|].
  exact (@Unmarshal_duplicate upstream zeroTransportParameters initial_max_data_twice
           PerspectiveClient _ H1 initial_max_data_twice_repeats).
Defined.

Lemma server_parameters_buffer_records :
  records server_parameters_buffer =
    Some [(statelessResetTokenParameterID, repeat x2a 16);
          (preferredAddressParameterID,
           [x7f; x00; x00; x01; x11; x51] ++ repeat x00 15 ++ [x01; x11; x52] ++
           [x04; xde; xad; xbe; xef] ++ repeat x10 16);
          (originalConnectionIDParameterID, [xca; xfe]);
          (initialMaxDataParameterID, [x07])].
Proof. vm_compute. reflexivity. Defined.

Lemma server_parameters_buffer_well_formed :
  @well_formed upstream
    [(statelessResetTokenParameterID, repeat x2a 16);
     (preferredAddressParameterID,
      [x7f; x00; x00; x01; x11; x51] ++ repeat x00 15 ++ [x01; x11; x52] ++
      [x04; xde; xad; xbe; xef] ++ repeat x10 16);
     (originalConnectionIDParameterID, [xca; xfe]);
     (initialMaxDataParameterID, [x07])].
Proof.
  split.
  - cbn [map fst]. unfold_ids.
    repeat (constructor; [cbn [In]; lia|]). constructor.
  - apply Forall_cons; [|apply Forall_cons; [|apply Forall_cons;
      [|apply Forall_cons; [|apply Forall_nil]]]].
    + change (len (repeat x2a 16) = 16). reflexivity.
    + change (exists pa,
                PreferredAddress_wf pa /\
                [x7f; x00; x00; x01; x11; x51] ++ repeat x00 15 ++ [x01; x11; x52] ++
                [x04; xde; xad; xbe; xef] ++ repeat x10 16 = preferredAddressBytes pa).
      exists {| IPv4 := [x7f; x00; x00; x01];
                IPv4Port := 4433;
                IPv6 := repeat x00 15 ++ [x01];
                IPv6Port := 4434;
                ConnectionID_ := [xde; xad; xbe; xef];
                StatelessResetToken_ := repeat x10 16 |}.
      split; [|reflexivity].
      unfold PreferredAddress_wf. cbn -[Z.pow]. repeat apply conj; try lia; reflexivity.
    + exact I.
    + change (exists val,
                ReadVarInt [x07] = Ok (val, []) /\
                (initialMaxDataParameterID = maxPacketSizeParameterID -> 1200 <= val) /\
                (initialMaxDataParameterID = ackDelayExponentParameterID ->
                 val <= @MaxAckDelayExponent upstream) /\
                (initialMaxDataParameterID = maxAckDelayParameterID ->
                 duration_of_ms val < @MaxMaxAckDelay upstream)).
      exists 7. split; [reflexivity|].
      unfold_ids. repeat split; intros H; discriminate H.
Defined.

(** C4 at [server_parameters_buffer], which holds the three records that
    only a server may send. *)
Lemma Unmarshal_role_gating_witness :
  records server_parameters_buffer =
    Some [(statelessResetTokenParameterID, repeat x2a 16);
          (preferredAddressParameterID,
           [x7f; x00; x00; x01; x11; x51] ++ repeat x00 15 ++ [x01; x11; x52] ++
           [x04; xde; xad; xbe; xef] ++ repeat x10 16);
          (originalConnectionIDParameterID, [xca; xfe]);
          (initialMaxDataParameterID, [x07])] /\
  @well_formed upstream
    [(statelessResetTokenParameterID, repeat x2a 16);
     (preferredAddressParameterID,
      [x7f; x00; x00; x01; x11; x51] ++ repeat x00 15 ++ [x01; x11; x52] ++
      [x04; xde; xad; xbe; xef] ++ repeat x10 16);
     (originalConnectionIDParameterID, [xca; xfe]);
     (initialMaxDataParameterID, [x07])] /\
  (exists p',
     @Unmarshal upstream zeroTransportParameters server_parameters_buffer
        PerspectiveServer = Some (p', None)) /\
  exists q e,
    @Unmarshal upstream zeroTransportParameters server_parameters_buffer
       PerspectiveClient = Some (q, Some (TransportParameterError e)) /\
    role_violation e = true.
Proof.
  split; [exact server_parameters_buffer_records|].
  split; [exact server_parameters_buffer_well_formed|].
  apply (@Unmarshal_role_gating upstream zeroTransportParameters
           server_parameters_buffer _ server_parameters_buffer_records
           server_parameters_buffer_well_formed).
  exists preferredAddressParameterID. split; [right; left; reflexivity|].
  left. reflexivity.
Defined.

(** What the two senders get for [server_parameters_buffer]: the server the
    token, the address and the connection ID, the client the role error of
    the first of the three records. *)
Lemma server_parameters_buffer_decoded :
  @Unmarshal upstream zeroTransportParameters server_parameters_buffer
     PerspectiveServer =
    Some ({| InitialMaxStreamDataBidiLocal := 0;
             InitialMaxStreamDataBidiRemote := 0;
             InitialMaxStreamDataUni := 0;
             InitialMaxData := 7;
             MaxAckDelay := 25 * Millisecond;
             AckDelayExponent := 3;
             DisableActiveMigration := false;
             MaxPacketSize := 2 ^ 62 - 1;
             MaxUniStreamNum := 0;
             MaxBidiStreamNum := 0;
             MaxIdleTimeout := 0;
             PreferredAddress_ :=
               Some {| IPv4 := [x7f; x00; x00; x01];
                       IPv4Port := 4433;
                       IPv6 := repeat x00 15 ++ [x01];
                       IPv6Port := 4434;
                       ConnectionID_ := [xde; xad; xbe; xef];
                       StatelessResetToken_ := repeat x10 16 |};
             StatelessResetToken := Some (repeat x2a 16);
             OriginalConnectionID := [xca; xfe];
             ActiveConnectionIDLimit := 0 |}, None) /\
  @Unmarshal upstream zeroTransportParameters server_parameters_buffer
     PerspectiveClient =
    Some (zeroTransportParameters,
          Some (TransportParameterError ErrClientSentStatelessResetToken)).
Proof. split; vm_compute; reflexivity. Qed.

(** C10 at [token_buffer], decoded into a receiver whose
    [DisableActiveMigration] is already [true]. *)
Lemma Unmarshal_in_place_witness :
  @Unmarshal upstream (set_DisableActiveMigration true zeroTransportParameters)
     token_buffer PerspectiveServer =
    Some (set_MaxPacketSize (@MaxByteCount upstream)
            (set_MaxAckDelay (@DefaultMaxAckDelay upstream)
               (set_AckDelayExponent (@DefaultAckDelayExponent upstream)
                  (set_InitialMaxData 7
                     (set_StatelessResetToken (Some (repeat x2a 16))
                        (set_DisableActiveMigration true zeroTransportParameters))))),
          None) /\
  DisableActiveMigration
    (set_MaxPacketSize (@MaxByteCount upstream)
       (set_MaxAckDelay (@DefaultMaxAckDelay upstream)
          (set_AckDelayExponent (@DefaultAckDelayExponent upstream)
             (set_InitialMaxData 7
                (set_StatelessResetToken (Some (repeat x2a 16))
                   (set_DisableActiveMigration true zeroTransportParameters)))))) = true.
Proof.
  assert (H1 : @Unmarshal upstream
                 (set_DisableActiveMigration true zeroTransportParameters)
                 token_buffer PerspectiveServer =
    Some (set_MaxPacketSize (@MaxByteCount upstream)
            (set_MaxAckDelay (@DefaultMaxAckDelay upstream)
               (set_AckDelayExponent (@DefaultAckDelayExponent upstream)
                  (set_InitialMaxData 7
                     (set_StatelessResetToken (Some (repeat x2a 16))
                        (set_DisableActiveMigration true zeroTransportParameters))))),
          None))
    by (vm_compute; reflexivity).
  split; [exact H1|].
  destruct (@Unmarshal_in_place upstream _ _ _ _ H1) as (recs & Hrec & _ & Hdam).
  apply Hdam; [|reflexivity].
  assert (E : records token_buffer =
              Some [(statelessResetTokenParameterID, repeat x2a 16);
                    (initialMaxDataParameterID, [x07])])
    by (vm_compute; reflexivity).
  rewrite E in Hrec. apply Some_inj in Hrec. subst recs.
  cbn. intros [H|[H|[]]]; discriminate H.
Defined.

Lemma example_parameters_encodable : ticket_fields_encodable example_parameters.
Proof. unfold ticket_fields_encodable, varint_range, maxVarInt8. cbn. lia. Defined.

(** C5 at [example_parameters], appended to an empty ticket. *)
Lemma session_ticket_round_trip_witness :
  ticket_fields_encodable example_parameters /\
  exists data,
    MarshalForSessionTicket example_parameters [] = Some ([] ++ data) /\
    @UnmarshalFromSessionTicket upstream zeroTransportParameters data =
      Some ({| InitialMaxStreamDataBidiLocal :=
                 InitialMaxStreamDataBidiLocal example_parameters;
               InitialMaxStreamDataBidiRemote :=
                 InitialMaxStreamDataBidiRemote example_parameters;
               InitialMaxStreamDataUni := InitialMaxStreamDataUni example_parameters;
               InitialMaxData := InitialMaxData example_parameters;
               MaxAckDelay := @DefaultMaxAckDelay upstream;
               AckDelayExponent := @DefaultAckDelayExponent upstream;
               DisableActiveMigration := false;
               MaxPacketSize := @MaxByteCount upstream;
               MaxUniStreamNum := MaxUniStreamNum example_parameters;
               MaxBidiStreamNum := MaxBidiStreamNum example_parameters;
               MaxIdleTimeout := 0;
               PreferredAddress_ := None;
               StatelessResetToken := None;
               OriginalConnectionID := [];
               ActiveConnectionIDLimit := ActiveConnectionIDLimit example_parameters |},
            None).
Proof.
  split; [exact example_parameters_encodable|].
  exact (@session_ticket_round_trip upstream example_parameters []
           example_parameters_encodable).
Defined.

(** C6 at 9223372036855 milliseconds, whose product with a millisecond is
    above 2^63: the duration has wrapped around to a negative one, the
    record is accepted and [InfDuration] is stored. *)
Lemma max_ack_delay_range_witness :
  0 <= @MaxMaxAckDelay upstream /\
  0 <= 9223372036855 /\
  marshalVarintParam [] maxAckDelayParameterID 9223372036855 =
    Some long_max_ack_delay_record /\
  2 ^ 63 <= 9223372036855 * Millisecond < 2 ^ 64 /\
  duration_of_ms 9223372036855 = 9223372036855 * Millisecond - 2 ^ 64 /\
  exists p',
    @Unmarshal upstream zeroTransportParameters long_max_ack_delay_record
       PerspectiveClient = Some (p', None) /\
    MaxAckDelay p' = @InfDuration upstream.
Proof.
  assert (H1 : 0 <= @MaxMaxAckDelay upstream) by (vm_compute; discriminate).
  assert (H2 : 0 <= 9223372036855) by lia.
  assert (H3 : marshalVarintParam [] maxAckDelayParameterID 9223372036855 =
               Some long_max_ack_delay_record) by (vm_compute; reflexivity).
  assert (H4 : 2 ^ 63 <= 9223372036855 * Millisecond < 2 ^ 64)
    by (unfold Millisecond; lia).
  split; [exact H1|]. split; [exact H2|]. split; [exact H3|]. split; [exact H4|].
  exact (proj1 (proj2 (proj2 (proj2
           (@max_ack_delay_range upstream zeroTransportParameters
              PerspectiveClient 9223372036855 _ H1 H2 H3)))) H4).
Defined.

(** The same record with the largest value that is accepted as it is, 16382
    milliseconds, and with the smallest that is rejected, 16383. *)
Lemma max_ack_delay_boundary :
  @Unmarshal upstream zeroTransportParameters [x0b; x02; x7f; xfe] PerspectiveClient =
    Some (set_MaxPacketSize (2 ^ 62 - 1)
            (set_AckDelayExponent 3
               (set_MaxAckDelay (16382 * Millisecond) zeroTransportParameters)),
          None) /\
  @Unmarshal upstream zeroTransportParameters [x0b; x02; x7f; xff] PerspectiveClient =
    Some (zeroTransportParameters,
          Some (TransportParameterError (ErrMaxAckDelay (16383 * Millisecond)))).
Proof. split; vm_compute; reflexivity. Qed.



(** C8 at the four boundary values. *)
Lemma max_packet_size_and_ack_delay_exponent_bounds_witness :
  0 <= @MaxAckDelayExponent upstream /\
  @Unmarshal upstream zeroTransportParameters ([x03; x02; x44; xaf] ++ [])
     PerspectiveServer =
    Some (zeroTransportParameters,
          Some (TransportParameterError (ErrMaxPacketSize 1199))) /\
  (exists p',
     @Unmarshal upstream zeroTransportParameters [x03; x02; x44; xb0]
        PerspectiveServer = Some (p', None) /\
     MaxPacketSize p' = 1200) /\
  @Unmarshal upstream zeroTransportParameters ([x0a; x01; x15] ++ [])
     PerspectiveServer =
    Some (zeroTransportParameters,
          Some (TransportParameterError
                  (ErrAckDelayExponent (@MaxAckDelayExponent upstream + 1)))) /\
  (exists p',
     @Unmarshal upstream zeroTransportParameters [x0a; x01; x14]
        PerspectiveServer = Some (p', None) /\
     AckDelayExponent p' = byte_val (uint8 (@MaxAckDelayExponent upstream))).
Proof.
  assert (H : 0 <= @MaxAckDelayExponent upstream) by (vm_compute; discriminate).
  split; [exact H|].
  destruct (@max_packet_size_and_ack_delay_exponent_bounds upstream
              zeroTransportParameters PerspectiveServer H)
    as (A & B & _ & C & D & _).
  split; [apply (A 1199); [lia|vm_compute; reflexivity]|].
  split; [apply (B 1200); [lia|vm_compute; reflexivity]|].
  split; [apply C; vm_compute; reflexivity|].
  apply D; vm_compute; reflexivity.
Defined.

(** ** The further properties at concrete inputs *)

(** X3 at a concrete input. *)
Lemma Unmarshal_duplicate_check_exact_witness :
  @Unmarshal upstream zeroTransportParameters initial_max_data_twice
     PerspectiveServer =
    Some (set_MaxPacketSize (2 ^ 62 - 1)
            (set_MaxAckDelay (25 * Millisecond)
               (set_AckDelayExponent 3
                  (set_InitialMaxData 8 zeroTransportParameters))),
          Some (TransportParameterError (ErrDuplicate initialMaxDataParameterID))) /\
  exists recs,
    records initial_max_data_twice = Some recs /\
    (2 <= count_occ Z.eq_dec (map fst recs) initialMaxDataParameterID)%nat /\
    forall id', (2 <= count_occ Z.eq_dec (map fst recs) id')%nat ->
                initialMaxDataParameterID <= id'.
Proof.
  assert (H : @Unmarshal upstream zeroTransportParameters initial_max_data_twice
                PerspectiveServer =
              Some (set_MaxPacketSize (2 ^ 62 - 1)
                      (set_MaxAckDelay (25 * Millisecond)
                         (set_AckDelayExponent 3
                            (set_InitialMaxData 8 zeroTransportParameters))),
                    Some (TransportParameterError
                            (ErrDuplicate initialMaxDataParameterID))))
    by (vm_compute; reflexivity).
  split; [exact H|].
  exact (@Unmarshal_duplicate_check_exact upstream _ _ _ _ _ H).
Defined.

(** X4 at a concrete input. *)
Lemma Unmarshal_role_only_gates_witness :
  @Unmarshal upstream zeroTransportParameters truncated_buffer PerspectiveClient =
    Some (set_InitialMaxData 7 zeroTransportParameters,
          Some (TransportParameterError EOF)) /\
  (forall e, Some (TransportParameterError EOF) = Some (TransportParameterError e) ->
             role_violation e = false) /\
  @Unmarshal upstream zeroTransportParameters truncated_buffer PerspectiveServer =
    Some (set_InitialMaxData 7 zeroTransportParameters,
          Some (TransportParameterError EOF)).
Proof.
  assert (H1 : @Unmarshal upstream zeroTransportParameters truncated_buffer
                 PerspectiveClient =
               Some (set_InitialMaxData 7 zeroTransportParameters,
                     Some (TransportParameterError EOF)))
    by (vm_compute; reflexivity).
  assert (H2 : forall e,
             Some (TransportParameterError EOF) = Some (TransportParameterError e) ->
             role_violation e = false).
  { intros e H. apply Some_inj in H. assert (E : EOF = e) by congruence.
    subst e. reflexivity. }
  split; [exact H1|]. split; [exact H2|].
  exact (@Unmarshal_role_only_gates upstream _ _ _ _ H1 H2).
Defined.

(** X5 at a concrete input. *)
Lemma Unmarshal_skips_unknown_witness :
  14 < 182 <= maxVarInt8 /\
  len [xaa; xbb] <= maxVarInt8 /\
  (forall recs, records [x04; x01; x07] = Some recs -> ~ In 182 (map fst recs)) /\
  @Unmarshal upstream zeroTransportParameters
     (varintBytes 182 ++ varintBytes (len [xaa; xbb]) ++ [xaa; xbb] ++ [x04; x01; x07])
     PerspectiveClient =
    @Unmarshal upstream zeroTransportParameters [x04; x01; x07] PerspectiveClient.
Proof.
  assert (H1 : 14 < 182 <= maxVarInt8) by (unfold maxVarInt8; lia).
  assert (H2 : len [xaa; xbb] <= maxVarInt8) by (unfold maxVarInt8, len; cbn; lia).
  assert (H3 : forall recs, records [x04; x01; x07] = Some recs ->
                            ~ In 182 (map fst recs)).
  { intros recs H. vm_compute in H. apply Some_inj in H. subst recs.
    cbn. intros [E|[]]. discriminate E. }
  split; [exact H1|]. split; [exact H2|]. split; [exact H3|].
  exact (@Unmarshal_skips_unknown upstream zeroTransportParameters PerspectiveClient
           182 [xaa; xbb] [x04; x01; x07] H1 H2 H3).
Defined.

(** X6 at a concrete input. *)
Lemma Unmarshal_truncated_parameter_witness :
  0 <= preferredAddressParameterID <= maxVarInt8 /\
  mem preferredAddressParameterID numericParameterIDs = false /\
  len [x7f; x00; x00] < 45 <= maxVarInt8 /\
  @Unmarshal upstream zeroTransportParameters
     (varintBytes preferredAddressParameterID ++ varintBytes 45 ++ [x7f; x00; x00])
     PerspectiveClient =
    Some (zeroTransportParameters,
          Some (TransportParameterError
                  (ErrRemainingLength (len [x7f; x00; x00]) 45))).
Proof.
  assert (H1 : 0 <= preferredAddressParameterID <= maxVarInt8)
    by (unfold preferredAddressParameterID, maxVarInt8; lia).
  assert (H2 : mem preferredAddressParameterID numericParameterIDs = false)
    by reflexivity.
  assert (H3 : len [x7f; x00; x00] < 45 <= maxVarInt8)
    by (unfold maxVarInt8, len; cbn; lia).
  split; [exact H1|]. split; [exact H2|]. split; [exact H3|].
  exact (@Unmarshal_truncated_parameter upstream zeroTransportParameters
           PerspectiveClient _ _ _ H1 H2 H3).
Defined.

(** X7 at a concrete input. *)
Lemma Unmarshal_numeric_length_mismatch_witness :
  mem maxPacketSizeParameterID numericParameterIDs = true /\
  0 <= 2 <= maxVarInt8 /\
  @Unmarshal upstream zeroTransportParameters
     (varintBytes maxPacketSizeParameterID ++ varintBytes 2 ++ varintBytes 5 ++ [])
     PerspectiveServer =
    Some (zeroTransportParameters,
          Some (TransportParameterError
                  (ErrInconsistentLength maxPacketSizeParameterID))) /\
  @Unmarshal upstream zeroTransportParameters
     (varintBytes maxPacketSizeParameterID ++ varintBytes 2) PerspectiveServer =
    Some (zeroTransportParameters,
          Some (TransportParameterError
                  (ErrReadingParameter maxPacketSizeParameterID EOF))).
Proof.
  assert (H1 : mem maxPacketSizeParameterID numericParameterIDs = true) by reflexivity.
  assert (H2 : 0 <= 2 <= maxVarInt8) by (unfold maxVarInt8; lia).
  split; [exact H1|]. split; [exact H2|].
  destruct (@Unmarshal_numeric_length_mismatch upstream zeroTransportParameters
              PerspectiveServer _ _ H1 H2) as [A B].
  split; [|exact B].
  apply A; [unfold maxVarInt8; lia|].
  intros E. vm_compute in E. discriminate E.
Defined.

(** X8 at a concrete input. *)
Lemma Unmarshal_wrong_fixed_length_witness :
  len [x01] <= maxVarInt8 /\
  @Unmarshal upstream zeroTransportParameters
     (varintBytes disableActiveMigrationParameterID ++
      varintBytes (len [x01]) ++ [x01] ++ []) PerspectiveClient =
    Some (zeroTransportParameters,
          Some (TransportParameterError
                  (ErrWrongLengthDisableActiveMigration (len [x01])))) /\
  @Unmarshal upstream zeroTransportParameters
     (varintBytes statelessResetTokenParameterID ++
      varintBytes (len [x01]) ++ [x01] ++ []) PerspectiveServer =
    Some (zeroTransportParameters,
          Some (TransportParameterError
                  (ErrWrongLengthStatelessResetToken (len [x01])))).
Proof.
  assert (H : len [x01] <= maxVarInt8) by (unfold maxVarInt8, len; cbn; lia).
  split; [exact H|].
  destruct (@Unmarshal_wrong_fixed_length upstream zeroTransportParameters
              PerspectiveClient [x01] [] H) as [A _].
  destruct (@Unmarshal_wrong_fixed_length upstream zeroTransportParameters
              PerspectiveServer [x01] [] H) as [_ B].
  split; [apply A; discriminate|apply B].
  unfold len. cbn. lia.
Defined.

(** X9 at a concrete input. *)
Lemma Unmarshal_plain_numeric_records_witness :
  @Unmarshal upstream zeroTransportParameters token_buffer PerspectiveServer =
    Some (set_MaxPacketSize (2 ^ 62 - 1)
            (set_MaxAckDelay (25 * Millisecond)
               (set_AckDelayExponent 3
                  (set_InitialMaxData 7
                     (set_StatelessResetToken (Some (repeat x2a 16))
                        zeroTransportParameters)))), None) /\
  records token_buffer =
    Some [(statelessResetTokenParameterID, repeat x2a 16);
          (initialMaxDataParameterID, [x07])] /\
  ReadVarInt [x07] = Ok (7, []).
Proof.
  assert (H1 : @Unmarshal upstream zeroTransportParameters token_buffer
                 PerspectiveServer =
    Some (set_MaxPacketSize (2 ^ 62 - 1)
            (set_MaxAckDelay (25 * Millisecond)
               (set_AckDelayExponent 3
                  (set_InitialMaxData 7
                     (set_StatelessResetToken (Some (repeat x2a 16))
                        zeroTransportParameters)))), None))
    by (vm_compute; reflexivity).
  assert (H2 : records token_buffer =
               Some [(statelessResetTokenParameterID, repeat x2a 16);
                     (initialMaxDataParameterID, [x07])])
    by (vm_compute; reflexivity).
  split; [exact H1|]. split; [exact H2|].
  destruct (@Unmarshal_plain_numeric_records upstream _ _ _ _ _ [x07] H1 H2)
    as (_ & _ & _ & A & _).
  apply A. right. left. reflexivity.
Defined.

(** X10 at a concrete input. *)
Lemma Unmarshal_opaque_records_witness :
  exists p',
    @Unmarshal upstream zeroTransportParameters server_parameters_buffer
       PerspectiveServer = Some (p', None) /\
    records server_parameters_buffer =
      Some [(statelessResetTokenParameterID, repeat x2a 16);
            (preferredAddressParameterID,
             [x7f; x00; x00; x01; x11; x51] ++ repeat x00 15 ++ [x01; x11; x52] ++
             [x04; xde; xad; xbe; xef] ++ repeat x10 16);
            (originalConnectionIDParameterID, [xca; xfe]);
            (initialMaxDataParameterID, [x07])] /\
    (PerspectiveServer = PerspectiveServer /\ len (repeat x2a 16) = 16 /\
     StatelessResetToken p' = Some (repeat x2a 16)) /\
    (PerspectiveServer = PerspectiveServer /\ OriginalConnectionID p' = [xca; xfe]).
Proof.
  pose proof (proj1 server_parameters_buffer_decoded) as H1.
  eexists. split; [exact H1|].
  split; [exact server_parameters_buffer_records|].
  split.
  - destruct (@Unmarshal_opaque_records upstream _ _ _ _ _ (repeat x2a 16) H1
                server_parameters_buffer_records) as (_ & A & _).
    apply A. left. reflexivity.
  - destruct (@Unmarshal_opaque_records upstream _ _ _ _ _ [xca; xfe] H1
                server_parameters_buffer_records) as (_ & _ & A & _).
    apply A. right. right. left. reflexivity.
Defined.

(** X12 at a concrete input. *)
Lemma UnmarshalFromSessionTicket_version_witness :
  0 <= 2 <= maxVarInt8 /\
  @UnmarshalFromSessionTicket upstream zeroTransportParameters [] =
    Some (zeroTransportParameters, Some EOF) /\
  @UnmarshalFromSessionTicket upstream zeroTransportParameters
     (varintBytes 2 ++ [x04; x01; x07]) =
    Some (zeroTransportParameters, Some (ErrUnknownVersion 2)).
Proof.
  assert (H : 0 <= 2 <= maxVarInt8) by (unfold maxVarInt8; lia).
  split; [exact H|].
  exact (@UnmarshalFromSessionTicket_version upstream zeroTransportParameters 2
           [x04; x01; x07] H).
Defined.

(** X13 at a concrete input. *)
Lemma session_ticket_valid_for_0RTT_witness :
  ticket_fields_encodable example_parameters /\
  exists data q,
    MarshalForSessionTicket example_parameters [] = Some ([] ++ data) /\
    @UnmarshalFromSessionTicket upstream short_idle_parameters data = Some (q, None) /\
    ValidFor0RTT q example_parameters = true /\
    ValidFor0RTT example_parameters q = true /\
    ActiveConnectionIDLimit q = ActiveConnectionIDLimit example_parameters.
Proof.
  split; [exact example_parameters_encodable|].
  exact (@session_ticket_valid_for_0RTT upstream example_parameters
           short_idle_parameters [] example_parameters_encodable).
Defined.

(** X14 at a concrete input. *)
Lemma Marshal_records_witness :
  0 <= @MaxReceivePacketSize upstream <= maxVarInt8 /\
  @valid upstream short_idle_parameters /\
  grease_draw 5 [xaa; xbb] /\
  exists data recs,
    @Marshal upstream short_idle_parameters 5 [xaa; xbb] = Some data /\
    records data = Some recs /\
    map fst recs = [182; 5; 6; 7; 4; 8; 9; 1; 3; 13; 14].
Proof.
  assert (H1 : 0 <= @MaxReceivePacketSize upstream <= maxVarInt8)
    by (unfold maxVarInt8; cbn; lia).
  assert (H2 : grease_draw 5 [xaa; xbb]) by (unfold grease_draw, len; cbn; lia).
  split; [exact H1|]. split; [exact short_idle_parameters_valid|]. split; [exact H2|].
  destruct (@Marshal_records upstream short_idle_parameters 5 [xaa; xbb] H1
              short_idle_parameters_valid H2) as (data & HM & HR).
  exists data. eexists. split; [exact HM|]. split; [exact HR|].
  vm_compute. reflexivity.
Defined.
